(** * Jarvix ingestion pipeline: a shallow embedding and its properties

    The development follows [jarvix/ingest/pipeline.py] and the connectors
    under [jarvix/ingest/connectors/].

    Modelling conventions.
    - A Python [str] is a [string]; its characters stand for the code points
      below 256, which is where [str.lower], [str.split] and [str.strip] are
      written out below.
    - A Python [int] is a [Z]; a [len(...)] is a [nat].
    - A [dict] is an association list in insertion order, because
      [_record_to_plain_text] iterates over [record.values()].
    - A [set] of tokens is a [gset string]; the occurrence counter, a dict
      used only as a map, is a [gmap string Z].
    - An expression returns or raises ([res]); a generator is the list of
      its items closed by its end or by the exception that ends it ([gen]).
    - Calls that leave the process (the [MemoryManager] methods, the chat of
      [xai_sdk], the construction of its [Client]) are answered by a
      [Services] record over an abstract world; a call may return or raise.
    - [datetime] and [json] belong to the interpreter.  [json.dumps] is
      written out; of [datetime.fromisoformat] a reference parser is given
      (CPython 3.11 and later, which read the [Z] suffix), and the functions
      that call it take the parser as a parameter.
    - What [verbose] prints is left out; the dry-run line is an event. *)

From Stdlib Require Import ZArith List String Ascii Bool Lia.
From stdpp Require Import base option list gmap strings pretty sorting.

Import ListNotations.
Set Warnings "-register-all".
Local Open Scope string_scope.
Local Open Scope Z_scope.

(** ** Python values *)

(** What [json.loads] can produce, and [VOther] for every other object a
    [Dict[str, object]] may hold (a float, a set, ...): the code observes
    such an object only through its truth value and through [json.dumps],
    which renders it or raises [TypeError]. *)
Inductive value : Type :=
| VNone
| VBool (b : bool)
| VInt (n : Z)
| VStr (s : string)
| VList (l : list value)
| VDict (d : list (string * value))
| VOther (truthy : bool) (json : option string).

Abbreviation dict := (list (string * value)).

(** [bool(v)] *)
Definition truthy (v : value) : bool :=
  match v with
  | VNone => false
  | VBool b => b
  | VInt n => negb (n =? 0)
  | VStr s => negb (String.eqb s "")
  | VList l => match l with [] => false | _ => true end
  | VDict d => match d with [] => false | _ => true end
  | VOther t _ => t
  end.

(** [a or b] *)
Definition py_or (a b : value) : value := if truthy a then a else b.

(** [d.get(key)], [None] when the key is absent, and [d.get(key, dflt)] *)
Fixpoint dict_lookup (key : string) (d : dict) : option value :=
  match d with
  | [] => None
  | (k, v) :: d' => if String.eqb k key then Some v else dict_lookup key d'
  end.

Definition dict_get_or (key : string) (dflt : value) (d : dict) : value :=
  match dict_lookup key d with Some v => v | None => dflt end.

Definition dict_get (key : string) (d : dict) : value := dict_get_or key VNone d.

(** [d[key] = v]: an existing key keeps its position *)
Fixpoint dict_set (key : string) (v : value) (d : dict) : dict :=
  match d with
  | [] => [(key, v)]
  | (k, x) :: d' =>
      if String.eqb k key then (k, v) :: d' else (k, x) :: dict_set key v d'
  end.

(** [d.values()] *)
Definition dict_values (d : dict) : list value := map snd d.

(** ** Python strings *)

Module PyStr.

Definition code (c : ascii) : N := N_of_ascii c.

(** [c.isspace()] on the code points below 256 *)
Definition isspace (c : ascii) : bool :=
  let n := code c in
  ((9 <=? n) && (n <=? 13) || (28 <=? n) && (n <=? 32)
   || (n =? 133) || (n =? 160))%N.

(** [c.lower()]: A-Z, and the Latin-1 capitals other than the
    multiplication sign *)
Definition lower_char (c : ascii) : ascii :=
  let n := code c in
  if ((65 <=? n) && (n <=? 90)
      || (192 <=? n) && (n <=? 222) && negb (n =? 215))%N
  then ascii_of_N (n + 32) else c.

Fixpoint lower (s : string) : string :=
  match s with
  | EmptyString => EmptyString
  | String c s' => String (lower_char c) (lower s')
  end.

(** [s.replace(old, new)] for one-character [old] and [new] *)
Fixpoint replace_char (old new : ascii) (s : string) : string :=
  match s with
  | EmptyString => EmptyString
  | String c s' =>
      String (if Ascii.eqb c old then new else c) (replace_char old new s')
  end.

(** [s.split()]: maximal runs of non-whitespace characters.  [cur] holds
    the run being read, reversed. *)
Fixpoint split_go (cur : list ascii) (s : string) : list string :=
  let flush rest :=
    match cur with
    | [] => rest
    | _ => string_of_list_ascii (rev cur) :: rest
    end in
  match s with
  | EmptyString => flush []
  | String c s' =>
      if isspace c then flush (split_go [] s') else split_go (c :: cur) s'
  end.

Definition split (s : string) : list string := split_go [] s.

Fixpoint lstrip (s : string) : string :=
  match s with
  | EmptyString => EmptyString
  | String c s' => if isspace c then lstrip s' else s
  end.

Definition rev_string (s : string) : string :=
  string_of_list_ascii (rev (list_ascii_of_string s)).

Definition rstrip (s : string) : string := rev_string (lstrip (rev_string s)).

(** [s.strip()] *)
Definition strip (s : string) : string := rstrip (lstrip s).

End PyStr.

(** ** Context selector *)

(** The inner [tokenize] of [_select_context_mems]: lists are flattened,
    strings are lower-cased, commas and full stops become spaces, and the
    words of three characters or more are kept; anything else gives []. *)
Fixpoint tokenize (val : value) : list string :=
  match val with
  | VList vs => flat_map tokenize vs
  | VStr s =>
      List.filter (fun w => (3 <=? String.length w)%nat)
        (PyStr.split
           (PyStr.replace_char "." " "
              (PyStr.replace_char "," " " (PyStr.lower s))))
  | _ => []
  end.

Definition text_keys : list string :=
  ["transcription"; "description"; "text"; "summary"].

(** [record_tokens], built by the loop over the four keys *)
Definition record_tokens (record : dict) : gset string :=
  fold_left (fun acc key => acc ∪ list_to_set (tokenize (dict_get key record)))
    text_keys ∅.

(** [mem.get("memory") or mem.get("text") or ""] *)
Definition memory_text (mem : dict) : value :=
  py_or (py_or (dict_get "memory" mem) (dict_get "text" mem)) (VStr "").

(** [len(record_tokens.intersection(set(tokenize(text))))] *)
Definition overlap (rt : gset string) (text : value) : nat :=
  size (rt ∩ list_to_set (tokenize text)).

(** The loop that fills [scored] *)
Fixpoint score_memories (rt : gset string) (memories : list dict)
  : list (nat * value) :=
  match memories with
  | [] => []
  | mem :: rest =>
      let text := memory_text mem in
      let score := overlap rt text in
      if (0 <? score)%nat then (score, text) :: score_memories rt rest
      else score_memories rt rest
  end.

(** [list.sort(key=lambda t: t[0], reverse=True)]: Python's sort is stable,
    also under [reverse=True].  Written as the stable insertion sort. *)
Fixpoint insert_desc {A} (x : nat * A) (l : list (nat * A)) : list (nat * A) :=
  match l with
  | [] => [x]
  | y :: l' =>
      if (fst y <=? fst x)%nat then x :: l else y :: insert_desc x l'
  end.

Definition sort_desc {A} (l : list (nat * A)) : list (nat * A) :=
  foldr insert_desc [] l.

(** [l[:k]] for any integer [k]: a negative [k] counts from the end *)
Definition slice_to {A} (k : Z) (l : list A) : list A :=
  if k <? 0 then firstn (Z.to_nat (Z.of_nat (length l) + k)) l
  else firstn (Z.to_nat k) l.

Definition _select_context_mems (record : dict) (memories : list dict)
    (max_items : Z) : list value :=
  let scored := sort_desc (score_memories (record_tokens record) memories) in
  map snd (slice_to max_items scored).

(** The default of the keyword argument *)
Definition default_max_items : Z := 3.

Definition demo_record : dict :=
  [("summary", VStr "Dentist appointment, Tuesday morning");
   ("description", VNone); ("location", VStr "Main street")].

Definition demo_memories : list dict :=
  [ [("memory", VStr "User has a dentist on main street")];
    [("memory", VStr "User likes coffee")];
    [("text", VStr "Dentist appointment moved to tuesday.")];
    [("memory", VStr "Tuesday morning is gym time")];
    [("memory", VStr "dentist. dentist, DENTIST")];
    [("memory", VStr "morning run, then appointment")] ].

(** ** Exceptions *)

Inductive exn : Type :=
| ValueError | TypeError | OverflowError | AttributeError | KeyError
| ServiceError.

(** The outcome of a Python expression: a value, or an exception on its way
    up.  Every [exn] is a subclass of [Exception]. *)
Inductive res (A : Type) : Type :=
| Return (a : A)
| Raise (e : exn).
Arguments Return {A} a.
Arguments Raise {A} e.

Definition res_bind {A B} (m : res A) (f : A -> res B) : res B :=
  match m with Return a => f a | Raise e => Raise e end.

(** [try: body  except Exception: handler] *)
Definition try_except {A} (body : res A) (handler : res A) : res A :=
  match body with Return a => Return a | Raise _ => handler end.

Declare Scope res_scope.
Delimit Scope res_scope with res.
Notation "'let*' x ':=' m 'in' k" := (res_bind m (fun x => k))
  (at level 10, x name, m at level 100, k at level 200) : res_scope.

(** ** [json.dumps(v, ensure_ascii=False)] *)

Module Json.

Definition dquote : ascii := ascii_of_N 34.
Definition backslash : ascii := ascii_of_N 92.

Definition hex_digit (n : N) : ascii :=
  match String.get (N.to_nat n) "0123456789abcdef" with
  | Some c => c
  | None => "0"%char
  end.

(** The replacement of one character inside a JSON string: the quote, the
    backslash and the control characters are escaped, nothing else is. *)
Definition escape_char (c : ascii) : string :=
  let n := N_of_ascii c in
  let esc x := String backslash (String x EmptyString) in
  if (n =? 34)%N then esc dquote
  else if (n =? 92)%N then esc backslash
  else if (n =? 10)%N then esc "n"%char
  else if (n =? 13)%N then esc "r"%char
  else if (n =? 9)%N then esc "t"%char
  else if (n =? 8)%N then esc "b"%char
  else if (n =? 12)%N then esc "f"%char
  else if (n <? 32)%N then
    String backslash ("u00" ++ String (hex_digit (n / 16)) (String (hex_digit (n mod 16)) EmptyString))
  else String c EmptyString.

Fixpoint escape (s : string) : string :=
  match s with
  | EmptyString => EmptyString
  | String c s' => escape_char c ++ escape s'
  end.

Definition quote (s : string) : string :=
  String dquote (escape s ++ String dquote EmptyString).

(** [", ".join(parts)] *)
Fixpoint join (parts : list string) : string :=
  match parts with
  | [] => ""
  | [x] => x
  | x :: rest => x ++ ", " ++ join rest
  end.

(** [None] stands for the [TypeError] of an object that is not JSON
    serializable. *)
Fixpoint dumps (v : value) : option string :=
  match v with
  | VNone => Some "null"
  | VBool b => Some (if b then "true" else "false")
  | VInt n => Some (pretty n)
  | VStr s => Some (quote s)
  | VList l =>
      let fix items (l : list value) : option (list string) :=
        match l with
        | [] => Some []
        | x :: l' =>
            match dumps x, items l' with
            | Some a, Some b => Some (a :: b)
            | _, _ => None
            end
        end in
      match items l with
      | Some parts => Some ("[" ++ join parts ++ "]")
      | None => None
      end
  | VDict d =>
      let fix members (d : dict) : option (list string) :=
        match d with
        | [] => Some []
        | (k, x) :: d' =>
            match dumps x, members d' with
            | Some a, Some b => Some ((quote k ++ ": " ++ a) :: b)
            | _, _ => None
            end
        end in
      match members d with
      | Some parts => Some ("{" ++ join parts ++ "}")
      | None => None
      end
  | VOther _ j => j
  end.

End Json.

(** ** Raw text of a record *)

(** One [for] loop of [_record_to_plain_text]: the first value that is a
    [str] with a non-empty [strip()], stripped. *)
Fixpoint first_text (vals : list value) : option string :=
  match vals with
  | [] => None
  | VStr s :: rest =>
      if truthy (VStr (PyStr.strip s)) then Some (PyStr.strip s)
      else first_text rest
  | _ :: rest => first_text rest
  end.

Definition candidates (record : dict) : list value :=
  [ dict_get "transcription" record;
    dict_get "description" record;
    dict_get "text" record;
    dict_get "summary" record ].

Definition _record_to_plain_text (record : dict) : string :=
  match first_text (candidates record) with
  | Some s => s
  | None =>
      match first_text (dict_values record) with
      | Some s => s
      | None =>
          match Json.dumps (VDict record) with
          | Some s => s
          | None => ""
          end
      end
  end.

(** ** [datetime] *)

Module PyDatetime.

(** An aware [datetime] carries its UTC offset in seconds. *)
Record datetime : Type := mk_datetime {
  year : Z; month : Z; day : Z;
  hour : Z; minute : Z; second : Z; microsecond : Z;
  tzinfo : option Z
}.

Definition is_leap (y : Z) : bool :=
  (y mod 4 =? 0) && (negb (y mod 100 =? 0) || (y mod 400 =? 0)).

Definition days_in_month (y m : Z) : Z :=
  if m =? 2 then (if is_leap y then 29 else 28)
  else if (m =? 4) || (m =? 6) || (m =? 9) || (m =? 11) then 30
  else 31.

(** Days since 1970-01-01 of a proleptic Gregorian date, and back. *)
Definition days_from_civil (y m d : Z) : Z :=
  let y' := if m <=? 2 then y - 1 else y in
  let era := y' / 400 in
  let yoe := y' - era * 400 in
  let mp := (m + 9) mod 12 in
  let doy := (153 * mp + 2) / 5 + d - 1 in
  let doe := yoe * 365 + yoe / 4 - yoe / 100 + doy in
  era * 146097 + doe - 719468.

Definition civil_from_days (z : Z) : Z * Z * Z :=
  let z := z + 719468 in
  let era := z / 146097 in
  let doe := z - era * 146097 in
  let yoe := (doe - doe / 1460 + doe / 36524 - doe / 146096) / 365 in
  let y := yoe + era * 400 in
  let doy := doe - (365 * yoe + yoe / 4 - yoe / 100) in
  let mp := (5 * doy + 2) / 153 in
  let d := doy - (153 * mp + 2) / 5 + 1 in
  let m := if mp <? 10 then mp + 3 else mp - 9 in
  (if m <=? 2 then y + 1 else y, m, d).

(** [dt.astimezone(timezone.utc)] for an aware [dt]: the offset is
    subtracted; a result outside the years 1..9999 is an [OverflowError]. *)
Definition astimezone_utc (dt : datetime) : res datetime :=
  let off := match tzinfo dt with Some o => o | None => 0 end in
  let secs :=
    days_from_civil (year dt) (month dt) (day dt) * 86400
    + hour dt * 3600 + minute dt * 60 + second dt - off in
  let '(y, m, d) := civil_from_days (secs / 86400) in
  let r := secs mod 86400 in
  if (y <? 1) || (9999 <? y) then Raise OverflowError
  else Return (mk_datetime y m d (r / 3600) (r mod 3600 / 60) (r mod 60)
                 (microsecond dt) (Some 0)).

(** Decimal rendering on at least [width] digits *)
Definition zero_pad (width : nat) (n : Z) : string :=
  let s := pretty n in
  String.concat "" (repeat "0" (width - String.length s)) ++ s.

Definition format_offset (off : Z) : string :=
  let a := Z.abs off in
  (if off <? 0 then "-" else "+")
  ++ zero_pad 2 (a / 3600) ++ ":" ++ zero_pad 2 (a mod 3600 / 60)
  ++ (if a mod 60 =? 0 then "" else ":" ++ zero_pad 2 (a mod 60)).

(** [dt.isoformat()] *)
Definition isoformat (dt : datetime) : string :=
  zero_pad 4 (year dt) ++ "-" ++ zero_pad 2 (month dt) ++ "-"
  ++ zero_pad 2 (day dt) ++ "T" ++ zero_pad 2 (hour dt) ++ ":"
  ++ zero_pad 2 (minute dt) ++ ":" ++ zero_pad 2 (second dt)
  ++ (if microsecond dt =? 0 then "" else "." ++ zero_pad 6 (microsecond dt))
  ++ match tzinfo dt with Some o => format_offset o | None => "" end.

(** *** A reference parser

    [datetime.fromisoformat] belongs to the interpreter, not to this
    repository.  [fromisoformat] below reads the strings of the extended
    ISO-8601 profile
    [YYYY-MM-DD[*HH[:MM[:SS[.fff...]]][Z|+HH:MM[:SS]|-HH:MM[:SS]]]]
    with the meaning CPython 3.11 and later give them (the [Z] suffix
    included; earlier versions reject it).  Strings outside the profile,
    some of which CPython reads as well, are rejected here.  The parser is
    used for concrete runs only; what is proved for every string is proved
    for every parser. *)

Definition digit (c : ascii) : option Z :=
  let n := N_of_ascii c in
  if ((48 <=? n) && (n <=? 57))%N then Some (Z.of_N n - 48) else None.

(** Exactly [k] leading digits of [s], as a number, and the rest *)
Fixpoint number (k : nat) (acc : Z) (s : string) : option (Z * string) :=
  match k with
  | O => Some (acc, s)
  | S k' =>
      match s with
      | String c s' =>
          match digit c with
          | Some d => number k' (acc * 10 + d) s'
          | None => None
          end
      | EmptyString => None
      end
  end.

Definition expect (c : ascii) (s : string) : option string :=
  match s with
  | String c' s' => if Ascii.eqb c c' then Some s' else None
  | EmptyString => None
  end.

(** The fraction of a second: the first six digits count, and what
    follows them must be digits too. *)
Fixpoint fraction (k : nat) (acc : Z) (s : string) : option (Z * string) :=
  match s with
  | String c s' =>
      match digit c with
      | Some d =>
          match k with
          | O => fraction O acc s'
          | S k' => fraction k' (acc * 10 + d) s'
          end
      | None => Some (acc * 10 ^ Z.of_nat k, s)
      end
  | EmptyString => Some (acc * 10 ^ Z.of_nat k, s)
  end.

(** [HH[:MM[:SS]]] with its bounds; stops at the first character that
    cannot continue it. *)
Definition clock (s : string) : option (Z * Z * Z * string) :=
  match number 2 0 s with
  | None => None
  | Some (h, s1) =>
      if 23 <? h then None else
      match expect ":" s1 with
      | None => Some (h, 0, 0, s1)
      | Some s2 =>
          match number 2 0 s2 with
          | None => None
          | Some (mi, s3) =>
              if 59 <? mi then None else
              match expect ":" s3 with
              | None => Some (h, mi, 0, s3)
              | Some s4 =>
                  match number 2 0 s4 with
                  | None => None
                  | Some (sec, s5) =>
                      if 59 <? sec then None else Some (h, mi, sec, s5)
                  end
              end
          end
      end
  end.

Definition zone (s : string) : option (option Z) :=
  if String.eqb s "Z" then Some (Some 0) else
  match s with
  | EmptyString => Some None
  | String c s' =>
      let sign :=
        if Ascii.eqb c "+" then Some 1
        else if Ascii.eqb c "-" then Some (-1) else None in
      match sign, clock s' with
      | Some sg, Some (h, mi, sec, EmptyString) =>
          if (String.length s' <? 5)%nat then None
          else Some (Some (sg * (h * 3600 + mi * 60 + sec)))
      | _, _ => None
      end
  end.

Definition parse (s : string) : option datetime :=
  match number 4 0 s with
  | None => None
  | Some (y, s1) =>
  match expect "-" s1 with None => None | Some s2 =>
  match number 2 0 s2 with None => None | Some (m, s3) =>
  match expect "-" s3 with None => None | Some s4 =>
  match number 2 0 s4 with None => None | Some (d, s5) =>
    if (y <? 1) || (m <? 1) || (12 <? m) || (d <? 1) || (days_in_month y m <? d)
    then None else
    match s5 with
    | EmptyString => Some (mk_datetime y m d 0 0 0 0 None)
    | String _ t =>
        match clock t with
        | None => None
        | Some (h, mi, sec, t1) =>
            let frac :=
              match t1 with
              | String c t2 =>
                  if Ascii.eqb c "." || Ascii.eqb c "," then
                    match t2 with
                    | EmptyString => None
                    | String c2 _ =>
                        match digit c2 with
                        | Some _ => fraction 6 0 t2
                        | None => None
                        end
                    end
                  else Some (0, t1)
              | EmptyString => Some (0, t1)
              end in
            match frac with
            | None => None
            | Some (us, t3) =>
                match zone t3 with
                | None => None
                | Some tz => Some (mk_datetime y m d h mi sec us tz)
                end
            end
        end
    end
  end end end end
  end.

Definition fromisoformat (s : string) : res datetime :=
  match parse s with Some dt => Return dt | None => Raise ValueError end.

End PyDatetime.

(** ** Generators and files *)

(** A generator run to its end: the items it yields, then [StopIteration]
    or an exception.  The consumer sees the end only when it asks for the
    item after the last one. *)
Inductive gen (A : Type) : Type :=
| GStop
| GYield (a : A) (rest : gen A)
| GRaise (e : exn).
Arguments GStop {A}.
Arguments GYield {A} a rest.
Arguments GRaise {A} e.

Fixpoint gen_items {A} (g : gen A) : list A :=
  match g with
  | GYield a rest => a :: gen_items rest
  | _ => []
  end.

Fixpoint gen_completes {A} (g : gen A) : bool :=
  match g with
  | GStop => true
  | GYield _ rest => gen_completes rest
  | GRaise _ => false
  end.

(** A [Path] together with what [json.loads(path.read_text())] gives for
    it: the document, or the exception of the read or of the parse. *)
Record Path : Type := {
  name : string;
  stem : string;
  document : res value
}.

Abbreviation item := (dict * dict)%type.

(** [v.get(...)] is there for a [dict] only. *)
Definition as_dict (v : value) : res dict :=
  match v with VDict d => Return d | _ => Raise AttributeError end.

(** [for idx, x in enumerate(v)] over a JSON value, with [body] building
    the pair yielded for [x]: a list is walked; an empty [dict] or [str]
    ends at once, a non-empty one hands a [str] to [x.get]; the other
    values are not iterable. *)
Fixpoint enumerate_items (body : nat -> dict -> res item) (idx : nat)
    (xs : list value) : gen item :=
  match xs with
  | [] => GStop
  | x :: rest =>
      match res_bind (as_dict x) (body idx) with
      | Return it => GYield it (enumerate_items body (S idx) rest)
      | Raise e => GRaise e
      end
  end.

Definition for_each (body : nat -> dict -> res item) (v : value) : gen item :=
  match v with
  | VList xs => enumerate_items body 0 xs
  | VDict [] => GStop
  | VStr EmptyString => GStop
  | VDict _ | VStr _ => GRaise AttributeError
  | _ => GRaise TypeError
  end.

(** ** Connectors *)

Section Connectors.

Variable fromisoformat : string -> res PyDatetime.datetime.

(** [_to_utc].  The [try] body either returns from the function
    ([Some]) or falls through to the last line ([None]). *)
Definition _to_utc (dt_str : value) : res value :=
  let body : res (option value) :=
    (let* dt := match dt_str with
                | VStr s => fromisoformat s
                | _ => Raise TypeError
                end in
     match PyDatetime.tzinfo dt with
     | Some _ =>
         let* utc := PyDatetime.astimezone_utc dt in
         Return (Some (VStr (PyDatetime.isoformat utc)))
     | None => Return None
     end)%res in
  (let* returned := try_except body (Return (Some dt_str)) in
   match returned with
   | Some v => Return v
   | None => Return dt_str
   end)%res.

Definition calendar_item (path : Path) (idx : nat) (ev : dict) : res item :=
  (let* start := as_dict (dict_get_or "start" (VDict []) ev) in
   let* end_ := as_dict (dict_get_or "end" (VDict []) ev) in
   let start_dt := py_or (dict_get "dateTime" start) (dict_get "date" start) in
   let end_dt := py_or (dict_get "dateTime" end_) (dict_get "date" end_) in
   let* start_utc := if truthy start_dt then _to_utc start_dt else Return VNone in
   let* end_utc := if truthy end_dt then _to_utc end_dt else Return VNone in
   let record : dict :=
     [ ("summary", dict_get "summary" ev);
       ("description", dict_get "description" ev);
       ("location", dict_get "location" ev);
       ("start_utc", start_utc);
       ("end_utc", end_utc);
       ("attendees", dict_get "attendees" ev);
       ("organizer", dict_get "organizer" ev);
       ("calendar_name", dict_get "calendar_name" ev) ] in
   let metadata : dict :=
     [ ("user_id", VStr (stem path));
       ("source", VStr (name path));
       ("record_id", dict_get_or "event_id" (VStr ("event-" ++ pretty idx)) ev);
       ("timestamp", py_or (dict_get "start_utc" record) (dict_get "end_utc" record));
       ("start_utc", dict_get "start_utc" record);
       ("end_utc", dict_get "end_utc" record) ] in
   Return (record, metadata))%res.

Definition load_calendar_file (path : Path) : gen item :=
  match res_bind (document path) as_dict with
  | Raise e => GRaise e
  | Return data =>
      for_each (calendar_item path) (dict_get_or "events" (VList []) data)
  end.

Definition vision_item (path : Path) (idx : nat) (ex : dict) : res item :=
  (let* content := as_dict (dict_get_or "content" (VDict []) ex) in
   let record : dict :=
     [ ("description", dict_get "description" content);
       ("text", dict_get "text" content);
       ("filename", dict_get "filename" ex);
       ("date", dict_get "date" ex) ] in
   let metadata : dict :=
     [ ("user_id", VStr (stem path));
       ("source", VStr (name path));
       ("record_id", dict_get_or "filename" (VStr ("vision-" ++ pretty idx)) ex);
       ("timestamp", dict_get "date" ex) ] in
   Return (record, metadata))%res.

Definition load_vision_file (path : Path) : gen item :=
  match res_bind (document path) as_dict with
  | Raise e => GRaise e
  | Return data =>
      for_each (vision_item path) (dict_get_or "extractions" (VList []) data)
  end.

Definition audio_item (path : Path) (idx : nat) (ex : dict) : res item :=
  (let* content := as_dict (dict_get_or "content" (VDict []) ex) in
   let record : dict :=
     [ ("transcription", dict_get "transcription" content);
       ("filename", dict_get "filename" ex);
       ("date", dict_get "date" ex) ] in
   let metadata : dict :=
     [ ("user_id", VStr (stem path));
       ("source", VStr (name path));
       ("record_id", dict_get_or "filename" (VStr ("audio-" ++ pretty idx)) ex);
       ("timestamp", dict_get "date" ex) ] in
   Return (record, metadata))%res.

Definition load_audio_file (path : Path) : gen item :=
  match res_bind (document path) as_dict with
  | Raise e => GRaise e
  | Return data =>
      for_each (audio_item path) (dict_get_or "extractions" (VList []) data)
  end.

End Connectors.

Definition dentist_event : value :=
  VDict [ ("summary", VStr "Dentist");
          ("start", VDict [("dateTime", VStr "2025-03-01T09:00:00Z")]);
          ("end", VDict [("dateTime", VStr "2025-03-01T10:00:00Z")]) ].

(** The calendar file that holds this one event *)
Definition dentist_path (fname fstem : string) : Path :=
  {| name := fname; stem := fstem;
     document := Return (VDict [("events", VList [dentist_event])]) |}.

Definition dentist_file : Path := dentist_path "alice.json" "alice".

Definition dentist_record : dict :=
  [ ("summary", VStr "Dentist"); ("description", VNone); ("location", VNone);
    ("start_utc", VStr "2025-03-01T09:00:00+00:00");
    ("end_utc", VStr "2025-03-01T10:00:00+00:00");
    ("attendees", VNone); ("organizer", VNone); ("calendar_name", VNone) ].

Definition dentist_metadata (fname fstem : string) : dict :=
  [ ("user_id", VStr fstem); ("source", VStr fname);
    ("record_id", VStr "event-0");
    ("timestamp", VStr "2025-03-01T09:00:00+00:00");
    ("start_utc", VStr "2025-03-01T09:00:00+00:00");
    ("end_utc", VStr "2025-03-01T10:00:00+00:00") ].

(** ** The pipeline *)

Record IngestConfig : Type := {
  model : string;
  timeout : Z;
  dry_run : bool;
  limit : option Z;
  user_id : string;
  verbose : bool;
  enrich : bool
}.

Definition default_config : IngestConfig :=
  {| model := "grok-4-1-fast-reasoning"; timeout := 60; dry_run := false;
     limit := None; user_id := "demo_user"; verbose := false; enrich := true |}.

(** [_iter_limited]: the next item is pulled before its index is compared
    with the limit. *)
Fixpoint iter_limited_from {A} (idx : nat) (items : gen A) (limit : Z) : gen A :=
  match items with
  | GStop => GStop
  | GRaise e => GRaise e
  | GYield it rest =>
      if Z.of_nat idx >=? limit then GStop
      else GYield it (iter_limited_from (S idx) rest limit)
  end.

Definition _iter_limited {A} (items : gen A) (limit : option Z) : gen A :=
  match limit with
  | None => items
  | Some n => iter_limited_from 0 items n
  end.

(** What a run does that can be seen from outside, oldest first.  The
    service calls carry their arguments and their outcome.  [EvCounted] is
    not a call: it records the text of a record that was not skipped and its
    metadata object as the loop leaves it once [occurrence_count] is set. *)
Inductive event : Type :=
| EvClient (timeout : Z) (outcome : res unit)
| EvGetMemories (user_id : value) (outcome : res (list dict))
| EvChat (model system user : string) (outcome : res (option string))
| EvCounted (text : string) (metadata : dict)
| EvDryRun (connector : string) (source : value) (text : string)
| EvAddMemory (user_id : value) (text : string) (metadata : dict)
    (infer : bool) (outcome : res unit).

(** The collaborators.  Each call answers from the current world and
    leaves a new one. *)
Record Services (World : Type) : Type := {
  new_client : Z -> World -> res unit * World;
  get_memories : value -> World -> res (list dict) * World;
  chat_sample : string -> string -> string -> World -> res (option string) * World;
  add_memory : value -> string -> dict -> bool -> World -> res unit * World
}.
Arguments new_client {World}.
Arguments get_memories {World}.
Arguments chat_sample {World}.
Arguments add_memory {World}.

Definition sys_prompt : string :=
  "You are a life co-pilot that extracts a single, user-relevant fact for memory. "
  ++ "Output ONE short factual sentence using only the provided fields. Prioritize user preferences, requests, "
  ++ "important statements, relationships, career/school, travel/plans, or commitments. Keep it concise and actionable. "
  ++ "Do not add or infer anything not present. If nothing clearly useful to the user is present, return an empty string. "
  ++ "No lists or tables. If reference memories are provided, use them only when they explicitly support the fact; otherwise ignore them.".

(** The locals of [ingest_file] that live across iterations *)
Record locals : Type := {
  processed : Z;
  stored : Z;
  occurrence_counts : gmap string Z;
  memories_cache : option (list dict)
}.

Definition initial_locals : locals :=
  {| processed := 0; stored := 0; occurrence_counts := ∅; memories_cache := None |}.

(** The user turn of the enrichment request, before [json.dumps] *)
Definition enrich_payload (context_note : string) (record : dict)
    (prior_mems : list value) : value :=
  VDict [ ("note", VStr context_note);
          ("record", VDict record);
          ("reference_memories", VList prior_mems) ].

Definition context_note (connector : string) : string :=
  if String.eqb connector "calendar"
  then "Connector: calendar. Include start_utc and end_utc if present, keep it to one short factual sentence."
  else "Connector: " ++ connector ++ ". Keep it factual and concise.".

Section Pipeline.

Context {World : Type}.
Variable svc : Services World.
Variable fromisoformat : string -> res PyDatetime.datetime.

(** A computation logs events, moves the world and returns or raises. *)
Definition M (A : Type) : Type := World -> list event * World * res A.

Definition ret {A} (a : A) : M A := fun w => ([], w, Return a).

Definition bind {A B} (m : M A) (f : A -> M B) : M B :=
  fun w =>
    match m w with
    | (t1, w1, Return a) =>
        match f a w1 with (t2, w2, r) => ((t1 ++ t2)%list, w2, r) end
    | (t1, w1, Raise e) => (t1, w1, Raise e)
    end.

Definition lift {A} (r : res A) : M A := fun w => ([], w, r).

Definition emit (e : event) : M unit := fun w => ([e], w, Return tt).

(** [try: body  except Exception: handler] *)
Definition try_exceptM {A} (body handler : M A) : M A :=
  fun w =>
    match body w with
    | (t1, w1, Return a) => (t1, w1, Return a)
    | (t1, w1, Raise _) =>
        match handler w1 with (t2, w2, r) => ((t1 ++ t2)%list, w2, r) end
    end.

Notation "'let!' x ':=' m 'in' k" := (bind m (fun x => k))
  (at level 10, x name, m at level 100, k at level 200).

Definition call_new_client (t : Z) : M unit :=
  fun w => let '(r, w') := new_client svc t w in ([EvClient t r], w', r).

Definition call_get_memories (uid : value) : M (list dict) :=
  fun w => let '(r, w') := get_memories svc uid w in ([EvGetMemories uid r], w', r).

Definition call_chat (mdl sys usr : string) : M (option string) :=
  fun w => let '(r, w') := chat_sample svc mdl sys usr w in ([EvChat mdl sys usr r], w', r).

Definition call_add_memory (uid : value) (text : string) (md : dict)
    (infer : bool) : M unit :=
  fun w =>
    let '(r, w') := add_memory svc uid text md infer w in
    ([EvAddMemory uid text md infer r], w', r).

(** [d[key]] *)
Definition subscript (key : string) (d : dict) : res value :=
  match dict_lookup key d with Some v => Return v | None => Raise KeyError end.

(** [grok_enrich]: the user turn is the JSON of the note, the record and
    the reference memories; the answer is [(resp.content or "").strip()]. *)
Definition grok_enrich (mdl : string) (record : dict) (context_note : string)
    (prior_mems : list value) : M string :=
  let payload := enrich_payload context_note record prior_mems in
  let! usr := lift (match Json.dumps payload with
                    | Some j => Return j
                    | None => Raise TypeError
                    end) in
  let! content := call_chat mdl sys_prompt usr in
  ret (PyStr.strip (match content with Some c => c | None => "" end)).

(** One iteration of the [for] loop of [ingest_file].  A [continue] is a
    return of the locals as they stand. *)
Definition ingest_record (connector : string) (cfg : IngestConfig)
    (it : item) (st : locals) : M locals :=
  let '(record, metadata) := it in
  let processed' := processed st + 1 in
  let uid :=
    py_or (py_or (VStr (user_id cfg)) (dict_get "user_id" metadata))
      (VStr "demo_user") in
  let metadata := dict_set "user_id" uid metadata in
  let! cache :=
    match memories_cache st with
    | None => try_exceptM (call_get_memories uid) (ret [])
    | Some cached => ret cached
    end in
  let prior_mems := _select_context_mems record cache default_max_items in
  let! text :=
    if enrich cfg
    then grok_enrich (model cfg) record (context_note connector) prior_mems
    else ret (_record_to_plain_text record) in
  if negb (truthy (VStr text)) then
    ret {| processed := processed'; stored := stored st;
           occurrence_counts := occurrence_counts st;
           memories_cache := Some cache |}
  else
    let count := default 0 (occurrence_counts st !! text) + 1 in
    let counts := <[text := count]> (occurrence_counts st) in
    let metadata := dict_set "occurrence_count" (VInt count) metadata in
    let! _ := emit (EvCounted text metadata) in
    if dry_run cfg then
      let! source := lift (subscript "source" metadata) in
      let! _ := emit (EvDryRun connector source text) in
      ret {| processed := processed'; stored := stored st;
             occurrence_counts := counts; memories_cache := Some cache |}
    else
      let! source := lift (subscript "source" metadata) in
      let! _ :=
        call_add_memory uid text
          [ ("connector", VStr connector);
            ("source", source);
            ("record_id", dict_get "record_id" metadata);
            ("timestamp", dict_get "timestamp" metadata) ]
          false in
      ret {| processed := processed'; stored := stored st + 1;
             occurrence_counts := counts; memories_cache := Some cache |}.

Fixpoint ingest_loop (connector : string) (cfg : IngestConfig)
    (items : gen item) (st : locals) : M locals :=
  match items with
  | GStop => ret st
  | GRaise e => lift (Raise e)
  | GYield it rest =>
      let! st' := ingest_record connector cfg it st in
      ingest_loop connector cfg rest st'
  end.

(** The table of loaders, indexed by the connector name *)
Definition loader_for (connector : string) : res (Path -> gen item) :=
  if String.eqb connector "calendar" then Return (load_calendar_file fromisoformat)
  else if String.eqb connector "vision" then Return load_vision_file
  else if String.eqb connector "audio" then Return load_audio_file
  else Raise KeyError.

Definition ingest_file (connector : string) (path : Path)
    (cfg : IngestConfig) : M (Z * Z) :=
  let! loader := lift (loader_for connector) in
  let! _ := call_new_client (timeout cfg) in
  let! st :=
    ingest_loop connector cfg (_iter_limited (loader path) (limit cfg))
      initial_locals in
  ret (processed st, stored st).

Fixpoint ingest_paths_from (connector : string) (paths : list Path)
    (cfg : IngestConfig) (total_processed total_stored : Z) : M (Z * Z) :=
  match paths with
  | [] => ret (total_processed, total_stored)
  | p :: rest =>
      let! r := ingest_file connector p cfg in
      ingest_paths_from connector rest cfg
        (total_processed + fst r) (total_stored + snd r)
  end.

Definition ingest_paths (connector : string) (paths : list Path)
    (cfg : IngestConfig) : M (Z * Z) :=
  ingest_paths_from connector paths cfg 0 0.

End Pipeline.

Definition quiet_services : Services unit :=
  {| new_client := fun _ w => (Return tt, w);
     get_memories := fun _ w => (Raise ServiceError, w);
     chat_sample := fun _ _ _ w => (Return (Some " Dentist visit on 1 March. "), w);
     add_memory := fun _ _ _ _ w => (Return tt, w) |}.

(** ** Sample data *)

Definition plain_config : IngestConfig :=
  {| model := "grok-4-1-fast-reasoning"; timeout := 60; dry_run := false;
     limit := None; user_id := "demo_user"; verbose := false; enrich := false |}.

Definition with_limit (n : Z) (cfg : IngestConfig) : IngestConfig :=
  {| model := model cfg; timeout := timeout cfg; dry_run := dry_run cfg;
     limit := Some n; user_id := user_id cfg; verbose := verbose cfg;
     enrich := enrich cfg |}.

Definition with_dry_run (cfg : IngestConfig) : IngestConfig :=
  {| model := model cfg; timeout := timeout cfg; dry_run := true;
     limit := limit cfg; user_id := user_id cfg; verbose := verbose cfg;
     enrich := enrich cfg |}.

Definition with_enrich (cfg : IngestConfig) : IngestConfig :=
  {| model := model cfg; timeout := timeout cfg; dry_run := dry_run cfg;
     limit := limit cfg; user_id := user_id cfg; verbose := verbose cfg;
     enrich := true |}.

Definition event_named (title : string) : value :=
  VDict [("summary", VStr title)].

(** A calendar file of five events, two titles of which repeat *)
Definition week_file : Path :=
  {| name := "week.json"; stem := "week";
     document :=
       Return (VDict [("events",
         VList (map event_named ["Dentist"; "Gym"; "Dentist"; "Lunch"; "Gym"]))]) |}.

(** ** Vocabulary of the statements *)

(** Reading a trace *)
Definition is_store (e : event) : bool :=
  match e with EvAddMemory _ _ _ _ _ => true | _ => false end.

Definition is_stored (e : event) : bool :=
  match e with EvAddMemory _ _ _ _ (Return _) => true | _ => false end.

Definition is_fetch (e : event) : bool :=
  match e with EvGetMemories _ _ => true | _ => false end.

(** The texts of the records that were not skipped, with their metadata
    objects, in order *)
Fixpoint counted (t : list event) : list (string * dict) :=
  match t with
  | [] => []
  | EvCounted text md :: t' => (text, md) :: counted t'
  | _ :: t' => counted t'
  end.

(** The keys of the metadata that a store call passes *)
Definition stored_keys : list string :=
  ["connector"; "source"; "record_id"; "timestamp"].

Definition store_passes_four_fields (e : event) : Prop :=
  match e with
  | EvAddMemory _ _ md _ _ => map fst md = stored_keys
  | _ => True
  end.

(** Every enrichment request of the trace is the request for some record
    of [records], with the reference memories selected from [mems]. *)
Definition chat_uses (connector : string) (records : list dict)
    (mems : list dict) (e : event) : Prop :=
  match e with
  | EvChat _ _ usr _ =>
      exists record,
        In record records
        /\ Json.dumps
             (enrich_payload (context_note connector) record
                (_select_context_mems record mems default_max_items))
           = Some usr
  | _ => True
  end.

(** The services that answer the empty list where the memory service
    raises, and the trace rewritten accordingly *)
Definition swallowing {World : Type} (svc : Services World) : Services World :=
  {| new_client := new_client svc;
     get_memories := fun uid w =>
       match get_memories svc uid w with
       | (Raise _, w') => (Return [], w')
       | answer => answer
       end;
     chat_sample := chat_sample svc;
     add_memory := add_memory svc |}.

Definition swallowed (e : event) : event :=
  match e with
  | EvGetMemories uid (Raise _) => EvGetMemories uid (Return [])
  | _ => e
  end.

(** [m'] does what [m] does, with the failed fetches of [m] answered by
    the empty list. *)
Definition answers_empty {World A : Type}
    (m m' : World -> list event * World * res A) : Prop :=
  forall w, m' w = let '(t, w', r) := m w in (map swallowed t, w', r).

(** The occurrence counter agrees with the texts seen so far. *)
Definition counts_agree (counts : gmap string Z) (seen : list string) : Prop :=
  forall text, default 0 (counts !! text) = Z.of_nat (count_occ string_dec seen text).

Fixpoint counted_from (seen : list string) (cs : list (string * dict)) : Prop :=
  match cs with
  | [] => True
  | (text, md) :: cs' =>
      dict_lookup "occurrence_count" md
      = Some (VInt (Z.of_nat (count_occ string_dec seen text) + 1))
      /\ counted_from (seen ++ [text])%list cs'
  end.

(** The returned pairs of the files of an [ingest_paths] run, one file
    after the other from the world the previous one left, up to the first
    file that raises. *)
Fixpoint per_file {World : Type} (svc : Services World)
    (fromisoformat : string -> res PyDatetime.datetime) (connector : string)
    (paths : list Path) (cfg : IngestConfig) (w : World) : list (Z * Z) :=
  match paths with
  | [] => []
  | p :: rest =>
      match ingest_file svc fromisoformat connector p cfg w with
      | (_, w1, Return r) => r :: per_file svc fromisoformat connector rest cfg w1
      | (_, _, Raise _) => []
      end
  end.

Definition sum_Z (l : list Z) : Z := fold_right Z.add 0 l.

Definition desc {A : Type} : list (nat * A) -> Prop :=
  StronglySorted (fun a b => (fst b <= fst a)%nat).

(** The raw-text extraction as the specification words it: the first value
    that is a non-empty [str], returned as it stands. *)
Fixpoint first_nonempty_str (vals : list value) : option string :=
  match vals with
  | [] => None
  | VStr s :: rest =>
      if truthy (VStr s) then Some s else first_nonempty_str rest
  | _ :: rest => first_nonempty_str rest
  end.

Definition record_to_plain_text_as_worded (record : dict) : string :=
  match first_nonempty_str (candidates record) with
  | Some s => s
  | None =>
      match first_nonempty_str (dict_values record) with
      | Some s => s
      | None =>
          match Json.dumps (VDict record) with
          | Some s => s
          | None => ""
          end
      end
  end.

Definition padded_record : dict :=
  [("transcription", VStr "  "); ("text", VStr " buy milk ")].

(** A value gives the text [t]: it is a [str] whose [strip()] is [t], and
    [t] is not empty. *)
Definition gives_text (v : value) (t : string) : Prop :=
  exists s, v = VStr s /\ PyStr.strip s = t /\ t <> "".

(** A value gives no text: it is not a [str], or only whitespace. *)
Definition gives_nothing (v : value) : Prop :=
  forall s, v = VStr s -> PyStr.strip s = "".

(** [v] is the first of [vals] that gives a text, and the text is [t]. *)
Definition first_giving (vals : list value) (t : string) : Prop :=
  exists (i : nat) (v : value),
    vals !! i = Some v /\ gives_text v t
    /\ forall (j : nat) (u : value), (j < i)%nat -> vals !! j = Some u -> gives_nothing u.

(** ** Sample runs

    All of them against [quiet_services]: the client is built, the memory
    service raises on the fetch, the chat answers one padded sentence, the
    store accepts. *)

Definition sample_run (path : Path) (cfg : IngestConfig)
  : list event * unit * res (Z * Z) :=
  ingest_file quiet_services PyDatetime.fromisoformat "calendar" path cfg tt.

Definition week_trace : list event :=
  Eval vm_compute in fst (fst (sample_run week_file plain_config)).

Definition week_third_metadata : dict :=
  Eval vm_compute in
    match counted week_trace !! 2%nat with
    | Some (_, md) => md
    | None => []
    end.

Definition week_dry_trace : list event :=
  Eval vm_compute in fst (fst (sample_run week_file (with_dry_run plain_config))).

Definition week_enriched_trace : list event :=
  Eval vm_compute in fst (fst (sample_run week_file (with_enrich plain_config))).

Definition week_limited_trace : list event :=
  Eval vm_compute in fst (fst (sample_run week_file (with_limit 2 plain_config))).

Definition dentist_trace : list event :=
  Eval vm_compute in fst (fst (sample_run dentist_file (with_limit 1 plain_config))).

(** ** More vocabulary: the loaders *)

(** The key of the array a connector reads, and the keys under which an
    element of the array holds the nested mappings the loader looks into *)
Definition array_key (connector : string) : string :=
  if String.eqb connector "calendar" then "events" else "extractions".

Definition nested_keys (connector : string) : list string :=
  if String.eqb connector "calendar" then ["start"; "end"] else ["content"].

(** An element a loader can turn into an item: a mapping whose nested
    mappings, where present, are mappings. *)
Definition element_ok (connector : string) (x : value) : bool :=
  match x with
  | VDict ex =>
      forallb (fun key =>
                 match dict_get_or key (VDict []) ex with
                 | VDict _ => true
                 | _ => false
                 end)
        (nested_keys connector)
  | _ => false
  end.

(** The metadata every loader stamps on an item *)
Definition stamped (path : Path) (it : item) : Prop :=
  dict_lookup "user_id" (snd it) = Some (VStr (stem path))
  /\ dict_lookup "source" (snd it) = Some (VStr (name path))
  /\ is_Some (dict_lookup "record_id" (snd it))
  /\ is_Some (dict_lookup "timestamp" (snd it)).

Definition photo (fname : string) : value :=
  VDict [ ("content", VDict [("description", VStr "A red bike"); ("text", VNone)]);
          ("filename", VStr fname); ("date", VStr "2025-03-01") ].

(** A vision file of two good extractions, one that is not a mapping, and
    a fourth that is never reached *)
Definition album_file : Path :=
  {| name := "album.json"; stem := "album";
     document :=
       Return (VDict [("extractions",
         VList [photo "a.jpg"; photo "b.jpg"; VStr "oops"; photo "d.jpg"])]) |}.

Definition empty_file : Path :=
  {| name := "none.json"; stem := "none"; document := Return (VDict []) |}.

(** A calendar file whose second event has a text where its start
    mapping should be *)
Definition broken_week_file : Path :=
  {| name := "broken.json"; stem := "broken";
     document :=
       Return (VDict [("events",
         VList [ event_named "Dentist";
                 VDict [("summary", VStr "Gym"); ("start", VStr "monday")];
                 event_named "Lunch" ])]) |}.

(** A generator of two items that then raises *)
Definition two_then_raise : gen nat := GYield 1%nat (GYield 2%nat (GRaise ValueError)).

Definition unreadable_file : Path :=
  {| name := "bad.json"; stem := "bad"; document := Raise ValueError |}.

Definition no_client_services : Services unit :=
  {| new_client := fun _ w => (Raise ServiceError, w);
     get_memories := fun _ w => (Return [], w);
     chat_sample := fun _ _ _ w => (Return None, w);
     add_memory := fun _ _ _ _ w => (Return tt, w) |}.

(** ** More vocabulary: what a trace shows *)

(** The arguments of the store calls, in order *)
Definition store_call (e : event) : option (value * string * dict * bool) :=
  match e with
  | EvAddMemory uid text md infer _ => Some (uid, text, md, infer)
  | _ => None
  end.

Definition store_calls (t : list event) : list (value * string * dict * bool) :=
  omap store_call t.

(** The dry-run lines: connector, source, text *)
Definition report (e : event) : option (string * value * string) :=
  match e with
  | EvDryRun connector source text => Some (connector, source, text)
  | _ => None
  end.

Definition reports (t : list event) : list (string * value * string) :=
  omap report t.

(** The enrichment requests with their outcome: model, system turn, user
    turn, answer *)
Definition chat (e : event) : option (string * string * string * res (option string)) :=
  match e with
  | EvChat mdl sys usr outcome => Some (mdl, sys, usr, outcome)
  | _ => None
  end.

Definition chats (t : list event)
  : list (string * string * string * res (option string)) :=
  omap chat t.

(** The list the first fetch of the trace left in [memories_cache] *)
Fixpoint fetched_memories (t : list event) : list dict :=
  match t with
  | [] => []
  | EvGetMemories _ (Return l) :: _ => l
  | EvGetMemories _ (Raise _) :: _ => []
  | _ :: t' => fetched_memories t'
  end.

(** The memories in use during an iteration that starts with the locals
    [st] and logs [t] *)
Definition cache_in_use (st : locals) (t : list event) : list dict :=
  match memories_cache st with
  | Some c => c
  | None => fetched_memories t
  end.

(** The exception of a call that raised and was not caught *)
Definition failure (e : event) : option exn :=
  match e with
  | EvClient _ (Raise x) => Some x
  | EvChat _ _ _ (Raise x) => Some x
  | EvAddMemory _ _ _ _ (Raise x) => Some x
  | _ => None
  end.

(** The user id [ingest_file] settles on for an item *)
Definition resolved_user_id (cfg : IngestConfig) (metadata : dict) : value :=
  py_or (py_or (VStr (user_id cfg)) (dict_get "user_id" metadata))
    (VStr "demo_user").

(** The metadata [ingest_file] passes to the store for an item *)
Definition persisted_metadata (connector : string) (metadata : dict) : dict :=
  [ ("connector", VStr connector);
    ("source", dict_get "source" metadata);
    ("record_id", dict_get "record_id" metadata);
    ("timestamp", dict_get "timestamp" metadata) ].

(** The text an enrichment answer becomes *)
Definition answer_text (content : option string) : string :=
  PyStr.strip (match content with Some c => c | None => "" end).

(** What an iteration that returns did with the text it derived *)
Definition delivered (connector : string) (cfg : IngestConfig)
    (metadata : dict) (text : string) (t : list event) : Prop :=
  if truthy (VStr text) then
    is_Some (dict_lookup "source" metadata)
    /\ if dry_run cfg
       then reports t = [(connector, dict_get "source" metadata, text)]
            /\ store_calls t = []
       else reports t = []
            /\ store_calls t
               = [(resolved_user_id cfg metadata, text,
                   persisted_metadata connector metadata, false)]
  else reports t = [] /\ store_calls t = [].

(** How an iteration that returns derived its text *)
Definition derived (connector : string) (cfg : IngestConfig) (record : dict)
    (mems : list dict) (text : string) (t : list event) : Prop :=
  if enrich cfg then
    exists usr content,
      Json.dumps (enrich_payload (context_note connector) record
                    (_select_context_mems record mems default_max_items))
      = Some usr
      /\ chats t = [(model cfg, sys_prompt, usr, Return content)]
      /\ text = answer_text content
  else chats t = [] /\ text = _record_to_plain_text record.

(** What every event of a run over items of user id [uid] satisfies *)
Definition well_formed_event (cfg : IngestConfig) (uid : value) (e : event) : Prop :=
  match e with
  | EvGetMemories u _ => u = uid
  | EvAddMemory u text _ infer _ => u = uid /\ text <> "" /\ infer = false
  | EvChat mdl sys _ _ => mdl = model cfg /\ sys = sys_prompt
  | EvCounted text _ => text <> ""
  | EvDryRun _ _ text => text <> ""
  | EvClient _ _ => True
  end.

(** A call that raises uncaught is the last event, and its exception is
    the one of the run ([err]). *)
Fixpoint fails_only_last (t : list event) (err : option exn) : Prop :=
  match t with
  | [] => True
  | ev :: t' =>
      match failure ev with
      | Some x => t' = [] /\ err = Some x
      | None => fails_only_last t' err
      end
  end.

Definition raised {A} (r : res A) : option exn :=
  match r with Return _ => None | Raise e => Some e end.

(** The user id of every call of a run over a file *)
Definition file_user_id (cfg : IngestConfig) (path : Path) : value :=
  py_or (py_or (VStr (user_id cfg)) (VStr (stem path))) (VStr "demo_user").

(** ** More vocabulary: what a run is expected to do with its records *)

(** Without enrichment: the records that give a text, the store call and
    the dry-run line of one of them *)
Definition has_raw_text (it : item) : bool :=
  truthy (VStr (_record_to_plain_text (fst it))).

Definition raw_store_call (connector : string) (cfg : IngestConfig) (it : item)
  : value * string * dict * bool :=
  (resolved_user_id cfg (snd it), _record_to_plain_text (fst it),
   persisted_metadata connector (snd it), false).

Definition raw_report (connector : string) (it : item)
  : string * value * string :=
  (connector, dict_get "source" (snd it), _record_to_plain_text (fst it)).

(** With enrichment: the user turn sent for a record, the answers that
    came back, and the store call and dry-run line a record and its answer
    lead to *)
Definition expected_request (connector : string) (mems : list dict) (it : item)
  : option string :=
  Json.dumps (enrich_payload (context_note connector) (fst it)
                (_select_context_mems (fst it) mems default_max_items)).

Definition answered (e : event) : option (option string) :=
  match e with
  | EvChat _ _ _ (Return content) => Some content
  | _ => None
  end.

Definition answers (t : list event) : list (option string) := omap answered t.

Definition enriched_store_call (connector : string) (cfg : IngestConfig)
    (p : item * option string) : option (value * string * dict * bool) :=
  let text := answer_text (snd p) in
  if truthy (VStr text)
  then Some (resolved_user_id cfg (snd (fst p)), text,
             persisted_metadata connector (snd (fst p)), false)
  else None.

Definition enriched_report (connector : string) (p : item * option string)
  : option (string * value * string) :=
  let text := answer_text (snd p) in
  if truthy (VStr text)
  then Some (connector, dict_get "source" (snd (fst p)), text)
  else None.

(** The request of a record went out as it should and was answered. *)
Definition request_for (connector : string) (cfg : IngestConfig)
    (mems : list dict) (it : item)
    (c : string * string * string * res (option string)) : Prop :=
  exists usr content,
    c = (model cfg, sys_prompt, usr, Return content)
    /\ expected_request connector mems it = Some usr.

(** ** [MemoryManager]

    The wrapper of [jarvix/memory/memory_manager.py] over the hosted mem0
    client.  The client answers with decoded JSON: a [VOther] in a response
    is a float, which cannot be iterated and has neither a [dict()] method
    nor a [__dict__]. *)

Module MemoryManager.

(** The two ways [add_memory] calls [client.add] *)
Inductive add_request : Type :=
| AddMessages (messages user_id metadata : value)
| AddText (text user_id metadata : value) (infer : bool).

(** The mem0 client: [add] and [get_all(filters=...)] *)
Record Mem0 (World : Type) : Type := {
  add : add_request -> World -> res value * World;
  get_all : value -> World -> res value * World
}.
Arguments add {World}.
Arguments get_all {World}.

Definition add_memory {World : Type} (client : Mem0 World)
    (user_id text messages metadata : value) (infer : bool)
    (w : World) : res value * World :=
  if negb (truthy user_id) then (Raise ValueError, w)
  else if truthy text && truthy messages then (Raise ValueError, w)
  else if negb (truthy text) && negb (truthy messages) then (Raise ValueError, w)
  else if truthy messages then add client (AddMessages messages user_id metadata) w
  else if negb (truthy text) then (Raise ValueError, w)
  else add client (AddText text user_id metadata infer) w.

Definition _coerce_record (record : value) : dict :=
  match record with
  | VDict d => d
  | _ => [("value", record)]
  end.

(** [for r in v]: the elements of a list, the keys of a mapping, the
    characters of a string *)
Definition iterate (v : value) : res (list value) :=
  match v with
  | VList l => Return l
  | VDict d => Return (map (fun kv => VStr (fst kv)) d)
  | VStr s =>
      Return (map (fun c => VStr (String c EmptyString)) (list_ascii_of_string s))
  | _ => Raise TypeError
  end.

(** [filters={"AND": [{"user_id": user_id}]}] *)
Definition filters (user_id : value) : value :=
  VDict [("AND", VList [VDict [("user_id", user_id)]])].

(** What [get_memories] makes of the answer of [get_all] *)
Definition normalise (result : value) : res (list dict) :=
  match result with
  | VDict d =>
      match dict_lookup "results" d with
      | Some results =>
          res_bind (iterate results) (fun xs => Return (map _coerce_record xs))
      | None => Return [_coerce_record result]
      end
  | VList xs => Return (map _coerce_record xs)
  | _ => Return [_coerce_record result]
  end.

Definition get_memories {World : Type} (client : Mem0 World) (user_id : value)
    (w : World) : res (list dict) * World :=
  if negb (truthy user_id) then (Raise ValueError, w)
  else
    let '(r, w') := get_all client (filters user_id) w in
    (res_bind r normalise, w').

End MemoryManager.

(** The mappings among the elements of a response *)
Fixpoint mappings (xs : list value) : list dict :=
  match xs with
  | [] => []
  | VDict d :: rest => d :: mappings rest
  | _ :: rest => mappings rest
  end.

(** The calls of [ingest_file] as [MemoryManager] receives them: the text
    as [text=], no [messages=], the four fields as [metadata=] *)
Definition passes_the_checks (e : event) : Prop :=
  match e with
  | EvAddMemory uid text md infer _ =>
      forall (World : Type) (client : MemoryManager.Mem0 World) (w : World),
        MemoryManager.add_memory client uid (VStr text) VNone (VDict md) infer w
        = MemoryManager.add client
            (MemoryManager.AddText (VStr text) uid (VDict md) false) w
  | EvGetMemories uid _ =>
      forall (World : Type) (client : MemoryManager.Mem0 World) (w : World),
        MemoryManager.get_memories client uid w
        = (res_bind (fst (MemoryManager.get_all client (MemoryManager.filters uid) w))
             MemoryManager.normalise,
           snd (MemoryManager.get_all client (MemoryManager.filters uid) w))
  | _ => True
  end.

Definition sample_mem0 : MemoryManager.Mem0 unit :=
  {| MemoryManager.add := fun _ w => (Return (VDict [("results", VList [])]), w);
     MemoryManager.get_all := fun _ w =>
       (Return (VDict [("results",
          VList [ VDict [("memory", VStr "Dentist on main street")];
                  VStr "stray"; VInt 7;
                  VDict [("memory", VStr "Tuesday morning gym")] ])]), w) |}.

(** ** More sample data *)

(** The chat answers nothing for a request that mentions the gym and a
    padded sentence for everything else. *)
Fixpoint mentions (word : string) (s : string) : bool :=
  match s with
  | EmptyString => String.eqb word ""
  | String _ s' => String.prefix word s || mentions word s'
  end.

Definition picky_chat (usr : string) : option string :=
  if mentions "Gym" usr then None else Some " Noted. ".

Definition answering_services : Services unit :=
  {| new_client := fun _ w => (Return tt, w);
     get_memories := fun _ w => (Return [], w);
     chat_sample := fun _ _ usr w => (Return (picky_chat usr), w);
     add_memory := fun _ _ _ _ w => (Return tt, w) |}.

Definition failing_store_services : Services unit :=
  {| new_client := fun _ w => (Return tt, w);
     get_memories := fun _ w => (Return [], w);
     chat_sample := fun _ _ _ w => (Return (Some "x"), w);
     add_memory := fun _ _ _ _ w => (Raise ServiceError, w) |}.

Definition no_user_config : IngestConfig :=
  {| model := "grok-4-1-fast-reasoning"; timeout := 60; dry_run := false;
     limit := None; user_id := ""; verbose := false; enrich := false |}.

Definition week_enriched_run : list event * unit * res (Z * Z) :=
  Eval vm_compute in
    ingest_file answering_services PyDatetime.fromisoformat "calendar"
      week_file (with_enrich plain_config) tt.

Definition week_failing_run : list event * unit * res (Z * Z) :=
  Eval vm_compute in
    ingest_file failing_store_services PyDatetime.fromisoformat "calendar"
      week_file plain_config tt.

Definition week_stem_run : list event * unit * res (Z * Z) :=
  Eval vm_compute in
    ingest_file quiet_services PyDatetime.fromisoformat "calendar"
      week_file no_user_config tt.


(** ** Words *)

(** A character a token can hold: no whitespace, no comma, no full stop,
    and left alone by [lower()] *)
Definition word_char (c : ascii) : bool :=
  negb (PyStr.isspace c) && negb (Ascii.eqb c ",") && negb (Ascii.eqb c ".")
  && Ascii.eqb (PyStr.lower_char c) c.

Fixpoint all_chars (p : ascii -> bool) (s : string) : bool :=
  match s with
  | EmptyString => true
  | String c s' => p c && all_chars p s'
  end.

Definition normal_word (w : string) : Prop :=
  (3 <= String.length w)%nat /\ all_chars word_char w = true.

(** ** JSON documents *)

(** The values [json.dumps] accepts: everything but a foreign object
    without a serialization, at any depth *)
Fixpoint serializable (v : value) : bool :=
  match v with
  | VList l => forallb serializable l
  | VDict d => forallb (fun kv => serializable (snd kv)) d
  | VOther _ None => false
  | _ => true
  end.

(** ** Texts *)

(** The text of a store call or of a dry-run line is not empty and has no
    whitespace around it. *)
Definition clean_text (e : event) : Prop :=
  match e with
  | EvAddMemory _ text _ _ _ | EvDryRun _ _ text =>
      text <> "" /\ PyStr.strip text = text
  | _ => True
  end.

(** ** Record ids *)

(** The key under which an element of the array carries its own id, and
    the id a loader makes up from the position of an element without *)
Definition id_key (connector : string) : string :=
  if String.eqb connector "calendar" then "event_id" else "filename".

Definition id_prefix (connector : string) : string :=
  if String.eqb connector "calendar" then "event-" else connector ++ "-".

Definition positional_id (connector : string) (idx : nat) : value :=
  VStr (id_prefix connector ++ pretty idx).

Definition record_id (it : item) : value := dict_get "record_id" (snd it).

Definition has_no_id (connector : string) (x : value) : Prop :=
  forall ex, x = VDict ex -> dict_lookup (id_key connector) ex = None.

(** Two extractions that carry no file name *)
Definition scan (words : string) : value :=
  VDict [("content", VDict [("text", VStr words)]); ("date", VStr "2025-03-02")].

Definition scans_file : Path :=
  {| name := "scans.json"; stem := "scans";
     document :=
       Return (VDict [("extractions", VList [scan "Invoice"; scan "Receipt"])]) |}.

(** ** Deliveries and the records behind them *)

(** The text of a store call or of a dry-run line: what a record that is
    not skipped ends in *)
Definition delivery (e : event) : option string :=
  match e with
  | EvAddMemory _ text _ _ _ => Some text
  | EvDryRun _ _ text => Some text
  | _ => None
  end.

Definition delivered_texts (t : list event) : list string := omap delivery t.

(** The text a run that returns derived for each of its records: the raw
    text, or with enrichment the answer to the request of the record,
    stripped *)
Definition derived_texts (cfg : IngestConfig) (records : list item)
    (t : list event) : list (item * string) :=
  if enrich cfg then zip records (map answer_text (answers t))
  else map (fun it => (it, _record_to_plain_text (fst it))) records.

(** [if not text: continue] *)
Definition not_skipped (p : item * string) : bool := truthy (VStr (snd p)).

(** The metadata object of an item when the loop has set
    [metadata["user_id"]] and [metadata["occurrence_count"]] on it *)
Definition counted_metadata (cfg : IngestConfig) (metadata : dict) (count : Z)
  : dict :=
  dict_set "occurrence_count" (VInt count)
    (dict_set "user_id" (resolved_user_id cfg metadata) metadata).

(** The entry of the counter log that belongs to a record and its text *)
Definition counted_for (cfg : IngestConfig) (p : item * string)
    (c : string * dict) : Prop :=
  fst c = snd p
  /\ exists count, snd c = counted_metadata cfg (snd (fst p)) count.

(** The list the loop works with after a fetch that answered [r0] *)
Definition cached (r0 : res (list dict)) : list dict :=
  match r0 with Return l => l | Raise _ => [] end.

(** * Properties *)

(** ** Strings and raw text on concrete inputs *)

Example split_demo :
  PyStr.split "  Buy milk,  then  call Bob. "
  = ["Buy"; "milk,"; "then"; "call"; "Bob."].
Proof. reflexivity. Qed.

Example tokenize_demo :
  tokenize (VList [VStr "Buy milk, then call Bob."; VInt 3; VStr "At 5pm"])
  = ["buy"; "milk"; "then"; "call"; "bob"; "5pm"].
Proof. reflexivity. Qed.

Example select_demo :
  _select_context_mems demo_record demo_memories default_max_items
  = [ VStr "Dentist appointment moved to tuesday.";
      VStr "Tuesday morning is gym time";
      VStr "morning run, then appointment" ].
Proof. vm_compute. reflexivity. Qed.

(** A negative [max_items] is a slice from the end: all but the last. *)
Example select_negative_max_items :
  _select_context_mems demo_record demo_memories (-1)
  = [ VStr "Dentist appointment moved to tuesday.";
      VStr "Tuesday morning is gym time";
      VStr "morning run, then appointment";
      VStr "User has a dentist on main street" ].
Proof. vm_compute. reflexivity. Qed.

Example to_utc_date_rolls_back :
  _to_utc PyDatetime.fromisoformat (VStr "2024-01-01T00:30:00.5+02:00")
  = Return (VStr "2023-12-31T22:30:00.500000+00:00").
Proof. vm_compute. reflexivity. Qed.

Example to_utc_naive_unchanged :
  _to_utc PyDatetime.fromisoformat (VStr "2024-01-01T10:00:00")
  = Return (VStr "2024-01-01T10:00:00").
Proof. vm_compute. reflexivity. Qed.

(** Year 0 does not exist: the [OverflowError] of [astimezone] is caught. *)
Example to_utc_overflow_unchanged :
  _to_utc PyDatetime.fromisoformat (VStr "0001-01-01T00:30:00+02:00")
  = Return (VStr "0001-01-01T00:30:00+02:00").
Proof. vm_compute. reflexivity. Qed.

Example json_dumps_demo :
  Json.dumps (VDict [("a", VList [VInt (-3); VNone; VBool true]); ("b", VDict [])])
  = Some (String.concat ""
      ["{"; Json.quote "a"; ": [-3, null, true], "; Json.quote "b"; ": {}}"]).
Proof. vm_compute. reflexivity. Qed.

(** ** The stable descending sort *)

Section SortDesc.

Context {A : Type}.
Implicit Types (x : nat * A) (l : list (nat * A)).

Lemma insert_desc_perm x l : Permutation (insert_desc x l) (x :: l).
Proof.
  induction l as [|y l IH]; simpl; [reflexivity|].
  destruct (fst y <=? fst x)%nat; [reflexivity|].
  rewrite IH. apply perm_swap.
Qed.

Lemma sort_desc_perm l : Permutation (sort_desc l) l.
Proof.
  induction l as [|x l IH]; simpl; [reflexivity|].
  rewrite insert_desc_perm. now constructor.
Qed.

Lemma insert_desc_sorted x l : desc l -> desc (insert_desc x l).
Proof.
  unfold desc. induction l as [|y l IH]; simpl; intros Hs.
  - repeat constructor.
  - inversion Hs as [|? ? Hl Hy]; subst.
    destruct (Nat.leb_spec (fst y) (fst x)) as [Hle|Hlt].
    + constructor; [assumption|].
      constructor; [assumption|].
      eapply Forall_impl; [exact Hy|]. simpl. intros; lia.
    + constructor; [now apply IH|].
      rewrite List.Forall_forall. intros z Hz.
      apply (Permutation_in _ (insert_desc_perm x l)) in Hz.
      destruct Hz as [<-|Hz]; [lia|].
      rewrite List.Forall_forall in Hy. now apply Hy.
Qed.

Lemma sort_desc_sorted l : desc (sort_desc l).
Proof.
  induction l as [|x l IH]; simpl; [constructor|].
  now apply insert_desc_sorted.
Qed.

(** Stability: the elements of any one score keep their order. *)
Lemma insert_desc_stable (s : nat) x l :
  List.filter (fun p => (fst p =? s)%nat) (insert_desc x l)
  = List.filter (fun p => (fst p =? s)%nat) (x :: l).
Proof.
  induction l as [|y l IH]; [reflexivity|].
  cbn [insert_desc].
  destruct (Nat.leb_spec (fst y) (fst x)) as [Hle|Hlt]; [reflexivity|].
  cbn [List.filter] in *. rewrite IH.
  destruct (Nat.eqb_spec (fst x) s), (Nat.eqb_spec (fst y) s);
    try reflexivity; lia.
Qed.

Lemma sort_desc_stable (s : nat) l :
  List.filter (fun p => (fst p =? s)%nat) (sort_desc l)
  = List.filter (fun p => (fst p =? s)%nat) l.
Proof.
  induction l as [|x l IH]; [reflexivity|].
  cbn [sort_desc foldr]. fold (sort_desc l).
  rewrite insert_desc_stable. cbn [List.filter]. now rewrite IH.
Qed.

Lemma slice_to_firstn (k : Z) l : exists n, slice_to k l = firstn n l.
Proof. unfold slice_to. destruct (k <? 0); eauto. Qed.

Lemma slice_to_length (k : Z) l :
  0 <= k -> (length (slice_to k l) <= Z.to_nat k)%nat.
Proof.
  intros Hk. unfold slice_to.
  destruct (Z.ltb_spec k 0); [lia|]. apply firstn_le_length.
Qed.

End SortDesc.

(** ** Context selector *)

Lemma record_tokens_empty (record : dict) :
  Forall (fun key => tokenize (dict_get key record) = []) text_keys ->
  record_tokens record = ∅.
Proof.
  intros H. unfold record_tokens, text_keys in *.
  repeat match goal with
         | H : Forall _ (_ :: _) |- _ => inversion H; clear H; subst
         end.
  cbn [fold_left].
  repeat match goal with Ht : tokenize _ = [] |- _ => rewrite Ht; clear Ht end.
  cbn [list_to_set]. set_solver.
Qed.

Lemma overlap_empty (text : value) : overlap ∅ text = 0%nat.
Proof.
  unfold overlap.
  rewrite (left_absorb_L ∅ (∩)). apply size_empty.
Qed.

Lemma score_memories_scores (rt : gset string) (memories : list dict) :
  Forall (fun p => fst p = overlap rt (snd p) /\ (0 < fst p)%nat)
    (score_memories rt memories).
Proof.
  induction memories as [|mem rest IH]; cbn [score_memories]; [constructor|].
  destruct (Nat.ltb_spec 0%nat (overlap rt (memory_text mem))); [|assumption].
  constructor; [split; [reflexivity|assumption]|assumption].
Qed.

Lemma score_memories_texts (rt : gset string) (memories : list dict) :
  map snd (score_memories rt memories)
  = List.filter (fun t => (0 <? overlap rt t)%nat) (map memory_text memories).
Proof.
  induction memories as [|mem rest IH]; [reflexivity|].
  cbn [score_memories map List.filter].
  destruct (0 <? overlap rt (memory_text mem))%nat; cbn [map snd]; now rewrite IH.
Qed.

Lemma score_memories_empty (memories : list dict) : score_memories ∅ memories = [].
Proof.
  induction memories as [|mem rest IH]; [reflexivity|].
  cbn [score_memories]. now rewrite overlap_empty.
Qed.

Lemma in_firstn {A} (x : A) (n : nat) (l : list A) :
  In x (firstn n l) -> In x l.
Proof.
  revert l. induction n as [|n IH]; intros [|y l]; cbn; try tauto.
  intros [->|H]; [now left|right; now apply IH].
Qed.

(** The scores of the ranked pairs are the scores of their texts. *)
Lemma ranked_scores (rt : gset string) (memories : list dict) (n : nat) :
  Forall (fun p => fst p = overlap rt (snd p) /\ (0 < fst p)%nat)
    (firstn n (sort_desc (score_memories rt memories))).
Proof.
  apply List.Forall_forall. intros p Hp.
  apply in_firstn in Hp.
  apply (Permutation_in _ (sort_desc_perm _)) in Hp.
  pose proof (score_memories_scores rt memories) as H.
  rewrite List.Forall_forall in H. now apply H.
Qed.

Lemma filter_score_map (rt : gset string) (s : nat) (l : list (nat * value)) :
  Forall (fun p => fst p = overlap rt (snd p) /\ (0 < fst p)%nat) l ->
  List.filter (fun t => (overlap rt t =? s)%nat) (map snd l)
  = map snd (List.filter (fun p => (fst p =? s)%nat) l).
Proof.
  induction 1 as [|p l [Hp _] _ IH]; [reflexivity|].
  cbn [map List.filter]. rewrite <- Hp.
  destruct (fst p =? s)%nat; cbn [map]; now rewrite IH.
Qed.

Lemma sorted_texts (rt : gset string) (l : list (nat * value)) :
  desc l ->
  Forall (fun p => fst p = overlap rt (snd p) /\ (0 < fst p)%nat) l ->
  StronglySorted (fun a b => (overlap rt b <= overlap rt a)%nat) (map snd l).
Proof.
  unfold desc. induction 1 as [|p l Hl IH Hp]; intros Hsc; cbn [map];
    [constructor|].
  inversion Hsc as [|? ? [Hpp _] Hsc']; subst.
  constructor; [now apply IH|].
  rewrite List.Forall_forall in Hp, Hsc'. apply List.Forall_forall.
  intros t Ht. apply in_map_iff in Ht as [q [<- Hq]].
  destruct (Hsc' q Hq) as [Hqq _]. rewrite <- Hqq, <- Hpp. now apply Hp.
Qed.

Lemma filter_firstn_prefix {A} (f : A -> bool) (n : nat) (l : list A) :
  List.filter f l
  = (List.filter f (firstn n l) ++ List.filter f (skipn n l))%list.
Proof. rewrite <- List.filter_app. now rewrite firstn_skipn. Qed.

(** C1. For every record and list of memories, [_select_context_mems]
    returns at most [max_items] texts (for a count [max_items >= 0], and at
    most three under the default), every returned text shares at least one
    token with the record, and a record whose four textual fields tokenize
    to nothing gets the empty list.  The embedding is a total function: on a
    [dict] and a list of [dict]s the source has no operation that raises. *)
Theorem select_context_mems_bounded
    (record : dict) (memories : list dict) (max_items : Z) :
  let out := _select_context_mems record memories max_items in
  (0 <= max_items -> (length out <= Z.to_nat max_items)%nat)
  /\ (length (_select_context_mems record memories default_max_items) <= 3)%nat
  /\ Forall (fun text => (0 < overlap (record_tokens record) text)%nat) out
  /\ (Forall (fun key => tokenize (dict_get key record) = []) text_keys ->
      out = []).
Proof.
  cbv zeta. unfold _select_context_mems. repeat split.
  - intros Hk. rewrite length_map. now apply slice_to_length.
  - rewrite length_map.
    apply (slice_to_length default_max_items). unfold default_max_items. lia.
  - destruct (slice_to_firstn max_items
                (sort_desc (score_memories (record_tokens record) memories)))
      as [n ->].
    pose proof (ranked_scores (record_tokens record) memories n) as H.
    induction H as [|p l [Hp Hpos] _ IH]; cbn [map]; constructor.
    + now rewrite <- Hp.
    + exact IH.
  - intros Hempty. rewrite (record_tokens_empty _ Hempty).
    rewrite score_memories_empty. unfold slice_to.
    destruct (max_items <? 0); cbn; now rewrite firstn_nil.
Qed.

Lemma select_context_mems_bounded_witness :
  (length (_select_context_mems demo_record demo_memories 3) <= 3)%nat
  /\ _select_context_mems [("summary", VStr "a, b. to")] demo_memories 3 = [].
Proof.
  split.
  - apply (proj1 (select_context_mems_bounded demo_record demo_memories 3)). lia.
  - apply (proj2 (proj2 (proj2
      (select_context_mems_bounded [("summary", VStr "a, b. to")] demo_memories 3)))).
    repeat constructor.
Defined.

(** C8. Two runs of [_select_context_mems] on the same record and memories
    give the same list (the only set operation of the source is the size of
    an intersection, so no iteration order of a set is ever observed); the
    returned texts are in descending order of their score; and for every
    score the returned texts of that score are the first ones, in the order
    of the memory list, among the memory texts of that score. *)
Theorem select_context_mems_stable
    (record : dict) (memories : list dict) (max_items : Z) :
  let score := overlap (record_tokens record) in
  let first_run := _select_context_mems record memories max_items in
  let second_run := _select_context_mems record memories max_items in
  first_run = second_run
  /\ StronglySorted (fun a b => (score b <= score a)%nat) first_run
  /\ forall s : nat, exists rest,
       List.filter (fun t => (score t =? s)%nat) (map memory_text memories)
       = (List.filter (fun t => (score t =? s)%nat) first_run ++ rest)%list.
Proof.
  cbv zeta. split; [reflexivity|].
  unfold _select_context_mems.
  set (rt := record_tokens record).
  set (scored := score_memories rt memories).
  destruct (slice_to_firstn max_items (sort_desc scored)) as [n Hn].
  rewrite Hn. clear Hn.
  pose proof (ranked_scores rt memories n) as Hsc. fold scored in Hsc.
  split.
  - assert (Hs : desc (firstn n (sort_desc scored))).
    { pose proof (sort_desc_sorted scored) as Hd. unfold desc in *.
      rewrite <- (firstn_skipn n (sort_desc scored)) in Hd.
      now apply StronglySorted_app_1_l in Hd. }
    now apply sorted_texts.
  - intros s. rewrite (filter_score_map rt s _ Hsc).
    destruct (Nat.eq_dec s 0%nat) as [->|Hpos].
    + exists (List.filter (fun t => (overlap rt t =? 0)%nat) (map memory_text memories)).
      replace (List.filter (fun p => (fst p =? 0)%nat) (firstn n (sort_desc scored)))
        with (@nil (nat * value)); [reflexivity|].
      symmetry. induction Hsc as [|p l [_ Hp] _ IH]; [reflexivity|].
      cbn [List.filter]. destruct (Nat.eqb_spec (fst p) 0%nat); [lia|exact IH].
    + exists (map snd (List.filter (fun p => (fst p =? s)%nat) (skipn n (sort_desc scored)))).
      rewrite <- map_app, <- filter_firstn_prefix, sort_desc_stable.
      rewrite <- (filter_score_map rt s scored (score_memories_scores rt memories)).
      unfold scored. rewrite score_memories_texts.
      generalize (map memory_text memories). clear -Hpos.
      intros l. induction l as [|t l IH]; [reflexivity|].
      cbn [List.filter].
      destruct (Nat.ltb_spec 0%nat (overlap rt t)) as [Hlt|Hge];
        cbn [List.filter]; destruct (Nat.eqb_spec (overlap rt t) s) as [He|Hne];
        rewrite ?IH; try reflexivity; lia.
Qed.

(** ** Raw text of a record *)

Lemma first_text_found (vals : list value) (t : string) :
  first_giving vals t -> first_text vals = Some t.
Proof.
  intros (i & v & Hi & (s & -> & Hs & Ht) & Hbefore).
  revert i Hi Hbefore. induction vals as [|u vals IH]; intros [|i] Hi Hb;
    try discriminate.
  - cbn in Hi. injection Hi as Hi. subst u. cbn [first_text truthy]. rewrite Hs.
    destruct (String.eqb_spec t ""); [contradiction|reflexivity].
  - cbn in Hi.
    assert (Hu : gives_nothing u) by (apply (Hb 0%nat); [lia|reflexivity]).
    assert (Hrest : first_text vals = Some t).
    { apply (IH i Hi). intros j w Hj Hw. apply (Hb (S j)); [lia|exact Hw]. }
    destruct u; cbn [first_text]; try exact Hrest.
    rewrite (Hu _ eq_refl). exact Hrest.
Qed.

Lemma first_text_none (vals : list value) :
  Forall gives_nothing vals -> first_text vals = None.
Proof.
  induction 1 as [|u vals Hu _ IH]; [reflexivity|].
  destruct u; cbn [first_text]; try exact IH.
  rewrite (Hu _ eq_refl). exact IH.
Qed.

(** C4, as the code has it.  [_record_to_plain_text] looks at the fields
    transcription, description, text, summary in that order and returns the
    [strip()] of the first one that is a [str] with a non-empty [strip()];
    if there is none, the [strip()] of the first such value of the record in
    iteration order; if there is none either, the JSON of the record, or the
    empty string when [json.dumps] raises.  For [{"summary": "", "text":
    "buy milk"}] it returns ["buy milk"]. *)
Theorem record_to_plain_text_priority (record : dict) :
  candidates record = map (fun key => dict_get key record) text_keys
  /\ (forall t, first_giving (candidates record) t ->
        _record_to_plain_text record = t)
  /\ (Forall gives_nothing (candidates record) ->
      forall t, first_giving (dict_values record) t ->
        _record_to_plain_text record = t)
  /\ (Forall gives_nothing (candidates record) ->
      Forall gives_nothing (dict_values record) ->
      _record_to_plain_text record
      = match Json.dumps (VDict record) with Some j => j | None => "" end)
  /\ _record_to_plain_text [("summary", VStr ""); ("text", VStr "buy milk")]
     = "buy milk".
Proof.
  split; [reflexivity|]. unfold _record_to_plain_text. repeat split.
  - intros t Ht. now rewrite (first_text_found _ _ Ht).
  - intros Hc t Ht.
    now rewrite (first_text_none _ Hc), (first_text_found _ _ Ht).
  - intros Hc Hv. now rewrite (first_text_none _ Hc), (first_text_none _ Hv).
Qed.

Lemma record_to_plain_text_priority_witness :
  _record_to_plain_text padded_record = "buy milk"
  /\ _record_to_plain_text [("note", VInt 4); ("place", VStr " home ")] = "home"
  /\ _record_to_plain_text [("note", VInt 4)]
     = match Json.dumps (VDict [("note", VInt 4)]) with Some j => j | None => "" end.
Proof.
  assert (Hnone : forall v, v = VNone \/ v = VInt 4 \/ v = VStr "  " -> gives_nothing v).
  { intros v [-> | [-> | ->]] s Hs; try discriminate. injection Hs as Hs. now subst s. }
  split; [|split].
  - apply (proj1 (proj2 (record_to_plain_text_priority padded_record))).
    exists 2%nat, (VStr " buy milk "). split; [reflexivity|]. split.
    + exists " buy milk ". repeat split. discriminate.
    + intros [|[|j]] u Hj Hu; try lia; cbn in Hu; injection Hu as Hu; subst u;
        apply Hnone; tauto.
  - apply (proj1 (proj2 (proj2
      (record_to_plain_text_priority [("note", VInt 4); ("place", VStr " home ")])))).
    + repeat constructor; apply Hnone; tauto.
    + exists 1%nat, (VStr " home "). split; [reflexivity|]. split.
      * exists " home ". repeat split. discriminate.
      * intros [|j] u Hj Hu; try lia. cbn in Hu. injection Hu as Hu. subst u.
        apply Hnone; tauto.
  - apply (proj1 (proj2 (proj2 (proj2
      (record_to_plain_text_priority [("note", VInt 4)]))))).
    + repeat constructor; apply Hnone; tauto.
    + repeat constructor; apply Hnone; tauto.
Defined.

(** C4 as worded (the first field that is a non-empty string, returned as
    it is) fails on a record with a blank transcription and a padded text:
    the wording gives the two blanks, the code gives ["buy milk"]. *)
Lemma record_to_plain_text_not_as_worded :
  record_to_plain_text_as_worded padded_record = "  "
  /\ _record_to_plain_text padded_record = "buy milk"
  /\ _record_to_plain_text padded_record
     <> record_to_plain_text_as_worded padded_record.
Proof. split; [reflexivity|]. split; [reflexivity|]. vm_compute. discriminate. Qed.

(** ** Calendar times *)

Lemma to_utc_returns (parse : string -> res PyDatetime.datetime) (v : value) :
  exists u, _to_utc parse v = Return u.
Proof.
  unfold _to_utc, try_except, res_bind.
  destruct v; eauto.
  destruct (parse s) as [dt|e]; eauto.
  destruct (PyDatetime.tzinfo dt); eauto.
  destruct (PyDatetime.astimezone_utc dt); eauto.
Qed.

(** C3. [_to_utc] maps "2024-01-01T10:00:00+02:00" to
    "2024-01-01T08:00:00+00:00"; whatever [datetime.fromisoformat] is, a
    string it rejects comes back unchanged; and [_to_utc] returns (it does
    not raise) on every string, and on every other value too. *)
Theorem to_utc_spec :
  _to_utc PyDatetime.fromisoformat (VStr "2024-01-01T10:00:00+02:00")
  = Return (VStr "2024-01-01T08:00:00+00:00")
  /\ (forall (parse : string -> res PyDatetime.datetime) (s : string) (e : exn),
        parse s = Raise e -> _to_utc parse (VStr s) = Return (VStr s))
  /\ (forall (parse : string -> res PyDatetime.datetime) (v : value),
        exists u, _to_utc parse v = Return u).
Proof.
  split; [vm_compute; reflexivity|]. split.
  - intros parse s e H. unfold _to_utc. now rewrite H.
  - apply to_utc_returns.
Qed.

Lemma to_utc_spec_witness :
  _to_utc PyDatetime.fromisoformat (VStr "next tuesday") = Return (VStr "next tuesday").
Proof.
  apply (proj1 (proj2 to_utc_spec) PyDatetime.fromisoformat "next tuesday" ValueError).
  reflexivity.
Defined.

(** ** The loop of [ingest_file] *)

Section PipelineFacts.

Context {World : Type}.
Variable svc : Services World.
Variable parse : string -> res PyDatetime.datetime.

(** Case analysis over one iteration: every call and every test of the
    loop body is split. *)
Ltac split_step H :=
  repeat
    (cbv beta iota zeta delta
       [ingest_record bind ret lift emit try_exceptM call_get_memories
        call_chat call_add_memory grok_enrich subscript fst snd app] in H;
     lazymatch type of H with
     | (_, _, _) = (_, _, _) => fail
     | _ =>
         match type of H with
         | context [match ?x with _ => _ end] =>
             lazymatch x with
             | context [match _ with _ => _ end] => fail
             | _ => destruct x eqn:?
             end
         end
     end);
  try discriminate H;
  injection H as ? ? ?; subst.

Lemma step_counts connector cfg it st w t w' st' :
  ingest_record svc connector cfg it st w = (t, w', Return st') ->
  processed st' = processed st + 1
  /\ stored st' = stored st + Z.of_nat (length (List.filter is_stored t))
  /\ List.filter is_stored t = List.filter is_store t
  /\ (length (List.filter is_store t) <= 1)%nat.
Proof.
  intros H. destruct it as [record metadata].
  split_step H; cbn; repeat split; clear; lia.
Qed.

Lemma step_stores connector cfg it st w t w' r :
  ingest_record svc connector cfg it st w = (t, w', r) ->
  Forall store_passes_four_fields t
  /\ (dry_run cfg = true -> List.filter is_store t = []).
Proof.
  intros H. destruct it as [record metadata].
  split_step H; cbn; split; try congruence;
    repeat constructor.
Qed.

Lemma loop_counts connector cfg items : forall st w t w' st',
  ingest_loop svc connector cfg items st w = (t, w', Return st') ->
  gen_completes items = true
  /\ processed st' = processed st + Z.of_nat (length (gen_items items))
  /\ stored st' = stored st + Z.of_nat (length (List.filter is_stored t))
  /\ List.filter is_stored t = List.filter is_store t
  /\ (length (List.filter is_store t) <= length (gen_items items))%nat.
Proof.
  induction items as [|it rest IH|e]; intros st w t w' st' H; cbn in H.
  - injection H as <- <- <-. cbn. repeat split; lia.
  - unfold bind in H.
    destruct (ingest_record svc connector cfg it st w) as [[t1 w1] [st1|e]] eqn:Hs;
      [|discriminate].
    destruct (ingest_loop svc connector cfg rest st1 w1) as [[t2 w2] r2] eqn:Hl.
    injection H as <- <- ->.
    destruct (step_counts _ _ _ _ _ _ _ _ Hs) as (Hp & Hst & Hf & Hle).
    destruct (IH _ _ _ _ _ Hl) as (Hc & Hp' & Hst' & Hf' & Hle').
    rewrite !List.filter_app, !length_app, Hf, Hf'. cbn [gen_items gen_completes length].
    rewrite Hf in Hst. rewrite Hf' in Hst'.
    repeat split; try assumption; lia.
  - discriminate.
Qed.

Lemma loop_stores connector cfg items : forall st w t w' r,
  ingest_loop svc connector cfg items st w = (t, w', r) ->
  Forall store_passes_four_fields t
  /\ (dry_run cfg = true -> List.filter is_store t = []).
Proof.
  induction items as [|it rest IH|e]; intros st w t w' r H; cbn in H.
  - injection H as <- <- <-. split; [constructor|reflexivity].
  - unfold bind in H.
    destruct (ingest_record svc connector cfg it st w) as [[t1 w1] r1] eqn:Hs.
    destruct (step_stores _ _ _ _ _ _ _ _ Hs) as [Hk Hd].
    destruct r1 as [st1|e].
    + destruct (ingest_loop svc connector cfg rest st1 w1) as [[t2 w2] r2] eqn:Hl.
      injection H as <- <- <-.
      destruct (IH _ _ _ _ _ Hl) as [Hk' Hd'].
      split; [now apply Forall_app|].
      intros Hdry. rewrite List.filter_app, Hd, Hd'; auto.
    + injection H as <- <- <-. now split.
  - injection H as <- <- <-. split; [constructor|reflexivity].
Qed.

(** What a run of [ingest_file] is made of: the loader table, the client,
    the loop. *)
Lemma ingest_file_inv connector path cfg w t w' r :
  ingest_file svc parse connector path cfg w = (t, w', r) ->
  (loader_for parse connector = Raise KeyError /\ t = [] /\ r = Raise KeyError)
  \/ exists loader rc w1,
       loader_for parse connector = Return loader
       /\ new_client svc (timeout cfg) w = (rc, w1)
       /\ ((exists e, rc = Raise e /\ t = [EvClient (timeout cfg) rc]
                      /\ r = Raise e)
           \/ exists t2 r2,
                rc = Return tt
                /\ ingest_loop svc connector cfg
                     (_iter_limited (loader path) (limit cfg)) initial_locals w1
                   = (t2, w', r2)
                /\ t = EvClient (timeout cfg) rc :: t2
                /\ r = match r2 with
                       | Return st => Return (processed st, stored st)
                       | Raise e => Raise e
                       end).
Proof.
  unfold ingest_file, bind, lift, call_new_client, ret. intros H.
  destruct (loader_for parse connector) as [loader|e] eqn:Hload.
  - right. destruct (new_client svc (timeout cfg) w) as [rc w1] eqn:Hc.
    exists loader, rc, w1. split; [reflexivity|]. split; [reflexivity|].
    destruct rc as [[]|e].
    + right.
      destruct (ingest_loop svc connector cfg _ initial_locals w1)
        as [[t2 w2] r2] eqn:Hl.
      exists t2, r2. destruct r2; injection H as <- <- <-;
        cbn; rewrite ?app_nil_r; auto.
    + left. exists e. injection H as <- <- <-. auto.
  - left. unfold loader_for in Hload.
    repeat match type of Hload with
           | context [if ?c then _ else _] => destruct c; try discriminate
           end.
    injection Hload as <-. injection H as <- <- <-. auto.
Qed.

Lemma iter_limited_from_items {A} (items : gen A) (limit : Z) : forall idx,
  gen_items (iter_limited_from idx items limit)
  = firstn (Z.to_nat (limit - Z.of_nat idx)) (gen_items items).
Proof.
  induction items as [|it rest IH|e]; intros idx; cbn.
  - now rewrite firstn_nil.
  - destruct (Z.geb_spec (Z.of_nat idx) limit) as [Hge|Hlt].
    + replace (Z.to_nat (limit - Z.of_nat idx)) with 0%nat by lia. reflexivity.
    + cbn. rewrite IH.
      replace (Z.to_nat (limit - Z.of_nat idx))
        with (S (Z.to_nat (limit - Z.of_nat (S idx)))) by lia.
      reflexivity.
  - now rewrite firstn_nil.
Qed.

Lemma iter_limited_items {A} (items : gen A) (limit : option Z) :
  gen_items (_iter_limited items limit)
  = match limit with
    | None => gen_items items
    | Some n => firstn (Z.to_nat n) (gen_items items)
    end.
Proof.
  destruct limit as [n|]; [|reflexivity].
  unfold _iter_limited. rewrite iter_limited_from_items.
  now replace (n - Z.of_nat 0) with n by lia.
Qed.

(** The pair that [ingest_file] returns *)
Lemma ingest_file_counts connector path cfg w t w' p s :
  ingest_file svc parse connector path cfg w = (t, w', Return (p, s)) ->
  exists loader,
    loader_for parse connector = Return loader
    /\ p = Z.of_nat (length (gen_items (_iter_limited (loader path) (limit cfg))))
    /\ s = Z.of_nat (length (List.filter is_stored t))
    /\ List.filter is_stored t = List.filter is_store t
    /\ 0 <= s <= p.
Proof.
  intros H. apply ingest_file_inv in H.
  destruct H as [(_ & _ & H)|(loader & rc & w1 & Hload & Hc & H)];
    [discriminate|].
  exists loader. split; [assumption|].
  destruct H as [(e & _ & _ & H)|(t2 & r2 & _ & Hl & -> & H)]; [discriminate|].
  destruct r2 as [st|e]; [|discriminate].
  injection H as -> ->.
  destruct (loop_counts _ _ _ _ _ _ _ _ Hl) as (_ & Hp & Hs & Hf & Hle).
  cbn [processed stored initial_locals] in Hp, Hs.
  cbn [List.filter is_stored is_store].
  repeat split; try assumption; try lia.
  rewrite Hf in Hs. lia.
Qed.

Lemma ingest_paths_from_sum connector cfg paths : forall w tp ts t w' P S,
  ingest_paths_from svc parse connector paths cfg tp ts w = (t, w', Return (P, S)) ->
  let rs := per_file svc parse connector paths cfg w in
  length rs = length paths
  /\ P = tp + sum_Z (map fst rs) /\ S = ts + sum_Z (map snd rs)
  /\ 0 <= sum_Z (map snd rs) <= sum_Z (map fst rs).
Proof.
  induction paths as [|path rest IH]; intros w tp ts t w' P S H; cbn in H.
  - injection H as <- <- <- <-. cbn. repeat split; lia.
  - unfold bind in H. cbn [per_file].
    destruct (ingest_file svc parse connector path cfg w)
      as [[t1 w1] [[p s]|e]] eqn:Hf; [|discriminate].
    destruct (ingest_paths_from svc parse connector rest cfg _ _ w1)
      as [[t2 w2] r2] eqn:Hrest.
    injection H as <- <- ->.
    destruct (IH _ _ _ _ _ _ _ Hrest) as (Hlen & HP & HS & Hle).
    destruct (ingest_file_counts _ _ _ _ _ _ _ _ Hf) as (_ & _ & _ & _ & _ & Hps).
    cbn [fst snd] in *. unfold sum_Z in *. cbn. repeat split; lia.
Qed.

(** C10. A run of [ingest_file] that returns [(processed, stored)] has
    [0 <= stored <= processed]: [processed] is the number of records the
    limited loader yielded (one per record), [stored] is the number of
    store calls that returned, and there are no other store calls.  A run
    of [ingest_paths] that returns gives the sums of the pairs of its
    files, and the same bounds hold for the sums. *)
Theorem ingest_counts (connector : string) (path : Path) (paths : list Path)
    (cfg : IngestConfig) (w : World) :
  (forall t w' p s,
     ingest_file svc parse connector path cfg w = (t, w', Return (p, s)) ->
     0 <= s <= p
     /\ s = Z.of_nat (length (List.filter is_stored t))
     /\ List.filter is_store t = List.filter is_stored t
     /\ exists loader,
          loader_for parse connector = Return loader
          /\ p = Z.of_nat (length (gen_items
                   (_iter_limited (loader path) (limit cfg)))))
  /\ (forall t w' P S,
        ingest_paths svc parse connector paths cfg w = (t, w', Return (P, S)) ->
        let rs := per_file svc parse connector paths cfg w in
        length rs = length paths
        /\ P = sum_Z (map fst rs) /\ S = sum_Z (map snd rs)
        /\ 0 <= S <= P).
Proof.
  split.
  - intros t w' p s H.
    destruct (ingest_file_counts _ _ _ _ _ _ _ _ H) as (loader & Hl & Hp & Hs & Hf & Hb).
    repeat split; try assumption; try lia; eauto.
  - intros t w' P S H. unfold ingest_paths in H.
    destruct (ingest_paths_from_sum _ _ _ _ _ _ _ _ _ _ H) as (Hlen & HP & HS & Hle).
    cbv zeta. repeat split; try assumption; lia.
Qed.

(** C5. With [dry_run] set, [ingest_file] issues no store call, however
    the run ends; when it returns, [stored] is 0 and [processed] is the
    number of records the limited loader yielded, which is the number of
    records of the file when no limit is set.  (Every record counts, also
    one whose text is empty.) *)
Theorem dry_run_stores_nothing (connector : string) (path : Path)
    (cfg : IngestConfig) (w : World) t w' r :
  dry_run cfg = true ->
  ingest_file svc parse connector path cfg w = (t, w', r) ->
  List.filter is_store t = []
  /\ forall p s, r = Return (p, s) ->
       s = 0
       /\ exists loader,
            loader_for parse connector = Return loader
            /\ p = Z.of_nat (length (gen_items
                     (_iter_limited (loader path) (limit cfg))))
            /\ (limit cfg = None ->
                p = Z.of_nat (length (gen_items (loader path)))).
Proof.
  intros Hdry H.
  assert (Hnone : List.filter is_store t = []).
  { apply ingest_file_inv in H.
    destruct H as [(_ & -> & _)|(loader & rc & w1 & _ & _ & H)]; [reflexivity|].
    destruct H as [(e & _ & -> & _)|(t2 & r2 & _ & Hl & -> & _)]; [reflexivity|].
    cbn. now apply (loop_stores _ _ _ _ _ _ _ _ Hl). }
  split; [assumption|]. intros p s ->.
  destruct (ingest_file_counts _ _ _ _ _ _ _ _ H) as (loader & Hl & Hp & Hs & Hf & Hb).
  split; [rewrite Hs, Hf, Hnone; reflexivity|].
  exists loader. repeat split; try assumption.
  intros Hlim. rewrite Hp, Hlim. reflexivity.
Qed.

(** C6. [config.limit] truncates the records of a file: the limited loader
    yields the first [n] records under [limit = n] and all of them under
    [limit = None], and a run of [ingest_file] that returns has processed
    exactly those; over a file of five records with [limit = 2],
    [processed] is 2. *)
Theorem limit_truncates (connector : string) (path : Path)
    (cfg : IngestConfig) (w : World) loader t w' p s :
  loader_for parse connector = Return loader ->
  ingest_file svc parse connector path cfg w = (t, w', Return (p, s)) ->
  let records := gen_items (loader path) in
  let limited := gen_items (_iter_limited (loader path) (limit cfg)) in
  p = Z.of_nat (length limited)
  /\ (forall n, limit cfg = Some n ->
        limited = firstn (Z.to_nat n) records
        /\ p = Z.min (Z.max 0 n) (Z.of_nat (length records)))
  /\ (limit cfg = Some 2 -> length records = 5%nat -> p = 2)
  /\ (limit cfg = None -> limited = records /\ p = Z.of_nat (length records)).
Proof.
  intros Hload H. cbv zeta.
  destruct (ingest_file_counts _ _ _ _ _ _ _ _ H) as (loader' & Hl & Hp & _).
  rewrite Hload in Hl. injection Hl as <-.
  rewrite iter_limited_items in *.
  repeat split; try assumption.
  - now rewrite H0.
  - rewrite Hp, H0, length_firstn. lia.
  - intros Hlim Hlen. rewrite Hp, Hlim, length_firstn, Hlen. reflexivity.
  - now rewrite H0.
  - now rewrite Hp, H0.
Qed.

(** *** The memory list *)

Lemma chat_uses_more connector records records' mems e :
  (forall record, In record records -> In record records') ->
  chat_uses connector records mems e -> chat_uses connector records' mems e.
Proof.
  intros Hsub. destruct e; cbn; auto.
  intros (record & Hin & Hd). eauto.
Qed.

Lemma step_fetch connector cfg record metadata st w t w' r records :
  ingest_record svc connector cfg (record, metadata) st w = (t, w', r) ->
  In record records ->
  match memories_cache st with
  | Some c =>
      List.filter is_fetch t = []
      /\ Forall (chat_uses connector records c) t
      /\ forall st', r = Return st' -> memories_cache st' = Some c
  | None =>
      exists uid r0 t',
        t = EvGetMemories uid r0 :: t'
        /\ List.filter is_fetch t' = []
        /\ let c := match r0 with Return l => l | Raise _ => [] end in
           Forall (chat_uses connector records c) t'
           /\ forall st', r = Return st' -> memories_cache st' = Some c
  end.
Proof.
  intros H Hin.
  destruct (memories_cache st) as [c|] eqn:Hcache.
  - split_step H;
      match goal with
      | Hc : Some _ = Some _ |- _ => injection Hc as <-
      | Hc : None = Some _ |- _ => discriminate Hc
      | _ => idtac
      end;
      (split; [reflexivity|]; split;
       [repeat constructor; cbn; eauto
       |intros st' Hr; try discriminate Hr; injection Hr as <-; reflexivity]).
  - split_step H;
      match goal with
      | Hc : Some _ = None |- _ => discriminate Hc
      | _ => idtac
      end;
      (do 3 eexists; split; [reflexivity|]; split; [reflexivity|]; split;
       [repeat constructor; cbn; eauto
       |intros st' Hr; try discriminate Hr; injection Hr as <-; reflexivity]).
Qed.

Lemma loop_cached connector cfg items : forall st w t w' r c,
  ingest_loop svc connector cfg items st w = (t, w', r) ->
  memories_cache st = Some c ->
  List.filter is_fetch t = []
  /\ Forall (chat_uses connector (map fst (gen_items items)) c) t.
Proof.
  induction items as [|[record metadata] rest IH|e]; intros st w t w' r c H Hc;
    cbn [ingest_loop] in H; unfold ret, lift in H.
  - injection H as <- <- <-. split; [reflexivity|constructor].
  - unfold bind in H.
    destruct (ingest_record svc connector cfg (record, metadata) st w)
      as [[t1 w1] r1] eqn:Hs.
    pose proof (step_fetch connector cfg record metadata st w t1 w1 r1
                  (record :: map fst (gen_items rest)) Hs (or_introl eq_refl))
      as Hstep.
    rewrite Hc in Hstep. destruct Hstep as (Hf1 & Hu1 & Hnext).
    destruct r1 as [st1|e].
    + destruct (ingest_loop svc connector cfg rest st1 w1) as [[t2 w2] r2] eqn:Hl.
      injection H as <- <- <-.
      destruct (IH _ _ _ _ _ c Hl (Hnext _ eq_refl)) as [Hf2 Hu2].
      split; [now rewrite List.filter_app, Hf1, Hf2|].
      apply Forall_app. split; [exact Hu1|].
      eapply Forall_impl; [exact Hu2|].
      intros e. apply chat_uses_more. intros x Hx. now right.
    + injection H as <- <- <-. now split.
  - injection H as <- <- <-. split; [reflexivity|constructor].
Qed.

Lemma loop_first_fetch connector cfg items st w t w' r :
  ingest_loop svc connector cfg items st w = (t, w', r) ->
  memories_cache st = None ->
  t = []
  \/ exists uid r0 after,
       t = EvGetMemories uid r0 :: after
       /\ List.filter is_fetch after = []
       /\ Forall (chat_uses connector (map fst (gen_items items))
                    match r0 with Return l => l | Raise _ => [] end) after.
Proof.
  destruct items as [|[record metadata] rest|e]; intros H Hc;
    cbn [ingest_loop] in H; unfold ret, lift in H.
  - left. now injection H as <- <- <-.
  - right. unfold bind in H.
    destruct (ingest_record svc connector cfg (record, metadata) st w)
      as [[t1 w1] r1] eqn:Hs.
    pose proof (step_fetch connector cfg record metadata st w t1 w1 r1
                  (record :: map fst (gen_items rest)) Hs (or_introl eq_refl))
      as Hstep.
    rewrite Hc in Hstep.
    destruct Hstep as (uid & r0 & t1' & -> & Hf1 & Hu1 & Hnext).
    exists uid, r0. destruct r1 as [st1|e].
    + destruct (ingest_loop svc connector cfg rest st1 w1) as [[t2 w2] r2] eqn:Hl.
      injection H as <- <- <-.
      destruct (loop_cached _ _ _ _ _ _ _ _ _ Hl (Hnext _ eq_refl)) as [Hf2 Hu2].
      exists (t1' ++ t2)%list. split; [reflexivity|].
      split; [now rewrite List.filter_app, Hf1, Hf2|].
      apply Forall_app. split; [exact Hu1|].
      eapply Forall_impl; [exact Hu2|].
      intros e. apply chat_uses_more. intros x Hx. now right.
    + injection H as <- <- <-. exists t1'. auto.
  - left. now injection H as <- <- <-.
Qed.

Lemma answers_empty_bind {A B} (m m' : World -> list event * World * res A)
    (f f' : A -> World -> list event * World * res B) :
  answers_empty m m' -> (forall a, answers_empty (f a) (f' a)) ->
  answers_empty (bind m f) (bind m' f').
Proof.
  intros Hm Hf w. unfold bind. rewrite (Hm w).
  destruct (m w) as [[t1 w1] [a|e]]; [|reflexivity].
  rewrite (Hf a w1). destruct (f a w1) as [[t2 w2] r2].
  now rewrite map_app.
Qed.

Lemma answers_empty_refl {A} (m : World -> list event * World * res A) :
  (forall w, Forall (fun e => is_fetch e = false) (fst (fst (m w)))) ->
  answers_empty m m.
Proof.
  intros H w. specialize (H w). destruct (m w) as [[t w1] r]. cbn in H.
  f_equal. f_equal. induction H as [|e t He _ IH]; [reflexivity|].
  cbn [map]. rewrite <- IH. destruct e; try discriminate He; reflexivity.
Qed.

Lemma answers_empty_fetch (uid : value) :
  answers_empty (try_exceptM (call_get_memories svc uid) (ret []))
    (try_exceptM (call_get_memories (swallowing svc) uid) (ret [])).
Proof.
  intros w. unfold try_exceptM, call_get_memories, ret.
  cbn [swallowing get_memories].
  destruct (get_memories svc uid w) as [[l|e] w1]; reflexivity.
Qed.

Ltac quiet :=
  apply answers_empty_refl; intros ?;
  unfold ret, lift, emit, call_chat, call_add_memory;
  repeat match goal with
         | |- context [let '(_, _) := ?x in _] => destruct x
         end;
  cbn; repeat constructor.

Lemma step_answers_empty connector cfg it st :
  answers_empty (ingest_record svc connector cfg it st)
    (ingest_record (swallowing svc) connector cfg it st).
Proof.
  destruct it as [record metadata]. unfold ingest_record.
  apply answers_empty_bind.
  { destruct (memories_cache st); [quiet|apply answers_empty_fetch]. }
  intros cache. apply answers_empty_bind.
  { destruct (enrich cfg); [|quiet].
    unfold grok_enrich. apply answers_empty_bind; [quiet|].
    intros usr. apply answers_empty_bind; [|intros; quiet].
    unfold call_chat. cbn [swallowing chat_sample]. quiet. }
  intros text. destruct (negb (truthy (VStr text))); [quiet|].
  apply answers_empty_bind; [quiet|]. intros _.
  destruct (dry_run cfg).
  - apply answers_empty_bind; [quiet|]. intros source.
    apply answers_empty_bind; [quiet|]. intros _. quiet.
  - apply answers_empty_bind; [quiet|]. intros source.
    apply answers_empty_bind; [|intros; quiet].
    unfold call_add_memory. cbn [swallowing add_memory]. quiet.
Qed.

Lemma step_swallowing connector cfg it st w t w' r :
  ingest_record svc connector cfg it st w = (t, w', r) ->
  ingest_record (swallowing svc) connector cfg it st w = (map swallowed t, w', r).
Proof. intros H. rewrite (step_answers_empty connector cfg it st w). now rewrite H. Qed.

Lemma loop_swallowing connector cfg items : forall st w t w' r,
  ingest_loop svc connector cfg items st w = (t, w', r) ->
  ingest_loop (swallowing svc) connector cfg items st w = (map swallowed t, w', r).
Proof.
  induction items as [|it rest IH|e]; intros st w t w' r H;
    cbn [ingest_loop] in *; unfold ret, lift in *.
  - now injection H as <- <- <-.
  - unfold bind in *.
    destruct (ingest_record svc connector cfg it st w) as [[t1 w1] r1] eqn:Hs.
    rewrite (step_swallowing _ _ _ _ _ _ _ _ Hs).
    destruct r1 as [st1|e].
    + destruct (ingest_loop svc connector cfg rest st1 w1) as [[t2 w2] r2] eqn:Hl.
      rewrite (IH _ _ _ _ _ Hl). injection H as <- <- <-.
      now rewrite map_app.
    + now injection H as <- <- <-.
  - now injection H as <- <- <-.
Qed.

(** *** The occurrence counter *)

Lemma dict_lookup_set (key : string) (v : value) (d : dict) :
  dict_lookup key (dict_set key v d) = Some v.
Proof.
  induction d as [|[k x] d IH]; cbn.
  - now rewrite String.eqb_refl.
  - destruct (String.eqb k key) eqn:Hk; cbn; now rewrite Hk.
Qed.

Lemma counted_app (t1 t2 : list event) :
  counted (t1 ++ t2) = (counted t1 ++ counted t2)%list.
Proof.
  induction t1 as [|e t1 IH]; [reflexivity|].
  destruct e; cbn; now rewrite IH.
Qed.

Lemma counted_from_app (cs1 cs2 : list (string * dict)) : forall seen,
  counted_from seen cs1 ->
  counted_from (seen ++ map fst cs1) cs2 ->
  counted_from seen (cs1 ++ cs2).
Proof.
  induction cs1 as [|[text md] cs1 IH]; intros seen H1 H2; cbn in *.
  - now rewrite app_nil_r in H2.
  - destruct H1 as [Hmd H1]. split; [exact Hmd|].
    apply IH; [exact H1|]. now rewrite <- app_assoc.
Qed.

Lemma counts_agree_insert (counts : gmap string Z) (seen : list string)
    (text : string) :
  counts_agree counts seen ->
  counts_agree (<[text := default 0 (counts !! text) + 1]> counts)
    (seen ++ [text]).
Proof.
  intros H other. rewrite count_occ_app. cbn [count_occ].
  destruct (string_dec text other) as [->|Hne].
  - rewrite lookup_insert_eq. cbn. rewrite (H other). lia.
  - rewrite lookup_insert_ne by assumption. rewrite (H other). lia.
Qed.

Lemma step_counted connector cfg it st w t w' r seen :
  ingest_record svc connector cfg it st w = (t, w', r) ->
  counts_agree (occurrence_counts st) seen ->
  counted_from seen (counted t)
  /\ forall st', r = Return st' ->
       counts_agree (occurrence_counts st') (seen ++ map fst (counted t)).
Proof.
  intros H Hagree. destruct it as [record metadata].
  split_step H; cbn [counted counted_from map fst app occurrence_counts];
    rewrite ?app_nil_r;
    (split;
     [repeat split; rewrite ?dict_lookup_set, ?(Hagree _); reflexivity
     |intros st' Hr; try discriminate Hr; injection Hr as <-;
      cbn [occurrence_counts];
      first [exact Hagree | now apply counts_agree_insert]]).
Qed.

Lemma loop_counted connector cfg items : forall st w t w' r seen,
  ingest_loop svc connector cfg items st w = (t, w', r) ->
  counts_agree (occurrence_counts st) seen ->
  counted_from seen (counted t).
Proof.
  induction items as [|it rest IH|e]; intros st w t w' r seen H Hagree;
    cbn [ingest_loop] in H; unfold ret, lift in H.
  - now injection H as <- <- <-.
  - unfold bind in H.
    destruct (ingest_record svc connector cfg it st w) as [[t1 w1] r1] eqn:Hs.
    destruct (step_counted _ _ _ _ _ _ _ _ _ Hs Hagree) as [H1 Hnext].
    destruct r1 as [st1|e].
    + destruct (ingest_loop svc connector cfg rest st1 w1) as [[t2 w2] r2] eqn:Hl.
      injection H as <- <- <-. rewrite counted_app.
      apply counted_from_app; [exact H1|].
      exact (IH _ _ _ _ _ _ Hl (Hnext _ eq_refl)).
    + now injection H as <- <- <-.
  - now injection H as <- <- <-.
Qed.

Lemma counted_from_nth (cs : list (string * dict)) : forall seen n text md,
  counted_from seen cs ->
  cs !! n = Some (text, md) ->
  dict_lookup "occurrence_count" md
  = Some (VInt (Z.of_nat
      (count_occ string_dec (seen ++ map fst (firstn (S n) cs)) text))).
Proof.
  induction cs as [|[text0 md0] cs IH]; intros seen n text md H Hn;
    [discriminate|].
  destruct H as [Hmd H]. destruct n as [|n]; cbn in Hn.
  - injection Hn as -> ->. rewrite Hmd. cbn [firstn map fst].
    rewrite count_occ_app. cbn [count_occ].
    destruct (string_dec text text); [|contradiction].
    rewrite firstn_0. cbn [map count_occ]. do 2 f_equal. lia.
  - rewrite (IH _ _ _ _ H Hn). cbn [firstn map fst].
    now rewrite <- app_assoc.
Qed.

(** *** One calendar event, end to end *)

Lemma dentist_loaded (fname fstem : string) :
  load_calendar_file PyDatetime.fromisoformat (dentist_path fname fstem)
  = GYield (dentist_record, dentist_metadata fname fstem) GStop.
Proof. vm_compute. reflexivity. Qed.

Lemma dentist_limited (fname fstem : string) (limit : option Z) :
  (forall n, limit = Some n -> 1 <= n) ->
  _iter_limited
    (load_calendar_file PyDatetime.fromisoformat (dentist_path fname fstem)) limit
  = GYield (dentist_record, dentist_metadata fname fstem) GStop.
Proof.
  intros Hlim. rewrite dentist_loaded. destruct limit as [n|]; [|reflexivity].
  specialize (Hlim n eq_refl). cbn. change (Z.of_nat 0) with 0.
  destruct (Z.geb_spec 0 n); [lia|reflexivity].
Qed.

Lemma ingest_file_four_fields connector path cfg w t w' r :
  ingest_file svc parse connector path cfg w = (t, w', r) ->
  Forall store_passes_four_fields t.
Proof.
  intros H. apply ingest_file_inv in H.
  destruct H as [(_ & -> & _)|(loader & rc & w1 & _ & _ & H)]; [constructor|].
  destruct H as [(e & _ & -> & _)|(t2 & r2 & _ & Hl & -> & _)];
    [repeat constructor|].
  constructor; [exact I|]. now apply (loop_stores _ _ _ _ _ _ _ _ Hl).
Qed.

Lemma dentist_stored (cfg : IngestConfig) (w : World)
    (fname fstem : string) t w' r :
  enrich cfg = false -> dry_run cfg = false ->
  (forall n, limit cfg = Some n -> 1 <= n) ->
  fst (new_client svc (timeout cfg) w) = Return tt ->
  ingest_file svc PyDatetime.fromisoformat "calendar"
    (dentist_path fname fstem) cfg w = (t, w', r) ->
  exists outcome,
    List.filter is_store t
    = [ EvAddMemory
          (py_or (py_or (VStr (user_id cfg)) (VStr fstem)) (VStr "demo_user"))
          "Dentist"
          [ ("connector", VStr "calendar");
            ("source", VStr fname);
            ("record_id", VStr "event-0");
            ("timestamp", VStr "2025-03-01T09:00:00+00:00") ]
          false outcome ].
Proof.
  intros Henrich Hdry Hlim Hclient H.
  unfold ingest_file, bind, lift, call_new_client, ret in H.
  cbn [loader_for String.eqb Ascii.eqb Bool.eqb] in H.
  rewrite (dentist_limited _ _ _ Hlim) in H.
  destruct (new_client svc (timeout cfg) w) as [rc w1]. cbn in Hclient. subst rc.
  cbn [ingest_loop] in H. unfold bind, ret in H.
  destruct (ingest_record svc "calendar" cfg
              (dentist_record, dentist_metadata fname fstem) initial_locals w1)
    as [[t1 w2] r1] eqn:Hs.
  assert (Ht1 : exists outcome,
    List.filter is_store t1
    = [ EvAddMemory
          (py_or (py_or (VStr (user_id cfg)) (VStr fstem)) (VStr "demo_user"))
          "Dentist"
          [ ("connector", VStr "calendar"); ("source", VStr fname);
            ("record_id", VStr "event-0");
            ("timestamp", VStr "2025-03-01T09:00:00+00:00") ]
          false outcome ]).
  { clear H. unfold ingest_record in Hs. rewrite Henrich, Hdry in Hs.
    change (_record_to_plain_text dentist_record) with "Dentist" in Hs.
    cbn [memories_cache initial_locals truthy negb String.eqb Ascii.eqb
         Bool.eqb dentist_metadata dict_set dict_get dict_get_or dict_lookup
         subscript] in Hs.
    split_step Hs;
      try match goal with
          | Hb : negb _ = true |- _ => cbn in Hb; discriminate Hb
          end;
      eexists; reflexivity. }
  destruct Ht1 as [outcome Ht1]. exists outcome.
  destruct r1 as [st1|e]; injection H as <- _ _;
    cbn [app List.filter is_store]; rewrite ?List.filter_app, Ht1; reflexivity.
Qed.

(** C2. Enrichment off, dry run off, no limit below one, and a client
    that could be built: ingesting the calendar file whose only event is
    the dentist event issues exactly one store call; its text is
    ["Dentist"], it asks for verbatim storage, and its metadata is exactly
    connector, source (the file name), record_id ["event-0"] and timestamp
    ["2025-03-01T09:00:00+00:00"].  In every run of [ingest_file] every
    store call passes exactly these four fields; [occurrence_count] is not
    among them. *)
Theorem dentist_end_to_end (cfg : IngestConfig) (w : World)
    (fname fstem : string) t w' r :
  enrich cfg = false -> dry_run cfg = false ->
  (forall n, limit cfg = Some n -> 1 <= n) ->
  fst (new_client svc (timeout cfg) w) = Return tt ->
  ingest_file svc PyDatetime.fromisoformat "calendar"
    (dentist_path fname fstem) cfg w = (t, w', r) ->
  (exists uid outcome,
     List.filter is_store t
     = [ EvAddMemory uid "Dentist"
           [ ("connector", VStr "calendar");
             ("source", VStr fname);
             ("record_id", VStr "event-0");
             ("timestamp", VStr "2025-03-01T09:00:00+00:00") ]
           false outcome ])
  /\ (forall connector path cfg0 w0 t0 w0' r0,
        ingest_file svc parse connector path cfg0 w0 = (t0, w0', r0) ->
        Forall store_passes_four_fields t0)
  /\ ~ In "occurrence_count" stored_keys.
Proof.
  intros Henrich Hdry Hlim Hclient H. split; [|split].
  - destruct (dentist_stored _ _ _ _ _ _ _ Henrich Hdry Hlim Hclient H) as [o Ho].
    eauto.
  - intros connector path cfg0 w0 t0 w0' r0. apply ingest_file_four_fields.
  - cbn. intros [Hk|[Hk|[Hk|[Hk|[]]]]]; discriminate Hk.
Qed.

End PipelineFacts.

(** ** The statements at work on the sample runs *)

Lemma ingest_counts_witness :
  0 <= 5 <= 5 /\ 0 <= 6 <= 6.
Proof.
  pose proof (ingest_counts quiet_services PyDatetime.fromisoformat "calendar"
                week_file [week_file; dentist_file] plain_config tt)
    as [Hfile Hpaths].
  split.
  - apply (Hfile week_trace tt 5 5). vm_compute. reflexivity.
  - apply (Hpaths (week_trace ++ dentist_trace)%list tt 6 6).
    vm_compute. reflexivity.
Defined.

Lemma dry_run_stores_nothing_witness :
  List.filter is_store week_dry_trace = []
  /\ 5 = Z.of_nat (length (gen_items
           (load_calendar_file PyDatetime.fromisoformat week_file))).
Proof.
  assert (Hrun : ingest_file quiet_services PyDatetime.fromisoformat "calendar"
                   week_file (with_dry_run plain_config) tt
                 = (week_dry_trace, tt, Return (5, 0)))
    by (vm_compute; reflexivity).
  destruct (dry_run_stores_nothing quiet_services PyDatetime.fromisoformat
              "calendar" week_file (with_dry_run plain_config) tt
              week_dry_trace tt (Return (5, 0)) eq_refl Hrun)
    as [Hnone Hreturned].
  split; [exact Hnone|].
  destruct (Hreturned 5 0 eq_refl) as (_ & loader & Hloader & _ & Hall).
  injection Hloader as <-. exact (Hall eq_refl).
Defined.

Lemma limit_truncates_witness :
  gen_items (_iter_limited (load_calendar_file PyDatetime.fromisoformat week_file)
               (Some 2))
  = firstn 2 (gen_items (load_calendar_file PyDatetime.fromisoformat week_file))
  /\ 2 = Z.min (Z.max 0 2)
           (Z.of_nat (length (gen_items
              (load_calendar_file PyDatetime.fromisoformat week_file)))).
Proof.
  assert (Hrun : ingest_file quiet_services PyDatetime.fromisoformat "calendar"
                   week_file (with_limit 2 plain_config) tt
                 = (week_limited_trace, tt, Return (2, 2)))
    by (vm_compute; reflexivity).
  exact (proj1 (proj2 (limit_truncates quiet_services PyDatetime.fromisoformat
                  "calendar" week_file (with_limit 2 plain_config) tt
                  (load_calendar_file PyDatetime.fromisoformat)
                  week_limited_trace tt 2 2 eq_refl Hrun)) 2 eq_refl).
Defined.

Lemma dentist_end_to_end_witness :
  exists uid outcome,
    List.filter is_store dentist_trace
    = [ EvAddMemory uid "Dentist"
          [ ("connector", VStr "calendar");
            ("source", VStr "alice.json");
            ("record_id", VStr "event-0");
            ("timestamp", VStr "2025-03-01T09:00:00+00:00") ]
          false outcome ].
Proof.
  apply (dentist_end_to_end quiet_services PyDatetime.fromisoformat
           (with_limit 1 plain_config) tt "alice.json" "alice"
           dentist_trace tt (Return (1, 1))).
  - reflexivity.
  - reflexivity.
  - intros n Hn. injection Hn as <-. lia.
  - reflexivity.
  - vm_compute. reflexivity.
Defined.

Example occurrence_count_third_dentist :
  dict_lookup "occurrence_count" week_third_metadata = Some (VInt 2).
Proof. reflexivity. Qed.

Example week_limit_two :
  snd (sample_run week_file (with_limit 2 plain_config)) = Return (2, 2).
Proof. vm_compute. reflexivity. Qed.

Example week_dry_run :
  snd (sample_run week_file (with_dry_run plain_config)) = Return (5, 0).
Proof. vm_compute. reflexivity. Qed.

(** * Further properties *)

(** ** The loaders *)

Section Loaders.

Variable parse : string -> res PyDatetime.datetime.

Lemma enumerate_items_Forall (P : item -> Prop) (body : nat -> dict -> res item) :
  (forall idx d it, body idx d = Return it -> P it) ->
  forall xs idx, Forall P (gen_items (enumerate_items body idx xs)).
Proof.
  intros Hbody. induction xs as [|x xs IH]; intros idx; cbn; [constructor|].
  destruct x; cbn; try constructor.
  destruct (body idx d) as [it|e] eqn:Hb; cbn; constructor; eauto.
Qed.

Lemma for_each_Forall (P : item -> Prop) (body : nat -> dict -> res item) (v : value) :
  (forall idx d it, body idx d = Return it -> P it) ->
  Forall P (gen_items (for_each body v)).
Proof.
  intros Hbody. destruct v as [| | |s|xs|d|]; cbn; try constructor.
  - destruct s; constructor.
  - now apply enumerate_items_Forall.
  - destruct d; constructor.
Qed.

Lemma calendar_item_stamped path idx ev it :
  calendar_item parse path idx ev = Return it -> stamped path it.
Proof.
  unfold calendar_item, res_bind. intros H.
  repeat match type of H with
         | context [match ?x with _ => _ end] =>
             lazymatch x with
             | context [match _ with _ => _ end] => fail
             | _ => destruct x; try discriminate H
             end
         end;
    injection H as <-; repeat split; cbn; eauto.
Qed.

Lemma vision_item_stamped path idx ex it :
  vision_item path idx ex = Return it -> stamped path it.
Proof.
  unfold vision_item, res_bind. intros H.
  destruct (as_dict _); [|discriminate].
  injection H as <-. repeat split; cbn; eauto.
Qed.

Lemma audio_item_stamped path idx ex it :
  audio_item path idx ex = Return it -> stamped path it.
Proof.
  unfold audio_item, res_bind. intros H.
  destruct (as_dict _); [|discriminate].
  injection H as <-. repeat split; cbn; eauto.
Qed.

Lemma loader_for_cases connector loader :
  loader_for parse connector = Return loader ->
  (connector = "calendar" /\ loader = load_calendar_file parse)
  \/ (connector = "vision" /\ loader = load_vision_file)
  \/ (connector = "audio" /\ loader = load_audio_file).
Proof.
  unfold loader_for. intros H.
  destruct (String.eqb_spec connector "calendar") as [->|_];
    [injection H as <-; auto|].
  destruct (String.eqb_spec connector "vision") as [->|_];
    [injection H as <-; auto|].
  destruct (String.eqb_spec connector "audio") as [->|_];
    [injection H as <-; auto|discriminate].
Qed.

Lemma loader_stamps connector loader path :
  loader_for parse connector = Return loader ->
  Forall (stamped path) (gen_items (loader path)).
Proof.
  intros H.
  destruct (loader_for_cases _ _ H) as [[_ ->]|[[_ ->]|[_ ->]]];
    unfold load_calendar_file, load_vision_file, load_audio_file;
    (destruct (res_bind (document path) as_dict); [|constructor]);
    apply for_each_Forall.
  - apply calendar_item_stamped.
  - apply vision_item_stamped.
  - apply audio_item_stamped.
Qed.

(** X1. Whatever the document holds, every item a loader yields carries in
    its metadata [user_id], the stem of the file name, and [source], the
    file name, and has a [record_id] and a [timestamp] entry; this is what
    [ingest_file] later reads with [metadata['source']]. *)
Theorem loaders_stamp_metadata (connector : string) (loader : Path -> gen item)
    (path : Path) :
  loader_for parse connector = Return loader ->
  Forall (stamped path) (gen_items (loader path)).
Proof. apply loader_stamps. Qed.

End Loaders.

Lemma loaders_stamp_metadata_witness :
  Forall (stamped album_file) (gen_items (load_vision_file album_file)).
Proof.
  exact (loaders_stamp_metadata PyDatetime.fromisoformat "vision"
           load_vision_file album_file eq_refl).
Defined.

Section LoaderCounts.

Variable parse : string -> res PyDatetime.datetime.

Lemma enumerate_items_length_le (body : nat -> dict -> res item) :
  forall xs idx,
    (length (gen_items (enumerate_items body idx xs)) <= length xs)%nat.
Proof.
  induction xs as [|x xs IH]; intros idx; cbn; [lia|].
  destruct (res_bind (as_dict x) (body idx)); cbn; [|lia].
  specialize (IH (S idx)). lia.
Qed.

Lemma enumerate_items_all_ok (ok : value -> bool) (body : nat -> dict -> res item) :
  (forall idx x, ok x = true -> exists it, res_bind (as_dict x) (body idx) = Return it) ->
  forall xs idx,
    forallb ok xs = true ->
    gen_completes (enumerate_items body idx xs) = true
    /\ length (gen_items (enumerate_items body idx xs)) = length xs.
Proof.
  intros Hok. induction xs as [|x xs IH]; intros idx Hall; cbn; [auto|].
  cbn in Hall. apply andb_prop in Hall as [Hx Hxs].
  destruct (Hok idx x Hx) as [it ->]. cbn.
  destruct (IH (S idx) Hxs) as [Hc Hl]. split; [exact Hc|now rewrite Hl].
Qed.

Lemma enumerate_items_first_bad (ok : value -> bool) (body : nat -> dict -> res item) :
  (forall idx x, ok x = true -> exists it, res_bind (as_dict x) (body idx) = Return it) ->
  (forall idx x, ok x = false -> exists e, res_bind (as_dict x) (body idx) = Raise e) ->
  forall good bad rest idx,
    forallb ok good = true -> ok bad = false ->
    gen_completes (enumerate_items body idx (good ++ bad :: rest)) = false
    /\ length (gen_items (enumerate_items body idx (good ++ bad :: rest)))
       = length good.
Proof.
  intros Hok Hbad. induction good as [|x good IH]; intros bad rest idx Hall Hb; cbn.
  - destruct (Hbad idx bad Hb) as [e ->]. auto.
  - cbn in Hall. apply andb_prop in Hall as [Hx Hgood].
    destruct (Hok idx x Hx) as [it ->]. cbn.
    destruct (IH bad rest (S idx) Hgood Hb) as [Hc Hl].
    split; [exact Hc|now rewrite Hl].
Qed.

Lemma calendar_body_ok idx path x :
  element_ok "calendar" x = true ->
  exists it, res_bind (as_dict x) (calendar_item parse path idx) = Return it.
Proof.
  destruct x as [| | | | |ev|]; try discriminate. cbn.
  unfold calendar_item, res_bind.
  destruct (dict_get_or "start" (VDict []) ev); try discriminate.
  destruct (dict_get_or "end" (VDict []) ev); try discriminate.
  intros _. cbn [as_dict].
  repeat match goal with
         | |- context [if ?c then _to_utc parse ?v else _] =>
             let u := fresh "u" in let Hu := fresh "Hu" in
             destruct c;
             [destruct (to_utc_returns parse v) as [u Hu]; rewrite Hu|]
         end; eauto.
Qed.

Lemma calendar_body_bad idx path x :
  element_ok "calendar" x = false ->
  exists e, res_bind (as_dict x) (calendar_item parse path idx) = Raise e.
Proof.
  destruct x as [| | | | |ev|]; cbn; eauto.
  unfold calendar_item, res_bind.
  destruct (dict_get_or "start" (VDict []) ev); cbn; eauto;
    destruct (dict_get_or "end" (VDict []) ev); cbn; eauto; discriminate.
Qed.

Lemma content_body_ok (connector : string) (body : nat -> dict -> res item) idx x :
  nested_keys connector = ["content"] ->
  (forall ex, (exists it, body idx ex = Return it)
              <-> exists c, dict_get_or "content" (VDict []) ex = VDict c) ->
  element_ok connector x = true ->
  exists it, res_bind (as_dict x) (body idx) = Return it.
Proof.
  intros Hk Hbody. unfold element_ok. rewrite Hk.
  destruct x as [| | | | |ex|]; try discriminate. cbn.
  destruct (dict_get_or "content" (VDict []) ex) eqn:Hc; try discriminate.
  intros _. apply Hbody. eauto.
Qed.

Lemma content_body_bad (connector : string) (body : nat -> dict -> res item) idx x :
  nested_keys connector = ["content"] ->
  (forall ex, (exists it, body idx ex = Return it)
              <-> exists c, dict_get_or "content" (VDict []) ex = VDict c) ->
  element_ok connector x = false ->
  exists e, res_bind (as_dict x) (body idx) = Raise e.
Proof.
  intros Hk Hbody. unfold element_ok. rewrite Hk.
  destruct x as [| | | | |ex|]; cbn; eauto.
  destruct (dict_get_or "content" (VDict []) ex) eqn:Hc; try discriminate;
    intros _;
    (destruct (body idx ex) as [it|e] eqn:Hb; [|eauto];
     destruct (proj1 (Hbody ex) (ex_intro _ it Hb)) as [c Hc'];
     rewrite Hc in Hc'; discriminate).
Qed.

Lemma vision_item_content path idx ex :
  (exists it, vision_item path idx ex = Return it)
  <-> exists c, dict_get_or "content" (VDict []) ex = VDict c.
Proof.
  unfold vision_item, res_bind.
  destruct (dict_get_or "content" (VDict []) ex); cbn; split;
    intros [x Hx]; try discriminate; eauto.
Qed.

Lemma audio_item_content path idx ex :
  (exists it, audio_item path idx ex = Return it)
  <-> exists c, dict_get_or "content" (VDict []) ex = VDict c.
Proof.
  unfold audio_item, res_bind.
  destruct (dict_get_or "content" (VDict []) ex); cbn; split;
    intros [x Hx]; try discriminate; eauto.
Qed.

(** The three loaders as one loop over the array of the document *)
Lemma loader_shape connector loader path data :
  loader_for parse connector = Return loader ->
  document path = Return (VDict data) ->
  exists body,
    loader path = for_each body (dict_get_or (array_key connector) (VList []) data)
    /\ (forall idx x, element_ok connector x = true ->
          exists it, res_bind (as_dict x) (body idx) = Return it)
    /\ (forall idx x, element_ok connector x = false ->
          exists e, res_bind (as_dict x) (body idx) = Raise e).
Proof.
  intros H Hdoc.
  destruct (loader_for_cases parse _ _ H) as [[-> ->]|[[-> ->]|[-> ->]]];
    unfold load_calendar_file, load_vision_file, load_audio_file;
    rewrite Hdoc; cbn [res_bind as_dict array_key String.eqb Ascii.eqb Bool.eqb].
  - exists (calendar_item parse path). split; [reflexivity|]. split.
    + intros; now apply calendar_body_ok.
    + intros; now apply calendar_body_bad.
  - exists (vision_item path). split; [reflexivity|]. split.
    + intros idx x. apply content_body_ok; [reflexivity|apply vision_item_content].
    + intros idx x. apply content_body_bad; [reflexivity|apply vision_item_content].
  - exists (audio_item path). split; [reflexivity|]. split.
    + intros idx x. apply content_body_ok; [reflexivity|apply audio_item_content].
    + intros idx x. apply content_body_bad; [reflexivity|apply audio_item_content].
Qed.

(** X2. A document without the array of its connector gives no item and no
    error.  Over an array, a loader yields at most one item per element; it
    yields exactly one per element and ends normally when every element is
    a mapping whose nested mappings (start and end, or content) are
    mappings where present; and it stops with an exception at the first
    element that is not, after the items of the elements before it. *)
Theorem loaders_one_item_per_element (connector : string)
    (loader : Path -> gen item) (path : Path) (data : dict) :
  loader_for parse connector = Return loader ->
  document path = Return (VDict data) ->
  (dict_lookup (array_key connector) data = None -> loader path = GStop)
  /\ forall xs, dict_lookup (array_key connector) data = Some (VList xs) ->
       (length (gen_items (loader path)) <= length xs)%nat
       /\ (forallb (element_ok connector) xs = true ->
           gen_completes (loader path) = true
           /\ length (gen_items (loader path)) = length xs)
       /\ (forall good bad rest,
             xs = (good ++ bad :: rest)%list ->
             forallb (element_ok connector) good = true ->
             element_ok connector bad = false ->
             gen_completes (loader path) = false
             /\ length (gen_items (loader path)) = length good).
Proof.
  intros H Hdoc.
  destruct (loader_shape _ _ _ _ H Hdoc) as (body & -> & Hok & Hbad).
  unfold dict_get_or. split.
  - intros ->. reflexivity.
  - intros xs ->. cbn [for_each]. split; [apply enumerate_items_length_le|].
    split.
    + now apply enumerate_items_all_ok.
    + intros good bad rest ->. now apply enumerate_items_first_bad.
Qed.

End LoaderCounts.

Lemma loaders_one_item_per_element_witness :
  load_calendar_file PyDatetime.fromisoformat empty_file = GStop
  /\ (gen_completes (load_calendar_file PyDatetime.fromisoformat week_file) = true
      /\ length (gen_items (load_calendar_file PyDatetime.fromisoformat week_file))
         = 5%nat)
  /\ (gen_completes (load_calendar_file PyDatetime.fromisoformat broken_week_file)
      = false
      /\ length (gen_items
           (load_calendar_file PyDatetime.fromisoformat broken_week_file))
         = 1%nat).
Proof.
  split; [|split].
  - exact (proj1 (loaders_one_item_per_element PyDatetime.fromisoformat "calendar"
                    (load_calendar_file PyDatetime.fromisoformat) empty_file []
                    eq_refl eq_refl) eq_refl).
  - exact (proj1 (proj2 (proj2 (loaders_one_item_per_element
             PyDatetime.fromisoformat "calendar"
             (load_calendar_file PyDatetime.fromisoformat) week_file _
             eq_refl eq_refl) _ eq_refl)) eq_refl).
  - exact (proj2 (proj2 (proj2 (loaders_one_item_per_element
             PyDatetime.fromisoformat "calendar"
             (load_calendar_file PyDatetime.fromisoformat) broken_week_file _
             eq_refl eq_refl) _ eq_refl))
             [event_named "Dentist"]
             (VDict [("summary", VStr "Gym"); ("start", VStr "monday")])
             [event_named "Lunch"] eq_refl eq_refl eq_refl).
Defined.

(** ** The limited iteration *)

Lemma iter_limited_from_completes {A} (items : gen A) (n : Z) : forall idx,
  gen_completes (iter_limited_from idx items n)
  = gen_completes items
    || (Z.max 0 (n - Z.of_nat idx) <? Z.of_nat (length (gen_items items))).
Proof.
  induction items as [|it rest IH|e]; intros idx; cbn [iter_limited_from].
  - reflexivity.
  - destruct (Z.geb_spec (Z.of_nat idx) n) as [Hge|Hlt].
    + cbn [gen_completes gen_items length].
      destruct (Z.ltb_spec (Z.max 0 (n - Z.of_nat idx))
                  (Z.of_nat (S (length (gen_items rest))))); [|lia].
      now rewrite orb_true_r.
    + cbn [gen_completes gen_items length]. rewrite IH. f_equal.
      destruct (Z.ltb_spec (Z.max 0 (n - Z.of_nat (S idx)))
                  (Z.of_nat (length (gen_items rest))));
        destruct (Z.ltb_spec (Z.max 0 (n - Z.of_nat idx))
                    (Z.of_nat (S (length (gen_items rest))))); try reflexivity; lia.
  - cbn [gen_completes gen_items length orb]. symmetry. apply Z.ltb_ge. lia.
Qed.

(** X3. The limited iteration pulls one item more than it hands on.  Under
    a limit [n] it ends normally exactly when the underlying generator ends
    normally or yields more than [max 0 n] items before it raises: an
    exception after the [n+1]st item is never seen, an exception right
    after the [n]th item is. *)
Theorem iter_limited_completes {A : Type} (items : gen A) (n : Z) :
  gen_completes (_iter_limited items (Some n))
  = gen_completes items
    || (Z.max 0 n <? Z.of_nat (length (gen_items items))).
Proof.
  unfold _iter_limited. rewrite iter_limited_from_completes.
  now replace (n - Z.of_nat 0) with n by lia.
Qed.

Example iter_limited_one_hides_the_error :
  gen_completes (_iter_limited two_then_raise (Some 1)) = true
  /\ gen_completes (_iter_limited two_then_raise (Some 2)) = false.
Proof. split; reflexivity. Qed.

(** ** Failing fast *)

Section FailFast.

Context {World : Type}.
Variable svc : Services World.
Variable parse : string -> res PyDatetime.datetime.

Lemma iter_limited_raise {A} (e : exn) (limit : option Z) :
  _iter_limited (@GRaise A e) limit = GRaise e.
Proof. destruct limit; reflexivity. Qed.

Lemma loader_unreadable connector loader path e :
  loader_for parse connector = Return loader ->
  document path = Raise e ->
  loader path = GRaise e.
Proof.
  intros H Hdoc.
  destruct (loader_for_cases parse _ _ H) as [[_ ->]|[[_ ->]|[_ ->]]];
    unfold load_calendar_file, load_vision_file, load_audio_file;
    now rewrite Hdoc.
Qed.

(** X4. [ingest_file] fails fast.  A connector other than calendar, vision
    and audio is a [KeyError] before anything is called, the client
    included; a client that cannot be built ends the run with its
    exception, before the file is read; and a file that cannot be read or
    parsed ends it with that exception right after the client is built,
    with no fetch, no enrichment and no store. *)
Theorem ingest_file_fails_fast (connector : string) (path : Path)
    (cfg : IngestConfig) (w : World) :
  (connector <> "calendar" -> connector <> "vision" -> connector <> "audio" ->
   ingest_file svc parse connector path cfg w = ([], w, Raise KeyError))
  /\ (forall loader e w1,
        loader_for parse connector = Return loader ->
        new_client svc (timeout cfg) w = (Raise e, w1) ->
        ingest_file svc parse connector path cfg w
        = ([EvClient (timeout cfg) (Raise e)], w1, Raise e))
  /\ (forall loader e w1,
        loader_for parse connector = Return loader ->
        new_client svc (timeout cfg) w = (Return tt, w1) ->
        document path = Raise e ->
        ingest_file svc parse connector path cfg w
        = ([EvClient (timeout cfg) (Return tt)], w1, Raise e)).
Proof.
  unfold ingest_file, bind, lift, call_new_client. repeat split.
  - intros H1 H2 H3. unfold loader_for.
    destruct (String.eqb_spec connector "calendar"); [contradiction|].
    destruct (String.eqb_spec connector "vision"); [contradiction|].
    destruct (String.eqb_spec connector "audio"); [contradiction|reflexivity].
  - intros loader e w1 -> ->. reflexivity.
  - intros loader e w1 Hl Hc Hdoc. rewrite Hl, Hc.
    rewrite (loader_unreadable _ _ _ _ Hl Hdoc), iter_limited_raise.
    reflexivity.
Qed.

End FailFast.

Lemma ingest_file_fails_fast_witness :
  ingest_file quiet_services PyDatetime.fromisoformat "email" week_file
    plain_config tt = ([], tt, Raise KeyError)
  /\ ingest_file no_client_services PyDatetime.fromisoformat "audio" week_file
       plain_config tt = ([EvClient 60 (Raise ServiceError)], tt, Raise ServiceError)
  /\ ingest_file quiet_services PyDatetime.fromisoformat "vision" unreadable_file
       plain_config tt = ([EvClient 60 (Return tt)], tt, Raise ValueError).
Proof.
  split; [|split].
  - apply (proj1 (ingest_file_fails_fast quiet_services PyDatetime.fromisoformat
                    "email" week_file plain_config tt)); discriminate.
  - exact (proj1 (proj2 (ingest_file_fails_fast no_client_services
             PyDatetime.fromisoformat "audio" week_file plain_config tt))
             load_audio_file ServiceError tt eq_refl eq_refl).
  - exact (proj2 (proj2 (ingest_file_fails_fast quiet_services
             PyDatetime.fromisoformat "vision" unreadable_file plain_config tt))
             load_vision_file ValueError tt eq_refl eq_refl eq_refl).
Defined.

(** ** One iteration, in full *)

Section Iteration.

Context {World : Type}.
Variable svc : Services World.

Ltac step_cases H :=
  repeat
    (cbv beta iota zeta delta
       [ingest_record bind ret lift emit try_exceptM call_get_memories
        call_chat call_add_memory grok_enrich subscript fst snd app] in H;
     lazymatch type of H with
     | (_, _, _) = (_, _, _) => fail
     | _ =>
         match type of H with
         | context [match ?x with _ => _ end] =>
             lazymatch x with
             | context [match _ with _ => _ end] => fail
             | _ => destruct x eqn:?
             end
         end
     end);
  try discriminate H;
  injection H as ? ? ?; subst.

Lemma dict_lookup_set_other (key key' : string) (v : value) (d : dict) :
  key <> key' -> dict_lookup key (dict_set key' v d) = dict_lookup key d.
Proof.
  intros Hne. induction d as [|[k x] d IH]; cbn.
  - destruct (String.eqb_spec key' key); [congruence|reflexivity].
  - destruct (String.eqb_spec k key') as [->|Hk]; cbn.
    + destruct (String.eqb_spec key' key); [congruence|reflexivity].
    + destruct (String.eqb k key); [reflexivity|exact IH].
Qed.

Lemma dict_get_set_other (key key' : string) (v : value) (d : dict) :
  key <> key' -> dict_get key (dict_set key' v d) = dict_get key d.
Proof.
  intros Hne. unfold dict_get, dict_get_or. now rewrite dict_lookup_set_other.
Qed.

Lemma dict_get_found (key : string) (d : dict) (v : value) :
  dict_lookup key d = Some v -> dict_get key d = v.
Proof. intros H. unfold dict_get, dict_get_or. now rewrite H. Qed.

Lemma step_return connector cfg record metadata st w t w' st' :
  ingest_record svc connector cfg (record, metadata) st w = (t, w', Return st') ->
  memories_cache st' = Some (cache_in_use st t)
  /\ exists text,
       derived connector cfg record (cache_in_use st t) text t
       /\ delivered connector cfg metadata text t.
Proof.
  intros H. unfold cache_in_use, derived, delivered, resolved_user_id,
    persisted_metadata.
  step_cases H.
  all: repeat match goal with
         | Hb : negb _ = true |- _ => apply negb_true_iff in Hb
         | Hb : negb _ = false |- _ => apply negb_false_iff in Hb
         | Hl : dict_lookup "source" (dict_set _ _ _) = _ |- _ =>
             rewrite !dict_lookup_set_other in Hl by discriminate
         end.
  all: repeat match goal with
         | Hc : memories_cache _ = _ |- _ => rewrite Hc; clear Hc
         | Hc : enrich _ = _ |- _ => rewrite Hc; clear Hc
         | Hc : dry_run _ = _ |- _ => rewrite Hc; clear Hc
         end.
  all: cbn [memories_cache fetched_memories].
  all: rewrite ?dict_get_set_other by discriminate.
  all: (split; [reflexivity|]); eexists; (split;
         [first [ split; reflexivity
                | do 2 eexists; split;
                  [first [reflexivity|eassumption]|split; reflexivity] ]
         |]).
  all: unfold answer_text;
       match goal with
       | Hb : truthy _ = _ |- _ => rewrite Hb
       end.
  all: try (split; reflexivity).
  all: match goal with
       | Hl : dict_lookup "source" _ = Some _ |- _ =>
           rewrite (dict_get_found _ _ _ Hl); rewrite Hl
       end.
  all: split; [eauto|split; reflexivity].
Qed.

Lemma truthy_nonempty (text : string) : truthy (VStr text) = true -> text <> "".
Proof. intros H ->. discriminate H. Qed.

Lemma step_events connector cfg record metadata st w t w' r :
  ingest_record svc connector cfg (record, metadata) st w = (t, w', r) ->
  Forall (well_formed_event cfg (resolved_user_id cfg metadata)) t
  /\ fails_only_last t (raised r).
Proof.
  intros H. unfold resolved_user_id. step_cases H.
  all: repeat match goal with
         | Hb : negb _ = true |- _ => apply negb_true_iff in Hb
         | Hb : negb (truthy _) = false |- _ =>
             apply negb_false_iff, truthy_nonempty in Hb
         end.
  all: split; [repeat constructor; assumption|cbn; auto].
Qed.

(** *** The loop without enrichment *)

Lemma loop_fallback connector cfg items :
  enrich cfg = false ->
  forall st w t w' st',
    ingest_loop svc connector cfg items st w = (t, w', Return st') ->
    chats t = []
    /\ if dry_run cfg
       then reports t = map (raw_report connector)
                          (List.filter has_raw_text (gen_items items))
            /\ store_calls t = []
       else store_calls t = map (raw_store_call connector cfg)
                              (List.filter has_raw_text (gen_items items))
            /\ reports t = [].
Proof.
  intros Henrich.
  induction items as [|[record metadata] rest IH|e]; intros st w t w' st' H;
    cbn [ingest_loop] in H; unfold ret, lift in H.
  - injection H as <- _ _. cbn. destruct (dry_run cfg); auto.
  - unfold bind in H.
    destruct (ingest_record svc connector cfg (record, metadata) st w)
      as [[t1 w1] [st1|e]] eqn:Hs; [|discriminate].
    destruct (ingest_loop svc connector cfg rest st1 w1) as [[t2 w2] r2] eqn:Hl.
    injection H as <- _ ->.
    destruct (step_return _ _ _ _ _ _ _ _ _ Hs) as (_ & text & Hd & Hout).
    unfold derived in Hd. rewrite Henrich in Hd. destruct Hd as [Hc ->].
    destruct (IH _ _ _ _ _ Hl) as [Hc2 Hrest].
    assert (Happ : chats (t1 ++ t2) = (chats t1 ++ chats t2)%list
                   /\ reports (t1 ++ t2) = (reports t1 ++ reports t2)%list
                   /\ store_calls (t1 ++ t2)
                      = (store_calls t1 ++ store_calls t2)%list)
      by (unfold chats, reports, store_calls; now rewrite !omap_app).
    destruct Happ as (-> & -> & ->). rewrite Hc, Hc2.
    split; [reflexivity|].
    cbn [gen_items List.filter].
    change (has_raw_text (record, metadata))
      with (truthy (VStr (_record_to_plain_text record))).
    unfold delivered in Hout.
    destruct (truthy (VStr (_record_to_plain_text record))).
    + destruct Hout as [_ Hout].
      destruct (dry_run cfg); destruct Hout as [-> ->], Hrest as [-> ->];
        split; reflexivity.
    + destruct Hout as [-> ->]. exact Hrest.
  - discriminate.
Qed.

(** *** The loop with enrichment *)

Lemma observers_app (t1 t2 : list event) :
  chats (t1 ++ t2) = (chats t1 ++ chats t2)%list
  /\ answers (t1 ++ t2) = (answers t1 ++ answers t2)%list
  /\ reports (t1 ++ t2) = (reports t1 ++ reports t2)%list
  /\ store_calls (t1 ++ t2) = (store_calls t1 ++ store_calls t2)%list.
Proof. unfold chats, answers, reports, store_calls. now rewrite !omap_app. Qed.

Lemma omap_head {A B} (f : A -> option B) (x : A) (l : list A) :
  omap f (x :: l)
  = match f x with Some y => y :: omap f l | None => omap f l end.
Proof. reflexivity. Qed.

Lemma answers_of_chats (t : list event) :
  answers t
  = omap (fun c => match snd c with Return x => Some x | Raise _ => None end)
      (chats t).
Proof.
  unfold answers, chats. induction t as [|e t IH]; [reflexivity|].
  destruct e as [| | ? ? ? [c|x] | | |]; cbn; now rewrite ?IH.
Qed.

Lemma loop_enriched_cached connector cfg items :
  enrich cfg = true ->
  forall st w t w' st' c,
    memories_cache st = Some c ->
    ingest_loop svc connector cfg items st w = (t, w', Return st') ->
    Forall2 (request_for connector cfg c) (gen_items items) (chats t)
    /\ length (answers t) = length (gen_items items)
    /\ if dry_run cfg
       then reports t = omap (enriched_report connector)
                          (zip (gen_items items) (answers t))
            /\ store_calls t = []
       else store_calls t = omap (enriched_store_call connector cfg)
                              (zip (gen_items items) (answers t))
            /\ reports t = [].
Proof.
  intros Henrich.
  induction items as [|[record metadata] rest IH|e]; intros st w t w' st' c Hcache H;
    cbn [ingest_loop] in H; unfold ret, lift in H.
  - injection H as <- _ _. cbn. split; [constructor|]. split; [reflexivity|].
    destruct (dry_run cfg); auto.
  - unfold bind in H.
    destruct (ingest_record svc connector cfg (record, metadata) st w)
      as [[t1 w1] [st1|e]] eqn:Hs; [|discriminate].
    destruct (ingest_loop svc connector cfg rest st1 w1) as [[t2 w2] r2] eqn:Hl.
    injection H as <- _ ->.
    destruct (step_return _ _ _ _ _ _ _ _ _ Hs) as (Hnext & text & Hd & Hout).
    unfold cache_in_use in Hnext, Hd. rewrite Hcache in Hnext, Hd.
    unfold derived in Hd. rewrite Henrich in Hd.
    destruct Hd as (usr & content & Hdumps & Hchat & ->).
    destruct (IH _ _ _ _ _ c Hnext Hl) as (Hreq & Hlen & Hrest).
    assert (Hans : answers t1 = [content])
      by (rewrite answers_of_chats, Hchat; reflexivity).
    destruct (observers_app t1 t2) as (-> & -> & -> & ->).
    rewrite Hchat, Hans. cbn [gen_items app length zip zip_with].
    split; [constructor; [exists usr, content; auto|exact Hreq]|].
    split; [now rewrite Hlen|].
    rewrite !omap_head.
    unfold enriched_report at 1, enriched_store_call at 1. cbn [fst snd].
    unfold delivered in Hout.
    destruct (truthy (VStr (answer_text content))).
    + destruct Hout as [_ Hout].
      destruct (dry_run cfg); destruct Hout as [-> ->], Hrest as [-> ->];
        split; reflexivity.
    + destruct Hout as [-> ->]. exact Hrest.
  - discriminate.
Qed.

Lemma loop_enriched connector cfg items st w t w' st' :
  enrich cfg = true ->
  memories_cache st = None ->
  ingest_loop svc connector cfg items st w = (t, w', Return st') ->
  Forall2 (request_for connector cfg (fetched_memories t)) (gen_items items) (chats t)
  /\ length (answers t) = length (gen_items items)
  /\ if dry_run cfg
     then reports t = omap (enriched_report connector)
                        (zip (gen_items items) (answers t))
          /\ store_calls t = []
     else store_calls t = omap (enriched_store_call connector cfg)
                            (zip (gen_items items) (answers t))
          /\ reports t = [].
Proof.
  intros Henrich Hcache H.
  destruct items as [|[record metadata] rest|e];
    cbn [ingest_loop] in H; unfold ret, lift in H.
  - injection H as <- _ _. cbn. split; [constructor|]. split; [reflexivity|].
    destruct (dry_run cfg); auto.
  - unfold bind in H.
    destruct (ingest_record svc connector cfg (record, metadata) st w)
      as [[t1 w1] [st1|e]] eqn:Hs; [|discriminate].
    destruct (ingest_loop svc connector cfg rest st1 w1) as [[t2 w2] r2] eqn:Hl.
    injection H as <- _ ->.
    destruct (step_return _ _ _ _ _ _ _ _ _ Hs) as (Hnext & text & Hd & Hout).
    pose proof (step_fetch svc connector cfg record metadata st w t1 w1
                  (Return st1) [record] Hs (or_introl eq_refl)) as Hfetch.
    rewrite Hcache in Hfetch. destruct Hfetch as (uid & r0 & t1' & Ht1 & _).
    assert (Hmems : fetched_memories (t1 ++ t2) = cache_in_use st t1).
    { unfold cache_in_use. rewrite Hcache, Ht1. destruct r0; reflexivity. }
    rewrite Hmems.
    unfold derived in Hd. rewrite Henrich in Hd.
    destruct Hd as (usr & content & Hdumps & Hchat & ->).
    destruct (loop_enriched_cached connector cfg rest Henrich _ _ _ _ _ _ Hnext Hl)
      as (Hreq & Hlen & Hrest).
    assert (Hans : answers t1 = [content])
      by (rewrite answers_of_chats, Hchat; reflexivity).
    destruct (observers_app t1 t2) as (-> & -> & -> & ->).
    rewrite Hchat, Hans. cbn [gen_items app length zip zip_with].
    split; [constructor; [exists usr, content; auto|exact Hreq]|].
    split; [now rewrite Hlen|].
    rewrite !omap_head.
    unfold enriched_report at 1, enriched_store_call at 1. cbn [fst snd].
    unfold delivered in Hout.
    destruct (truthy (VStr (answer_text content))).
    + destruct Hout as [_ Hout].
      destruct (dry_run cfg); destruct Hout as [-> ->], Hrest as [-> ->];
        split; reflexivity.
    + destruct Hout as [-> ->]. exact Hrest.
  - discriminate.
Qed.

(** *** Every event of the loop *)

Lemma fails_only_last_calm (t : list event) :
  fails_only_last t None -> Forall (fun e => failure e = None) t.
Proof.
  induction t as [|e t IH]; cbn; [constructor|].
  destruct (failure e) eqn:He; [intros [_ H]; discriminate H|].
  intros H. constructor; auto.
Qed.

Lemma fails_only_last_app (t1 t2 : list event) (err : option exn) :
  Forall (fun e => failure e = None) t1 ->
  fails_only_last t2 err -> fails_only_last (t1 ++ t2) err.
Proof.
  induction 1 as [|e t1 He _ IH]; intros H2; cbn; [exact H2|].
  rewrite He. auto.
Qed.

Lemma fails_only_last_split (t : list event) (err : option exn) :
  fails_only_last t err ->
  forall before e after x,
    t = (before ++ e :: after)%list -> failure e = Some x ->
    after = [] /\ err = Some x.
Proof.
  induction t as [|e0 t IH]; intros H before e after x Ht He.
  - now destruct before.
  - cbn in H. destruct before as [|b before]; cbn in Ht; injection Ht as -> ->.
    + now rewrite He in H.
    + destruct (failure b); [|exact (IH H _ _ _ _ eq_refl He)].
      destruct H as [H _]. now destruct before.
Qed.

Lemma loop_events connector cfg uid items : forall st w t w' r,
  Forall (fun it => resolved_user_id cfg (snd it) = uid) (gen_items items) ->
  ingest_loop svc connector cfg items st w = (t, w', r) ->
  Forall (well_formed_event cfg uid) t /\ fails_only_last t (raised r).
Proof.
  induction items as [|[record metadata] rest IH|e]; intros st w t w' r Huid H;
    cbn [ingest_loop] in H; unfold ret, lift in H.
  - injection H as <- _ <-. split; [constructor|exact I].
  - unfold bind in H. cbn [gen_items] in Huid.
    pose proof (List.Forall_inv Huid) as Hit.
    pose proof (List.Forall_inv_tail Huid) as Hrest. cbn [snd] in Hit.
    destruct (ingest_record svc connector cfg (record, metadata) st w)
      as [[t1 w1] r1] eqn:Hs.
    destruct (step_events _ _ _ _ _ _ _ _ _ Hs) as [Hev Hfail].
    rewrite Hit in Hev.
    destruct r1 as [st1|e].
    + destruct (ingest_loop svc connector cfg rest st1 w1) as [[t2 w2] r2] eqn:Hl.
      injection H as <- _ <-.
      destruct (IH _ _ _ _ _ Hrest Hl) as [Hev2 Hfail2].
      split; [now apply Forall_app|].
      apply fails_only_last_app; [now apply fails_only_last_calm|exact Hfail2].
    + injection H as <- _ <-. now split.
  - injection H as <- _ <-. split; [constructor|exact I].
Qed.

End Iteration.

(** ** Whole runs *)

Section Runs.

Context {World : Type}.
Variable svc : Services World.
Variable parse : string -> res PyDatetime.datetime.

Lemma observers_after_client (tmo : Z) (rc : res unit) (t : list event) :
  chats (EvClient tmo rc :: t) = chats t
  /\ answers (EvClient tmo rc :: t) = answers t
  /\ reports (EvClient tmo rc :: t) = reports t
  /\ store_calls (EvClient tmo rc :: t) = store_calls t
  /\ fetched_memories (EvClient tmo rc :: t) = fetched_memories t.
Proof. repeat split. Qed.

(** A run that returns is the client and then the loop over the limited
    loader. *)
Lemma returning_run connector loader path cfg w t w' p s :
  loader_for parse connector = Return loader ->
  ingest_file svc parse connector path cfg w = (t, w', Return (p, s)) ->
  exists w1 t2 st,
    ingest_loop svc connector cfg (_iter_limited (loader path) (limit cfg))
      initial_locals w1 = (t2, w', Return st)
    /\ t = EvClient (timeout cfg) (Return tt) :: t2.
Proof.
  intros Hload H. apply ingest_file_inv in H.
  destruct H as [(_ & _ & H)|(loader' & rc & w1 & Hload' & _ & H)];
    [discriminate|].
  rewrite Hload in Hload'. injection Hload' as <-.
  destruct H as [(e & _ & _ & H)|(t2 & r2 & -> & Hl & -> & H)]; [discriminate|].
  destruct r2 as [st|e]; [|discriminate]. eauto.
Qed.

(** X5. Without enrichment, a run that returns sends no chat request, and
    what it does is read off the records: for each record of the limited
    loader whose raw text is not empty, in order, one store call with the
    resolved user id, that text, the four persisted fields taken from the
    metadata of the record and [infer=False] -- or, in a dry run, one
    dry-run line with the connector, the source and that text -- and
    nothing else. *)
Theorem fallback_run_outputs (connector : string) (loader : Path -> gen item)
    (path : Path) (cfg : IngestConfig) (w : World) t w' p s :
  enrich cfg = false ->
  loader_for parse connector = Return loader ->
  ingest_file svc parse connector path cfg w = (t, w', Return (p, s)) ->
  let records :=
    List.filter has_raw_text
      (gen_items (_iter_limited (loader path) (limit cfg))) in
  chats t = []
  /\ (dry_run cfg = false ->
      store_calls t = map (raw_store_call connector cfg) records
      /\ reports t = [])
  /\ (dry_run cfg = true ->
      reports t = map (raw_report connector) records
      /\ store_calls t = []).
Proof.
  intros Henrich Hload H. cbv zeta.
  destruct (returning_run _ _ _ _ _ _ _ _ _ Hload H) as (w1 & t2 & st & Hl & ->).
  destruct (observers_after_client (timeout cfg) (Return tt) t2)
    as (-> & _ & -> & -> & _).
  destruct (loop_fallback svc connector cfg _ Henrich _ _ _ _ _ Hl) as [Hc Hout].
  split; [exact Hc|].
  destruct (dry_run cfg); split; intros Hd; try discriminate Hd; tauto.
Qed.

(** X6. With enrichment, a run that returns sends exactly one chat request
    per record of the limited loader, in order, each with the configured
    model, the fixed system turn and the JSON of the note, the record and
    the memories selected from the fetched list; every request was
    answered; and for each record whose answer, stripped, is not empty, in
    order, it makes one store call with the resolved user id, that text,
    the four persisted fields and [infer=False] -- or one dry-run line in a
    dry run -- and nothing else. *)
Theorem enriched_run_outputs (connector : string) (loader : Path -> gen item)
    (path : Path) (cfg : IngestConfig) (w : World) t w' p s :
  enrich cfg = true ->
  loader_for parse connector = Return loader ->
  ingest_file svc parse connector path cfg w = (t, w', Return (p, s)) ->
  let records := gen_items (_iter_limited (loader path) (limit cfg)) in
  Forall2 (request_for connector cfg (fetched_memories t)) records (chats t)
  /\ length (answers t) = length records
  /\ (dry_run cfg = false ->
      store_calls t
      = omap (enriched_store_call connector cfg) (zip records (answers t))
      /\ reports t = [])
  /\ (dry_run cfg = true ->
      reports t = omap (enriched_report connector) (zip records (answers t))
      /\ store_calls t = []).
Proof.
  intros Henrich Hload H. cbv zeta.
  destruct (returning_run _ _ _ _ _ _ _ _ _ Hload H) as (w1 & t2 & st & Hl & ->).
  destruct (observers_after_client (timeout cfg) (Return tt) t2)
    as (-> & -> & -> & -> & ->).
  destruct (loop_enriched svc connector cfg _ initial_locals _ _ _ _ Henrich
              eq_refl Hl)
    as (Hreq & Hlen & Hout).
  split; [exact Hreq|]. split; [exact Hlen|].
  destruct (dry_run cfg); split; intros Hd; try discriminate Hd; tauto.
Qed.

Lemma limited_items_Forall {A} (P : A -> Prop) (items : gen A) (limit : option Z) :
  Forall P (gen_items items) -> Forall P (gen_items (_iter_limited items limit)).
Proof.
  intros H. rewrite iter_limited_items. destruct limit; [|exact H].
  now apply Forall_take.
Qed.

Lemma stamped_user_id cfg path it :
  stamped path it -> resolved_user_id cfg (snd it) = file_user_id cfg path.
Proof.
  intros (Hu & _). unfold resolved_user_id, file_user_id.
  now rewrite (dict_get_found _ _ _ Hu).
Qed.

(** Every event of a run, whatever its end *)
Lemma run_events connector loader path cfg w t w' r :
  loader_for parse connector = Return loader ->
  ingest_file svc parse connector path cfg w = (t, w', r) ->
  Forall (well_formed_event cfg (file_user_id cfg path)) t
  /\ fails_only_last t (raised r).
Proof.
  intros Hload H. apply ingest_file_inv in H.
  destruct H as [(Hk & _ & _)|(loader' & rc & w1 & Hload' & _ & H)];
    [rewrite Hload in Hk; discriminate|].
  rewrite Hload in Hload'. injection Hload' as <-.
  destruct H as [(e & -> & -> & ->)|(t2 & r2 & -> & Hl & -> & ->)].
  - split; [repeat constructor|cbn; auto].
  - assert (Hitems : Forall (fun it => resolved_user_id cfg (snd it)
                                       = file_user_id cfg path)
                       (gen_items (_iter_limited (loader path) (limit cfg)))).
    { apply limited_items_Forall.
      eapply Forall_impl; [exact (loader_stamps parse _ _ path Hload)|].
      intros it. apply stamped_user_id. }
    destruct (loop_events svc connector cfg _ _ _ _ _ _ _ Hitems Hl) as [Hev Hfail].
    split; [constructor; [exact I|exact Hev]|].
    cbn. now destruct r2.
Qed.

Lemma truthy_resolved (a b : value) : truthy (py_or (py_or a b) (VStr "demo_user")) = true.
Proof.
  unfold py_or. destruct (truthy a) eqn:Ha; [now rewrite Ha|].
  destruct (truthy b) eqn:Hb; [exact Hb|reflexivity].
Qed.

(** X7. All the calls of a run are made for one user id: the one of the
    configuration if it is not empty, else the stem of the file name if
    that is not empty, else ["demo_user"].  It is never empty.  Every fetch
    and every store call carries it, every store call and dry-run line has
    a non-empty text, every store call asks for verbatim storage, and every
    chat request names the configured model and the fixed system turn. *)
Theorem calls_of_one_user (connector : string) (loader : Path -> gen item)
    (path : Path) (cfg : IngestConfig) (w : World) t w' r :
  loader_for parse connector = Return loader ->
  ingest_file svc parse connector path cfg w = (t, w', r) ->
  Forall (well_formed_event cfg (file_user_id cfg path)) t
  /\ truthy (file_user_id cfg path) = true
  /\ (user_id cfg <> "" -> file_user_id cfg path = VStr (user_id cfg))
  /\ (user_id cfg = "" -> stem path <> "" ->
      file_user_id cfg path = VStr (stem path))
  /\ (user_id cfg = "" -> stem path = "" ->
      file_user_id cfg path = VStr "demo_user").
Proof.
  intros Hload H. split; [exact (proj1 (run_events _ _ _ _ _ _ _ _ Hload H))|].
  split; [apply truthy_resolved|]. unfold file_user_id, py_or. cbn [truthy].
  repeat split.
  - intros Hne. apply String.eqb_neq in Hne. rewrite !Hne. cbn.
    now rewrite Hne.
  - intros -> Hne. apply String.eqb_neq in Hne. cbn. now rewrite !Hne.
  - intros -> ->. reflexivity.
Qed.

(** X8. An exception of the client construction, of a chat request or of a
    store call is not caught: the call that raised is the last event of the
    run, the run raises that very exception, and the store calls made
    before it stay made.  A run that returns has seen no such exception.
    (An exception of the fetch is caught and is no failure in this sense.) *)
Theorem uncaught_failure_ends_the_run (connector : string) (path : Path)
    (cfg : IngestConfig) (w : World) t w' r :
  ingest_file svc parse connector path cfg w = (t, w', r) ->
  (forall before e after x,
     t = (before ++ e :: after)%list -> failure e = Some x ->
     after = [] /\ r = Raise x)
  /\ (forall v, r = Return v -> Forall (fun e => failure e = None) t).
Proof.
  intros H.
  assert (Hfail : fails_only_last t (raised r)).
  { destruct (loader_for parse connector) as [loader|e] eqn:Hload.
    - exact (proj2 (run_events _ _ _ _ _ _ _ _ Hload H)).
    - apply ingest_file_inv in H.
      destruct H as [(_ & -> & _)|(loader & ? & ? & Hl & _)];
        [exact I|congruence]. }
  split.
  - intros before e after x Ht He.
    destruct (fails_only_last_split _ _ Hfail _ _ _ _ Ht He) as [Ha Hr].
    split; [exact Ha|]. destruct r; [discriminate Hr|].
    cbn in Hr. now injection Hr as ->.
  - intros v ->. now apply fails_only_last_calm.
Qed.

(** X9. What [ingest_file] asks of the memory manager always passes the
    manager's own checks: for every store call of a run, [add_memory] with
    that user id, text and metadata goes to the mem0 client as a text call
    with [infer=False], and for every fetch, [get_memories] goes to
    [get_all]; the [ValueError]s of the manager are never raised. *)
Theorem calls_pass_the_manager_checks (connector : string)
    (loader : Path -> gen item) (path : Path) (cfg : IngestConfig)
    (w : World) t w' r :
  loader_for parse connector = Return loader ->
  ingest_file svc parse connector path cfg w = (t, w', r) ->
  Forall passes_the_checks t.
Proof.
  intros Hload H.
  pose proof (proj1 (run_events _ _ _ _ _ _ _ _ Hload H)) as Hev.
  pose proof (truthy_resolved (VStr (user_id cfg)) (VStr (stem path))) as Huid.
  fold (file_user_id cfg path) in Huid.
  eapply Forall_impl; [exact Hev|].
  intros [| uid o | | | |uid text md infer o]; cbn; try exact (fun _ => I).
  - intros -> W client w0. unfold MemoryManager.get_memories.
    rewrite Huid. cbn. now destruct (MemoryManager.get_all client _ w0).
  - intros (-> & Htext & ->) W client w0. unfold MemoryManager.add_memory.
    rewrite Huid. cbn.
    destruct (String.eqb_spec text ""); [contradiction|reflexivity].
Qed.

End Runs.

(** ** The whole-run statements on sample runs *)

Lemma fallback_run_outputs_witness :
  store_calls week_trace
  = map (raw_store_call "calendar" plain_config)
      (List.filter has_raw_text
         (gen_items (_iter_limited
            (load_calendar_file PyDatetime.fromisoformat week_file) None)))
  /\ reports week_dry_trace
     = map (raw_report "calendar")
         (List.filter has_raw_text
            (gen_items (_iter_limited
               (load_calendar_file PyDatetime.fromisoformat week_file) None))).
Proof.
  assert (Hrun : ingest_file quiet_services PyDatetime.fromisoformat "calendar"
                   week_file plain_config tt = (week_trace, tt, Return (5, 5)))
    by (vm_compute; reflexivity).
  assert (Hdry : ingest_file quiet_services PyDatetime.fromisoformat "calendar"
                   week_file (with_dry_run plain_config) tt
                 = (week_dry_trace, tt, Return (5, 0)))
    by (vm_compute; reflexivity).
  split.
  - exact (proj1 (proj1 (proj2 (fallback_run_outputs quiet_services
             PyDatetime.fromisoformat "calendar"
             (load_calendar_file PyDatetime.fromisoformat) week_file plain_config
             tt week_trace tt 5 5 eq_refl eq_refl Hrun)) eq_refl)).
  - exact (proj1 (proj2 (proj2 (fallback_run_outputs quiet_services
             PyDatetime.fromisoformat "calendar"
             (load_calendar_file PyDatetime.fromisoformat) week_file
             (with_dry_run plain_config)
             tt week_dry_trace tt 5 0 eq_refl eq_refl Hdry)) eq_refl)).
Defined.

Lemma enriched_run_outputs_witness :
  length (answers (fst (fst week_enriched_run))) = 5%nat
  /\ store_calls (fst (fst week_enriched_run))
     = omap (enriched_store_call "calendar" (with_enrich plain_config))
         (zip (gen_items (_iter_limited
                 (load_calendar_file PyDatetime.fromisoformat week_file) None))
              (answers (fst (fst week_enriched_run)))).
Proof.
  assert (Hrun : ingest_file answering_services PyDatetime.fromisoformat "calendar"
                   week_file (with_enrich plain_config) tt
                 = (fst (fst week_enriched_run), tt, Return (5, 3)))
    by (vm_compute; reflexivity).
  pose proof (enriched_run_outputs answering_services PyDatetime.fromisoformat
                "calendar" (load_calendar_file PyDatetime.fromisoformat)
                week_file (with_enrich plain_config) tt _ tt 5 3
                eq_refl eq_refl Hrun) as (_ & Hlen & Hstore & _).
  split; [exact Hlen|exact (proj1 (Hstore eq_refl))].
Defined.

Lemma calls_of_one_user_witness :
  Forall (well_formed_event no_user_config (VStr "week"))
    (fst (fst week_stem_run)).
Proof.
  assert (Hrun : ingest_file quiet_services PyDatetime.fromisoformat "calendar"
                   week_file no_user_config tt
                 = (fst (fst week_stem_run), tt, Return (5, 5)))
    by (vm_compute; reflexivity).
  exact (proj1 (calls_of_one_user quiet_services PyDatetime.fromisoformat
                  "calendar" (load_calendar_file PyDatetime.fromisoformat)
                  week_file no_user_config tt _ tt _ eq_refl Hrun)).
Defined.

Lemma uncaught_failure_ends_the_run_witness :
  snd week_failing_run = Raise ServiceError.
Proof.
  assert (Hrun : ingest_file failing_store_services PyDatetime.fromisoformat
                   "calendar" week_file plain_config tt
                 = (fst (fst week_failing_run), tt, snd week_failing_run))
    by (vm_compute; reflexivity).
  refine (proj2 (proj1 (uncaught_failure_ends_the_run failing_store_services
            PyDatetime.fromisoformat "calendar" week_file plain_config tt
            _ tt _ Hrun)
            (firstn 3 (fst (fst week_failing_run)))
            (EvAddMemory (VStr "demo_user") "Dentist"
               (persisted_metadata "calendar"
                  [("source", VStr "week.json"); ("record_id", VStr "event-0")])
               false (Raise ServiceError))
            [] ServiceError _ eq_refl)).
  vm_compute. reflexivity.
Defined.

Lemma calls_pass_the_manager_checks_witness :
  Forall passes_the_checks week_trace.
Proof.
  assert (Hrun : ingest_file quiet_services PyDatetime.fromisoformat "calendar"
                   week_file plain_config tt = (week_trace, tt, Return (5, 5)))
    by (vm_compute; reflexivity).
  exact (calls_pass_the_manager_checks quiet_services PyDatetime.fromisoformat
           "calendar" (load_calendar_file PyDatetime.fromisoformat)
           week_file plain_config tt week_trace tt _ eq_refl Hrun).
Defined.

Example week_enriched_result : snd week_enriched_run = Return (5, 3).
Proof. reflexivity. Qed.

Example week_failing_trace_length :
  length (fst (fst week_failing_run)) = 4%nat.
Proof. reflexivity. Qed.

(** * The memory manager *)

Section Manager.

Context {World : Type}.
Variable client : MemoryManager.Mem0 World.

(** X10.  [MemoryManager.get_memories] at its edges.  A falsy user id
    raises [ValueError] and the client is not called.  Otherwise the
    filter names that user, and: a failure of the client propagates; a list
    answer, or an answer with a list under ["results"], gives one memory
    per element, in order; an answer whose ["results"] is [None], a
    boolean or a number raises [TypeError]; and a mapping without
    ["results"] comes back as the single memory. *)
Theorem get_memories_shapes (uid : value) (w : World) :
  (truthy uid = false ->
     MemoryManager.get_memories client uid w = (Raise ValueError, w))
  /\ (truthy uid = true ->
      forall r w',
        MemoryManager.get_all client
          (VDict [("AND", VList [VDict [("user_id", uid)]])]) w = (r, w') ->
        (forall e, r = Raise e ->
           MemoryManager.get_memories client uid w = (Raise e, w'))
        /\ (forall xs d,
              r = Return (VList xs)
              \/ (r = Return (VDict d)
                  /\ dict_lookup "results" d = Some (VList xs)) ->
              exists mems,
                MemoryManager.get_memories client uid w = (Return mems, w')
                /\ length mems = length xs
                /\ mems = map MemoryManager._coerce_record xs)
        /\ (forall d v,
              r = Return (VDict d) ->
              dict_lookup "results" d = Some v ->
              match v with
              | VNone | VBool _ | VInt _ | VOther _ _ => True
              | _ => False
              end ->
              MemoryManager.get_memories client uid w = (Raise TypeError, w'))
        /\ (forall d,
              r = Return (VDict d) ->
              dict_lookup "results" d = None ->
              MemoryManager.get_memories client uid w = (Return [d], w'))).
Proof.
  unfold MemoryManager.get_memories, MemoryManager.filters. split.
  - now intros ->.
  - intros -> r w' ->. cbn [negb]. repeat split.
    + now intros e ->.
    + intros xs d [->|[-> Hd]]; cbn [res_bind MemoryManager.normalise].
      * eexists. split; [reflexivity|]. split; [now rewrite length_map|reflexivity].
      * rewrite Hd. cbn [MemoryManager.iterate res_bind].
        eexists. split; [reflexivity|]. split; [now rewrite length_map|reflexivity].
    + intros d v -> Hd Hv. cbn [res_bind MemoryManager.normalise]. rewrite Hd.
      destruct v; try contradiction; reflexivity.
    + intros d -> Hd. cbn [res_bind MemoryManager.normalise]. now rewrite Hd.
Qed.

(** X12.  [MemoryManager.add_memory]: the client is called only for a
    non-empty user id with exactly one of [text] and [messages]; every
    other call raises [ValueError] and leaves the client alone.  Messages
    go out without [infer], a text goes out with the caller's [infer]. *)
Theorem add_memory_contract (uid text messages md : value) (infer : bool)
    (w : World) :
  (truthy uid && xorb (truthy text) (truthy messages) = false ->
     MemoryManager.add_memory client uid text messages md infer w
     = (Raise ValueError, w))
  /\ (truthy uid = true -> truthy text = false -> truthy messages = true ->
      MemoryManager.add_memory client uid text messages md infer w
      = MemoryManager.add client (MemoryManager.AddMessages messages uid md) w)
  /\ (truthy uid = true -> truthy text = true -> truthy messages = false ->
      MemoryManager.add_memory client uid text messages md infer w
      = MemoryManager.add client (MemoryManager.AddText text uid md infer) w).
Proof.
  unfold MemoryManager.add_memory.
  destruct (truthy uid), (truthy text), (truthy messages); cbn;
    repeat split; intros; try discriminate; reflexivity.
Qed.

End Manager.

Lemma get_memories_shapes_witness :
  exists mems,
    MemoryManager.get_memories sample_mem0 (VStr "demo_user") tt
    = (Return mems, tt)
    /\ length mems = 4%nat.
Proof.
  destruct (proj1 (proj2 (proj2 (get_memories_shapes sample_mem0
              (VStr "demo_user") tt) eq_refl _ tt eq_refl))
            [ VDict [("memory", VStr "Dentist on main street")];
              VStr "stray"; VInt 7;
              VDict [("memory", VStr "Tuesday morning gym")] ]
            [("results",
              VList [ VDict [("memory", VStr "Dentist on main street")];
                      VStr "stray"; VInt 7;
                      VDict [("memory", VStr "Tuesday morning gym")] ])]
            (or_intror (conj eq_refl eq_refl)))
    as (mems & Hrun & Hlen & _).
  exists mems. split; [exact Hrun|exact Hlen].
Defined.

Lemma add_memory_contract_witness :
  MemoryManager.add_memory sample_mem0 (VStr "alice") (VStr "I love pizza")
    (VList [VDict [("role", VStr "user")]]) VNone true tt
  = (Raise ValueError, tt)
  /\ MemoryManager.add_memory sample_mem0 (VStr "alice") (VStr "I love pizza")
       VNone VNone false tt
     = MemoryManager.add sample_mem0
         (MemoryManager.AddText (VStr "I love pizza") (VStr "alice") VNone false) tt.
Proof.
  split.
  - exact (proj1 (add_memory_contract sample_mem0 (VStr "alice")
             (VStr "I love pizza") (VList [VDict [("role", VStr "user")]])
             VNone true tt) eq_refl).
  - exact (proj2 (proj2 (add_memory_contract sample_mem0 (VStr "alice")
             (VStr "I love pizza") VNone VNone false tt)) eq_refl eq_refl eq_refl).
Defined.

(** ** The manager's memories in the selector *)

Lemma score_memories_coerced (rt : gset string) (xs : list value) :
  score_memories rt (map MemoryManager._coerce_record xs)
  = score_memories rt (mappings xs).
Proof.
  assert (Hw : forall v, (0 <? overlap rt (memory_text [("value", v)]))%nat = false).
  { intros v. change (memory_text [("value", v)]) with (VStr "").
    apply Nat.ltb_ge. unfold overlap.
    change (tokenize (VStr "")) with (@nil string).
    cbn [list_to_set]. rewrite (right_absorb_L ∅ (∩)). now rewrite size_empty. }
  induction xs as [|x xs IH]; [reflexivity|].
  destruct x; cbn [map MemoryManager._coerce_record mappings score_memories];
    rewrite ?Hw, ?IH; reflexivity.
Qed.

(** X11.  What [get_memories] wraps is never picked as context: on the
    memories made from a response, the selector returns what it returns on
    the mappings of that response alone, for every record and every
    count. *)
Theorem wrapped_memories_never_selected (record : dict) (xs : list value)
    (max_items : Z) :
  _select_context_mems record (map MemoryManager._coerce_record xs) max_items
  = _select_context_mems record (mappings xs) max_items.
Proof.
  unfold _select_context_mems. now rewrite score_memories_coerced.
Qed.

(** * The tokens of the selector *)

Lemma all_chars_of_list (p : ascii -> bool) (l : list ascii) :
  all_chars p (string_of_list_ascii l) = forallb p l.
Proof. induction l as [|c l IH]; cbn; [reflexivity|now rewrite IH]. Qed.

Lemma forallb_reversed (p : ascii -> bool) (l : list ascii) :
  forallb p l = true -> forallb p (rev l) = true.
Proof.
  rewrite !forallb_forall. intros H x Hx. apply H. now apply in_rev.
Qed.

(** What [lower] and the two [replace] calls leave of a character is a
    blank or a character of a word. *)
Lemma prepared_char (c : ascii) :
  let c1 := PyStr.lower_char c in
  let c2 := if Ascii.eqb c1 "," then " "%char else c1 in
  let c3 := if Ascii.eqb c2 "." then " "%char else c2 in
  PyStr.isspace c3 || word_char c3 = true.
Proof. destruct c as [[] [] [] [] [] [] [] []]; vm_compute; reflexivity. Qed.

Lemma prepared_string (s : string) :
  all_chars (fun c => PyStr.isspace c || word_char c)
    (PyStr.replace_char "." " " (PyStr.replace_char "," " " (PyStr.lower s)))
  = true.
Proof.
  induction s as [|c s IH]; [reflexivity|].
  cbn [PyStr.lower PyStr.replace_char all_chars].
  rewrite IH, andb_true_r. apply prepared_char.
Qed.

Lemma split_go_words (cur : list ascii) (s : string) :
  forallb word_char cur = true ->
  all_chars (fun c => PyStr.isspace c || word_char c) s = true ->
  Forall (fun w => all_chars word_char w = true) (PyStr.split_go cur s).
Proof.
  revert cur. induction s as [|c s IH]; intros cur Hcur Hs.
  - cbn [PyStr.split_go]. destruct cur as [|a cur]; constructor; [|constructor].
    rewrite all_chars_of_list. now apply forallb_reversed.
  - cbn [PyStr.split_go all_chars] in *.
    apply andb_true_iff in Hs as [Hc Hs].
    destruct (PyStr.isspace c) eqn:Hsp.
    + destruct cur as [|a cur]; [now apply IH|].
      constructor; [|now apply IH].
      rewrite all_chars_of_list. now apply forallb_reversed.
    + apply IH; [|exact Hs]. cbn [forallb]. cbn in Hc. now rewrite Hc, Hcur.
Qed.

Lemma word_char_facts (c : ascii) :
  word_char c = true ->
  PyStr.isspace c = false /\ Ascii.eqb c "," = false /\ Ascii.eqb c "." = false
  /\ PyStr.lower_char c = c.
Proof.
  unfold word_char. rewrite !andb_true_iff, !negb_true_iff.
  intros [[[? ?] ?] ?%Ascii.eqb_eq]. auto.
Qed.

Lemma word_unchanged (w : string) :
  all_chars word_char w = true ->
  PyStr.lower w = w
  /\ PyStr.replace_char "," " " w = w
  /\ PyStr.replace_char "." " " w = w.
Proof.
  induction w as [|c w IH]; [now cbn|].
  cbn [all_chars PyStr.lower PyStr.replace_char].
  intros [Hc Hw]%andb_true_iff.
  destruct (IH Hw) as (-> & -> & ->).
  destruct (word_char_facts c Hc) as (_ & -> & -> & ->). auto.
Qed.

Lemma split_go_one_word (cur : list ascii) (w : string) :
  all_chars word_char w = true ->
  cur <> [] \/ w <> "" ->
  PyStr.split_go cur w
  = [string_of_list_ascii (rev cur ++ list_ascii_of_string w)].
Proof.
  revert cur. induction w as [|c w IH]; intros cur Hw Hne.
  - cbn [PyStr.split_go list_ascii_of_string]. rewrite app_nil_r.
    destruct cur; [destruct Hne; congruence|reflexivity].
  - cbn [all_chars] in Hw. apply andb_true_iff in Hw as [Hc Hw].
    cbn [PyStr.split_go list_ascii_of_string].
    destruct (word_char_facts c Hc) as (-> & _).
    rewrite (IH (c :: cur) Hw) by (left; discriminate).
    cbn [rev]. now rewrite <- app_assoc.
Qed.

Lemma length_at_least_three (w : string) :
  (3 <= String.length w)%nat -> w <> "".
Proof. destruct w; cbn; [lia|discriminate]. Qed.

Lemma word_is_its_token (w : string) :
  normal_word w -> tokenize (VStr w) = [w].
Proof.
  intros [Hlen Hw]. cbn [tokenize].
  destruct (word_unchanged w Hw) as (-> & -> & ->).
  unfold PyStr.split.
  rewrite (split_go_one_word [] w Hw) by (right; now apply length_at_least_three).
  cbn [rev app]. rewrite string_of_list_ascii_of_string.
  cbn [List.filter]. now apply Nat.leb_le in Hlen as ->.
Qed.

Lemma tokenize_normal (v : value) : Forall normal_word (tokenize v).
Proof.
  revert v. fix IH 1. intros [ | | | s | vs | | ]; cbn [tokenize];
    try constructor.
  - rewrite List.Forall_forall. intros w [Hin Hlen]%filter_In.
    split; [now apply Nat.leb_le|].
    pose proof (split_go_words [] _ eq_refl (prepared_string s)) as Hall.
    rewrite List.Forall_forall in Hall. now apply Hall.
  - induction vs as [|x vs IHvs]; cbn [flat_map]; [constructor|].
    apply Forall_app. split; [apply IH|exact IHvs].
Qed.

Lemma tokens_of_words (ws : list string) :
  Forall normal_word ws -> flat_map tokenize (map VStr ws) = ws.
Proof.
  induction 1 as [|w ws Hw _ IH]; [reflexivity|].
  cbn [map flat_map]. rewrite IH.
  now rewrite (word_is_its_token w Hw).
Qed.

(** X13.  The tokens of any value are in normal form: each has three
    characters or more, holds no whitespace, comma or full stop, is
    unchanged by [lower()], and is the one token of itself.  Tokenizing
    the tokens again changes nothing. *)
Theorem tokenize_normal_form (v : value) :
  Forall (fun w => normal_word w /\ PyStr.lower w = w
                   /\ tokenize (VStr w) = [w]) (tokenize v)
  /\ tokenize (VList (map VStr (tokenize v))) = tokenize v.
Proof.
  split.
  - eapply List.Forall_impl; [|apply tokenize_normal].
    intros w Hw. split; [exact Hw|].
    split; [apply (word_unchanged w (proj2 Hw))|now apply word_is_its_token].
  - cbn [tokenize]. apply tokens_of_words, tokenize_normal.
Qed.

Example tokenize_sample :
  tokenize (VList [VStr "Dr. SMITH, at 9 on Main St."; VInt 3; VStr "to Go"])
  = ["smith"; "main"].
Proof. vm_compute. reflexivity. Qed.

(** * The selector returns the best matches *)

Lemma sorted_app_order {A} (R : A -> A -> Prop) (l1 l2 : list A) :
  StronglySorted R (l1 ++ l2) ->
  forall a b, In a l1 -> In b l2 -> R a b.
Proof.
  induction l1 as [|x l1 IH]; intros Hs a b Ha Hb; [destruct Ha|].
  cbn [app] in Hs. inversion Hs as [|? ? Hs' Hx]; subst.
  destruct Ha as [<-|Ha].
  - rewrite List.Forall_forall in Hx. apply Hx, in_or_app. now right.
  - now apply IH.
Qed.

(** X14.  For a count [max_items >= 0] the selector returns as many texts
    as it can, [min(max_items, number of memories that overlap)], and they
    are the best: the returned texts together with some remainder are the
    overlapping memory texts, and nothing of the remainder overlaps more
    than a returned text. *)
Theorem select_context_mems_best
    (record : dict) (memories : list dict) (max_items : Z) :
  0 <= max_items ->
  let rt := record_tokens record in
  let matching :=
    List.filter (fun text => (0 <? overlap rt text)%nat)
      (map memory_text memories) in
  let out := _select_context_mems record memories max_items in
  length out = Nat.min (Z.to_nat max_items) (length matching)
  /\ exists rest,
       Permutation (out ++ rest) matching
       /\ forall a b, In a out -> In b rest ->
            (overlap rt b <= overlap rt a)%nat.
Proof.
  intros Hk rt matching out. subst out matching.
  unfold _select_context_mems, slice_to. fold rt.
  destruct (Z.ltb_spec max_items 0) as [Hneg|_]; [lia|].
  set (n := Z.to_nat max_items).
  set (scored := score_memories rt memories).
  assert (Hperm : Permutation (sort_desc scored) scored)
    by apply sort_desc_perm.
  assert (Hsc : Forall (fun p => fst p = overlap rt (snd p) /\ (0 < fst p)%nat)
                  (sort_desc scored)).
  { eapply Permutation_Forall; [symmetry; exact Hperm|].
    apply score_memories_scores. }
  pose proof (sorted_texts rt _ (sort_desc_sorted scored) Hsc) as Hsorted.
  rewrite <- (score_memories_texts rt memories). fold scored.
  split.
  - rewrite !length_map, length_firstn.
    now rewrite (Permutation_length Hperm).
  - exists (map snd (skipn n (sort_desc scored))). split.
    + rewrite <- map_app, firstn_skipn. now apply Permutation_map.
    + rewrite <- (firstn_skipn n (sort_desc scored)), map_app in Hsorted.
      intros a b Ha Hb.
      exact (sorted_app_order _ _ _ Hsorted a b Ha Hb).
Qed.

Lemma select_context_mems_best_witness :
  length (_select_context_mems demo_record demo_memories 3) = 3%nat
  /\ length (_select_context_mems demo_record demo_memories 9) = 5%nat.
Proof.
  split.
  - exact (proj1 (select_context_mems_best demo_record demo_memories 3
                    ltac:(lia))).
  - exact (proj1 (select_context_mems_best demo_record demo_memories 9
                    ltac:(lia))).
Defined.

(** * The raw text of a record *)

Lemma lstrip_head (s : string) (c : ascii) (s' : string) :
  PyStr.lstrip s = String c s' -> PyStr.isspace c = false.
Proof.
  induction s as [|a s IH]; cbn [PyStr.lstrip]; [discriminate|].
  destruct (PyStr.isspace a) eqn:Ha; [exact IH|].
  intros H. injection H as <- _. exact Ha.
Qed.

Lemma lstrip_lstrip (s : string) : PyStr.lstrip (PyStr.lstrip s) = PyStr.lstrip s.
Proof.
  induction s as [|a s IH]; [reflexivity|].
  cbn [PyStr.lstrip]. destruct (PyStr.isspace a) eqn:Ha; [exact IH|].
  cbn [PyStr.lstrip]. now rewrite Ha.
Qed.

Lemma append_cons (a : ascii) (s t : string) :
  String a s ++ t = String a (s ++ t).
Proof. reflexivity. Qed.

Lemma append_empty (t : string) : "" ++ t = t.
Proof. reflexivity. Qed.

Lemma lstrip_snoc (t : string) (c : ascii) :
  PyStr.isspace c = false ->
  PyStr.lstrip (t ++ String c "") = PyStr.lstrip t ++ String c "".
Proof.
  intros Hc. induction t as [|a t IH].
  - rewrite append_empty. cbn [PyStr.lstrip]. now rewrite Hc.
  - rewrite append_cons. cbn [PyStr.lstrip].
    destruct (PyStr.isspace a); [exact IH|reflexivity].
Qed.

Lemma string_of_list_ascii_snoc (l : list ascii) (c : ascii) :
  string_of_list_ascii (l ++ [c]) = string_of_list_ascii l ++ String c "".
Proof.
  induction l as [|a l IH]; [reflexivity|].
  cbn [app string_of_list_ascii]. now rewrite IH, append_cons.
Qed.

Lemma list_ascii_of_string_snoc (t : string) (c : ascii) :
  list_ascii_of_string (t ++ String c "") = (list_ascii_of_string t ++ [c])%list.
Proof.
  induction t as [|a t IH]; [reflexivity|].
  rewrite append_cons. cbn [list_ascii_of_string app]. now rewrite IH.
Qed.

Lemma rev_string_cons (c : ascii) (s : string) :
  PyStr.rev_string (String c s) = PyStr.rev_string s ++ String c "".
Proof.
  unfold PyStr.rev_string. cbn [list_ascii_of_string rev].
  apply string_of_list_ascii_snoc.
Qed.

Lemma rev_string_snoc (t : string) (c : ascii) :
  PyStr.rev_string (t ++ String c "") = String c (PyStr.rev_string t).
Proof.
  unfold PyStr.rev_string. rewrite list_ascii_of_string_snoc, rev_app_distr.
  reflexivity.
Qed.

Lemma rev_string_involutive (s : string) :
  PyStr.rev_string (PyStr.rev_string s) = s.
Proof.
  unfold PyStr.rev_string.
  rewrite list_ascii_of_string_of_list_ascii, rev_involutive.
  apply string_of_list_ascii_of_string.
Qed.

Lemma rstrip_rstrip (s : string) : PyStr.rstrip (PyStr.rstrip s) = PyStr.rstrip s.
Proof.
  unfold PyStr.rstrip. now rewrite rev_string_involutive, lstrip_lstrip.
Qed.

Lemma rstrip_cons (c : ascii) (s : string) :
  PyStr.isspace c = false ->
  PyStr.rstrip (String c s) = String c (PyStr.rstrip s).
Proof.
  intros Hc. unfold PyStr.rstrip.
  now rewrite rev_string_cons, (lstrip_snoc _ c Hc), rev_string_snoc.
Qed.

Lemma rstrip_snoc (t : string) (c : ascii) :
  PyStr.isspace c = false ->
  PyStr.rstrip (t ++ String c "") = t ++ String c "".
Proof.
  intros Hc. unfold PyStr.rstrip. rewrite rev_string_snoc.
  cbn [PyStr.lstrip]. rewrite Hc.
  now rewrite rev_string_cons, rev_string_involutive.
Qed.

(** [strip()] twice is [strip()] once. *)
Lemma strip_strip (s : string) : PyStr.strip (PyStr.strip s) = PyStr.strip s.
Proof.
  unfold PyStr.strip at 2 3.
  destruct (PyStr.lstrip s) as [|c x] eqn:Hx; [reflexivity|].
  pose proof (lstrip_head s c x Hx) as Hc.
  rewrite (rstrip_cons c x Hc). unfold PyStr.strip.
  cbn [PyStr.lstrip]. rewrite Hc.
  now rewrite (rstrip_cons c _ Hc), rstrip_rstrip.
Qed.

(** A string between two characters that are not whitespace is its own
    [strip()]. *)
Lemma strip_enclosed (c e : ascii) (t : string) :
  PyStr.isspace c = false -> PyStr.isspace e = false ->
  PyStr.strip (String c (t ++ String e "")) = String c (t ++ String e "").
Proof.
  intros Hc He. unfold PyStr.strip. cbn [PyStr.lstrip]. rewrite Hc.
  now rewrite (rstrip_cons c _ Hc), (rstrip_snoc t e He).
Qed.

Lemma first_text_stripped (vals : list value) (t : string) :
  first_text vals = Some t -> PyStr.strip t = t /\ t <> "".
Proof.
  induction vals as [|v vals IH]; [discriminate|].
  destruct v; cbn [first_text]; try exact IH.
  destruct (truthy (VStr (PyStr.strip s))) eqn:Ht; [|exact IH].
  intros H. injection H as <-. split; [apply strip_strip|].
  cbn [truthy] in Ht. intros He. rewrite He in Ht. discriminate.
Qed.

Lemma dumps_dict_braces (d : dict) (s : string) :
  Json.dumps (VDict d) = Some s ->
  exists body, s = String "{" (body ++ String "}" "").
Proof.
  cbn [Json.dumps].
  match goal with |- context [match ?m with Some _ => _ | None => _ end] =>
    destruct m as [parts|] end; [|discriminate].
  intros H. injection H as <-. now exists (Json.join parts).
Qed.

Lemma dumps_serializable (v : value) :
  serializable v = true -> exists s, Json.dumps v = Some s.
Proof.
  revert v. fix IH 1. intros [ | b | n | s | l | d | t [j|] ];
    cbn [serializable Json.dumps]; intros Hv; try discriminate; eauto.
  - assert (Hitems : exists parts,
      (fix items (l : list value) : option (list string) :=
         match l with
         | [] => Some []
         | x :: l' =>
             match Json.dumps x, items l' with
             | Some a, Some b => Some (a :: b)
             | _, _ => None
             end
         end) l = Some parts).
    { induction l as [|x l IHl]; [eauto|].
      cbn [forallb] in Hv. apply andb_true_iff in Hv as [Hx Hl].
      destruct (IH x Hx) as [a ->]. destruct (IHl Hl) as [b ->]. eauto. }
    destruct Hitems as [parts ->]. eauto.
  - assert (Hmembers : exists parts,
      (fix members (d : dict) : option (list string) :=
         match d with
         | [] => Some []
         | (k, x) :: d' =>
             match Json.dumps x, members d' with
             | Some a, Some b => Some ((Json.quote k ++ ": " ++ a) :: b)
             | _, _ => None
             end
         end) d = Some parts).
    { induction d as [|[k x] d IHd]; [eauto|].
      cbn [forallb snd] in Hv. apply andb_true_iff in Hv as [Hx Hd].
      destruct (IH x Hx) as [a ->]. destruct (IHd Hd) as [b ->]. eauto. }
    destruct Hmembers as [parts ->]. eauto.
Qed.

Lemma raw_text_cases (record : dict) :
  (exists vals, first_text vals = Some (_record_to_plain_text record))
  \/ Json.dumps (VDict record) = Some (_record_to_plain_text record)
  \/ (Json.dumps (VDict record) = None /\ _record_to_plain_text record = "").
Proof.
  unfold _record_to_plain_text.
  destruct (first_text (candidates record)) as [s|] eqn:H1; [left; eauto|].
  destruct (first_text (dict_values record)) as [s|] eqn:H2; [left; eauto|].
  destruct (Json.dumps (VDict record)) as [s|]; auto.
Qed.

Lemma raw_text_stripped (record : dict) :
  PyStr.strip (_record_to_plain_text record) = _record_to_plain_text record.
Proof.
  destruct (raw_text_cases record) as [[vals Hv]|[Hj|[_ He]]].
  - apply (first_text_stripped _ _ Hv).
  - destruct (dumps_dict_braces _ _ Hj) as [body Hb]. rewrite Hb.
    now apply strip_enclosed.
  - now rewrite He.
Qed.

Lemma raw_text_empty (record : dict) :
  _record_to_plain_text record = "" -> Json.dumps (VDict record) = None.
Proof.
  destruct (raw_text_cases record) as [[vals Hv]|[Hj|[Hj _]]]; intros He.
  - now destruct (first_text_stripped _ _ Hv).
  - destruct (dumps_dict_braces _ _ Hj) as [body Hb]. congruence.
  - exact Hj.
Qed.

Lemma raw_text_nonempty (record : dict) :
  serializable (VDict record) = true -> _record_to_plain_text record <> "".
Proof.
  intros Hs He. apply raw_text_empty in He.
  destruct (dumps_serializable _ Hs) as [s Hd]. congruence.
Qed.



(** * Records of a JSON document *)

Lemma serializable_lookup (key : string) (d : dict) (v : value) :
  serializable (VDict d) = true -> dict_lookup key d = Some v ->
  serializable v = true.
Proof.
  cbn [serializable]. induction d as [|[k x] d IH]; [discriminate|].
  cbn [forallb snd dict_lookup]. intros [Hx Hd]%andb_true_iff.
  destruct (String.eqb k key); [|now apply IH].
  intros H. now injection H as <-.
Qed.

Lemma serializable_get_or (key : string) (dflt : value) (d : dict) :
  serializable (VDict d) = true -> serializable dflt = true ->
  serializable (dict_get_or key dflt d) = true.
Proof.
  intros Hd Hdflt. unfold dict_get_or.
  destruct (dict_lookup key d) as [v|] eqn:Hv; [|exact Hdflt].
  exact (serializable_lookup _ _ _ Hd Hv).
Qed.

Lemma serializable_get (key : string) (d : dict) :
  serializable (VDict d) = true -> serializable (dict_get key d) = true.
Proof. intros Hd. now apply serializable_get_or. Qed.

Lemma serializable_py_or (a b : value) :
  serializable a = true -> serializable b = true ->
  serializable (py_or a b) = true.
Proof. unfold py_or. now destruct (truthy a). Qed.

Lemma serializable_as_dict (v : value) (d : dict) :
  as_dict v = Return d -> serializable v = true -> serializable (VDict d) = true.
Proof. destruct v; try discriminate. intros H. now injection H as <-. Qed.

Section JsonDocuments.

Context {World : Type}.
Variable svc : Services World.
Variable parse : string -> res PyDatetime.datetime.

Lemma to_utc_serializable (v u : value) :
  _to_utc parse v = Return u -> serializable v = true -> serializable u = true.
Proof.
  unfold _to_utc, try_except, res_bind. intros H Hv.
  destruct v; try (injection H as <-; exact Hv).
  destruct (parse s) as [dt|e]; [|injection H as <-; exact Hv].
  destruct (PyDatetime.tzinfo dt); [|injection H as <-; exact Hv].
  destruct (PyDatetime.astimezone_utc dt); injection H as <-; reflexivity.
Qed.

Lemma stamp_serializable (dt u : value) :
  (if truthy dt then _to_utc parse dt else Return VNone) = Return u ->
  serializable dt = true -> serializable u = true.
Proof.
  destruct (truthy dt); [apply to_utc_serializable|].
  intros H _. now injection H as <-.
Qed.

Lemma calendar_item_serializable path idx ev it :
  serializable (VDict ev) = true ->
  calendar_item parse path idx ev = Return it ->
  serializable (VDict (fst it)) = true.
Proof.
  intros Hev. unfold calendar_item.
  destruct (as_dict (dict_get_or "start" (VDict []) ev)) as [start|] eqn:Hs;
    [|discriminate].
  destruct (as_dict (dict_get_or "end" (VDict []) ev)) as [end_|] eqn:He;
    [|discriminate].
  cbn [res_bind].
  assert (Hstart : serializable (VDict start) = true).
  { apply (serializable_as_dict _ _ Hs). now apply serializable_get_or. }
  assert (Hend : serializable (VDict end_) = true).
  { apply (serializable_as_dict _ _ He). now apply serializable_get_or. }
  match goal with |- context [res_bind ?m _] =>
    destruct m as [su|] eqn:Hsu; [|discriminate] end.
  cbn [res_bind].
  match goal with |- context [res_bind ?m _] =>
    destruct m as [eu|] eqn:Heu; [|discriminate] end.
  cbn [res_bind]. intros H. injection H as <-.
  apply stamp_serializable in Hsu;
    [|apply serializable_py_or; now apply serializable_get].
  apply stamp_serializable in Heu;
    [|apply serializable_py_or; now apply serializable_get].
  cbn [fst serializable forallb snd].
  change (forallb (fun kv : string * value => serializable kv.2) ev)
    with (serializable (VDict ev)) in Hev.
  rewrite !(serializable_get _ ev Hev), Hsu, Heu. reflexivity.
Qed.

Lemma vision_item_serializable path idx ex it :
  serializable (VDict ex) = true ->
  vision_item path idx ex = Return it ->
  serializable (VDict (fst it)) = true.
Proof.
  intros Hex. unfold vision_item.
  destruct (as_dict (dict_get_or "content" (VDict []) ex)) as [content|] eqn:Hc;
    [|discriminate].
  cbn [res_bind]. intros H. injection H as <-.
  assert (Hcontent : serializable (VDict content) = true).
  { apply (serializable_as_dict _ _ Hc). now apply serializable_get_or. }
  cbn [fst serializable forallb snd].
  rewrite !(serializable_get _ ex Hex), !(serializable_get _ content Hcontent).
  reflexivity.
Qed.

Lemma audio_item_serializable path idx ex it :
  serializable (VDict ex) = true ->
  audio_item path idx ex = Return it ->
  serializable (VDict (fst it)) = true.
Proof.
  intros Hex. unfold audio_item.
  destruct (as_dict (dict_get_or "content" (VDict []) ex)) as [content|] eqn:Hc;
    [|discriminate].
  cbn [res_bind]. intros H. injection H as <-.
  assert (Hcontent : serializable (VDict content) = true).
  { apply (serializable_as_dict _ _ Hc). now apply serializable_get_or. }
  cbn [fst serializable forallb snd].
  rewrite !(serializable_get _ ex Hex), !(serializable_get _ content Hcontent).
  reflexivity.
Qed.

Lemma enumerate_items_serializable (P : item -> Prop)
    (body : nat -> dict -> res item) :
  (forall idx d it, serializable (VDict d) = true ->
                    body idx d = Return it -> P it) ->
  forall xs idx, forallb serializable xs = true ->
    Forall P (gen_items (enumerate_items body idx xs)).
Proof.
  intros Hbody. induction xs as [|x xs IH]; intros idx Hxs; cbn;
    [constructor|].
  cbn [forallb] in Hxs. apply andb_true_iff in Hxs as [Hx Hxs].
  destruct x; cbn; try constructor.
  destruct (body idx d) as [it|e] eqn:Hb; cbn; constructor; eauto.
Qed.

Lemma for_each_serializable (P : item -> Prop)
    (body : nat -> dict -> res item) (v : value) :
  (forall idx d it, serializable (VDict d) = true ->
                    body idx d = Return it -> P it) ->
  serializable v = true ->
  Forall P (gen_items (for_each body v)).
Proof.
  intros Hbody Hv. destruct v as [| | |s|xs|d|]; cbn; try constructor.
  - destruct s; constructor.
  - now apply enumerate_items_serializable.
  - destruct d; constructor.
Qed.

Lemma loader_serializable connector loader path :
  loader_for parse connector = Return loader ->
  (forall data, document path = Return data -> serializable data = true) ->
  Forall (fun it => serializable (VDict (fst it)) = true)
    (gen_items (loader path)).
Proof.
  intros H Hdoc.
  destruct (loader_for_cases parse _ _ H) as [[_ ->]|[[_ ->]|[_ ->]]];
    unfold load_calendar_file, load_vision_file, load_audio_file;
    (destruct (document path) as [data|e]; [|constructor]);
    specialize (Hdoc data eq_refl);
    (destruct (as_dict data) as [d|e] eqn:Hd; cbn [res_bind]; rewrite ?Hd;
     [|constructor]);
    pose proof (serializable_as_dict _ _ Hd Hdoc) as Hdd;
    (apply for_each_serializable; [|now apply serializable_get_or]).
  - intros idx ev it. apply calendar_item_serializable.
  - intros idx ex it. apply vision_item_serializable.
  - intros idx ex it. apply audio_item_serializable.
Qed.

Lemma filter_all {A} (f : A -> bool) (l : list A) :
  Forall (fun x => f x = true) l -> List.filter f l = l.
Proof.
  induction 1 as [|x l Hx _ IH]; [reflexivity|].
  cbn [List.filter]. now rewrite Hx, IH.
Qed.

Lemma store_calls_length (t : list event) :
  length (store_calls t) = length (List.filter is_store t).
Proof.
  unfold store_calls. induction t as [|e t IH]; [reflexivity|].
  rewrite omap_head.
  destruct e; cbn [store_call List.filter is_store length]; now rewrite ?IH.
Qed.

(** X16.  Without enrichment no record of a JSON document is skipped: if
    what [json.load] gave holds JSON values only, a run that returns has
    [stored = processed], with one store call per record of the limited
    loader, in order -- and in a dry run one dry-run line per record. *)
Theorem fallback_skips_nothing (connector : string) (loader : Path -> gen item)
    (path : Path) (cfg : IngestConfig) (w : World) t w' p s :
  enrich cfg = false ->
  loader_for parse connector = Return loader ->
  (forall data, document path = Return data -> serializable data = true) ->
  ingest_file svc parse connector path cfg w = (t, w', Return (p, s)) ->
  let records := gen_items (_iter_limited (loader path) (limit cfg)) in
  (dry_run cfg = false ->
     s = p /\ store_calls t = map (raw_store_call connector cfg) records)
  /\ (dry_run cfg = true ->
     s = 0 /\ reports t = map (raw_report connector) records).
Proof.
  intros Henrich Hload Hdoc H. cbv zeta.
  destruct (ingest_file_counts svc parse _ _ _ _ _ _ _ _ H)
    as (loader' & Hload' & Hp & Hs & Hf & _).
  rewrite Hload in Hload'. injection Hload' as <-.
  destruct (returning_run svc parse _ _ _ _ _ _ _ _ _ Hload H)
    as (w1 & t2 & st & Hl & Ht).
  assert (Hall : List.filter has_raw_text
                   (gen_items (_iter_limited (loader path) (limit cfg)))
                 = gen_items (_iter_limited (loader path) (limit cfg))).
  { apply filter_all, limited_items_Forall.
    eapply List.Forall_impl; [|exact (loader_serializable _ _ path Hload Hdoc)].
    intros it Hit. unfold has_raw_text. cbn [truthy].
    apply negb_true_iff, String.eqb_neq. now apply raw_text_nonempty. }
  pose proof (loop_fallback svc connector cfg _ Henrich _ _ _ _ _ Hl) as [_ Hout].
  rewrite Hall in Hout.
  assert (Hsc : store_calls t = store_calls t2) by now rewrite Ht.
  assert (Hrp : reports t = reports t2) by now rewrite Ht.
  rewrite Hf, <- store_calls_length, Hsc in Hs.
  destruct (dry_run cfg); split; intros Hd; try discriminate Hd.
  - destruct Hout as [Hr Hc]. rewrite Hc in Hs. split; [exact Hs|].
    now rewrite Hrp.
  - destruct Hout as [Hc _]. rewrite Hc, length_map in Hs.
    split; [lia|]. now rewrite Hsc.
Qed.

End JsonDocuments.

Lemma fallback_skips_nothing_witness :
  store_calls week_trace
  = map (raw_store_call "calendar" plain_config)
      (gen_items (_iter_limited
         (load_calendar_file PyDatetime.fromisoformat week_file) None)).
Proof.
  assert (Hrun : ingest_file quiet_services PyDatetime.fromisoformat "calendar"
                   week_file plain_config tt = (week_trace, tt, Return (5, 5)))
    by (vm_compute; reflexivity).
  assert (Hdoc : forall data, document week_file = Return data ->
                              serializable data = true).
  { intros data Hd. injection Hd as <-. vm_compute. reflexivity. }
  exact (proj2 (proj1 (fallback_skips_nothing quiet_services
           PyDatetime.fromisoformat "calendar"
           (load_calendar_file PyDatetime.fromisoformat) week_file plain_config
           tt week_trace tt 5 5 eq_refl eq_refl Hdoc Hrun) eq_refl)).
Defined.

(** * Several files *)

Section Files.

Context {World : Type}.
Variable svc : Services World.
Variable parse : string -> res PyDatetime.datetime.

(** The totals so far only shift the returned pair. *)
Lemma ingest_paths_from_shift connector cfg paths : forall tp ts w,
  ingest_paths_from svc parse connector paths cfg tp ts w
  = match ingest_paths_from svc parse connector paths cfg 0 0 w with
    | (t, w', Return (a, b)) => (t, w', Return (tp + a, ts + b))
    | (t, w', Raise e) => (t, w', Raise e)
    end.
Proof.
  induction paths as [|path rest IH]; intros tp ts w.
  - cbn. now rewrite !Z.add_0_r.
  - cbn [ingest_paths_from]. unfold bind.
    destruct (ingest_file svc parse connector path cfg w)
      as [[t1 w1] [[p s]|e]]; [|reflexivity].
    cbn [fst snd].
    rewrite (IH (tp + p) (ts + s) w1), (IH (0 + p) (0 + s) w1).
    destruct (ingest_paths_from svc parse connector rest cfg 0 0 w1)
      as [[t2 w2] [[a b]|e]]; [|reflexivity].
    do 3 f_equal; lia.
Qed.

Lemma ingest_paths_cons connector cfg path rest w :
  ingest_paths svc parse connector (path :: rest) cfg w
  = match ingest_file svc parse connector path cfg w with
    | (t1, w1, Raise e) => (t1, w1, Raise e)
    | (t1, w1, Return (p, s)) =>
        match ingest_paths svc parse connector rest cfg w1 with
        | (t2, w2, Return (a, b)) => ((t1 ++ t2)%list, w2, Return (p + a, s + b))
        | (t2, w2, Raise e) => ((t1 ++ t2)%list, w2, Raise e)
        end
    end.
Proof.
  unfold ingest_paths. cbn [ingest_paths_from]. unfold bind.
  destruct (ingest_file svc parse connector path cfg w)
    as [[t1 w1] [[p s]|e]]; [|reflexivity].
  cbn [fst snd]. rewrite ingest_paths_from_shift.
  destruct (ingest_paths_from svc parse connector rest cfg 0 0 w1)
    as [[t2 w2] [[a b]|e]]; reflexivity.
Qed.

(** X17.  [ingest_paths] goes file by file: on one file it is
    [ingest_file]; on two lists of files it is the run on the first list
    followed, from the world that run left, by the run on the second, the
    events one after the other and the pairs added up.  If the first run
    raises, that is the outcome: no file after the failing one is touched
    and no totals are returned. *)
Theorem ingest_paths_file_by_file (connector : string) (cfg : IngestConfig)
    (path : Path) (ps qs : list Path) (w : World) :
  ingest_paths svc parse connector [path] cfg w
  = ingest_file svc parse connector path cfg w
  /\ ingest_paths svc parse connector (ps ++ qs) cfg w
     = match ingest_paths svc parse connector ps cfg w with
       | (t1, w1, Raise e) => (t1, w1, Raise e)
       | (t1, w1, Return (P1, S1)) =>
           match ingest_paths svc parse connector qs cfg w1 with
           | (t2, w2, Return (P2, S2)) =>
               ((t1 ++ t2)%list, w2, Return (P1 + P2, S1 + S2))
           | (t2, w2, Raise e) => ((t1 ++ t2)%list, w2, Raise e)
           end
       end.
Proof.
  split.
  - rewrite ingest_paths_cons.
    destruct (ingest_file svc parse connector path cfg w)
      as [[t1 w1] [[p s]|e]]; [|reflexivity].
    cbn. now rewrite app_nil_r, !Z.add_0_r.
  - revert w. induction ps as [|p0 ps IH]; intros w.
    + cbn [app]. change (ingest_paths svc parse connector [] cfg w)
        with (@nil event, w, @Return (Z * Z) (0, 0)).
      cbn [app].
      destruct (ingest_paths svc parse connector qs cfg w)
        as [[t2 w2] [[P2 S2]|e]]; reflexivity.
    + cbn [app]. rewrite !ingest_paths_cons.
      destruct (ingest_file svc parse connector p0 cfg w)
        as [[t1 w1] [[p s]|e]]; [|reflexivity].
      rewrite (IH w1).
      destruct (ingest_paths svc parse connector ps cfg w1)
        as [[t2 w2] [[a b]|e]]; [|reflexivity].
      destruct (ingest_paths svc parse connector qs cfg w2)
        as [[t3 w3] [[P3 S3]|e]]; rewrite <- ?app_assoc; [|reflexivity].
      do 3 f_equal; lia.
Qed.

End Files.

Example ingest_paths_stops_at_the_unreadable_file :
  ingest_paths quiet_services PyDatetime.fromisoformat "calendar"
    [week_file; unreadable_file; week_file] plain_config tt
  = ((week_trace ++ [EvClient (timeout plain_config) (Return tt)])%list, tt,
     Raise ValueError).
Proof. vm_compute. reflexivity. Qed.

(** * What [_to_utc] returns *)

Lemma append_associative (a b c : string) : (a ++ b) ++ c = a ++ (b ++ c).
Proof.
  induction a as [|x a IH]; [reflexivity|].
  rewrite !append_cons. now rewrite IH.
Qed.

Lemma isoformat_utc_suffix (dt : PyDatetime.datetime) :
  PyDatetime.tzinfo dt = Some 0 ->
  exists pre, PyDatetime.isoformat dt = pre ++ "+00:00".
Proof.
  intros Htz. unfold PyDatetime.isoformat. rewrite Htz.
  change (PyDatetime.format_offset 0) with "+00:00".
  eexists. rewrite <- !append_associative. reflexivity.
Qed.

Lemma astimezone_utc_zone (dt utc : PyDatetime.datetime) :
  PyDatetime.astimezone_utc dt = Return utc -> PyDatetime.tzinfo utc = Some 0.
Proof.
  unfold PyDatetime.astimezone_utc.
  destruct (PyDatetime.civil_from_days _) as [[y m] d].
  destruct (_ || _); [discriminate|].
  intros H. now injection H as <-.
Qed.

Example to_utc_keeps_a_time_without_offset :
  _to_utc PyDatetime.fromisoformat (VStr "2024-01-01T10:00:00")
  = Return (VStr "2024-01-01T10:00:00").
Proof. vm_compute. reflexivity. Qed.

Example to_utc_keeps_a_time_before_year_one :
  _to_utc PyDatetime.fromisoformat (VStr "0001-01-01T00:30:00+02:00")
  = Return (VStr "0001-01-01T00:30:00+02:00").
Proof. vm_compute. reflexivity. Qed.

(** * The texts that leave the pipeline *)

Section Texts.

Context {World : Type}.
Variable svc : Services World.
Variable parse : string -> res PyDatetime.datetime.

Ltac text_cases H :=
  repeat
    (cbv beta iota zeta delta
       [ingest_record bind ret lift emit try_exceptM call_get_memories
        call_chat call_add_memory grok_enrich subscript fst snd app] in H;
     lazymatch type of H with
     | (_, _, _) = (_, _, _) => fail
     | _ =>
         match type of H with
         | context [match ?x with _ => _ end] =>
             lazymatch x with
             | context [match _ with _ => _ end] => fail
             | _ => destruct x eqn:?
             end
         end
     end);
  try discriminate H;
  injection H as ? ? ?; subst.

Lemma step_texts connector cfg record metadata st w t w' r :
  ingest_record svc connector cfg (record, metadata) st w = (t, w', r) ->
  Forall clean_text t.
Proof.
  intros H. text_cases H.
  all: repeat match goal with
         | Hb : negb _ = true |- _ => apply negb_true_iff in Hb
         | Hb : negb (truthy _) = false |- _ =>
             apply negb_false_iff, truthy_nonempty in Hb
         end.
  all: repeat constructor; try assumption;
       first [apply raw_text_stripped|apply strip_strip].
Qed.

Lemma loop_texts connector cfg items : forall st w t w' r,
  ingest_loop svc connector cfg items st w = (t, w', r) ->
  Forall clean_text t.
Proof.
  induction items as [|[record metadata] rest IH|e]; intros st w t w' r H;
    cbn [ingest_loop] in H; unfold ret, lift in H.
  - injection H as <- _ _. constructor.
  - unfold bind in H.
    destruct (ingest_record svc connector cfg (record, metadata) st w)
      as [[t1 w1] r1] eqn:Hs.
    pose proof (step_texts _ _ _ _ _ _ _ _ _ Hs) as Hev.
    destruct r1 as [st1|e].
    + destruct (ingest_loop svc connector cfg rest st1 w1) as [[t2 w2] r2] eqn:Hl.
      injection H as <- _ _. apply Forall_app. split; [exact Hev|].
      exact (IH _ _ _ _ _ Hl).
    + injection H as <- _ _. exact Hev.
  - injection H as <- _ _. constructor.
Qed.

(** X19.  In every run of [ingest_file], however it ends and whatever
    the file, the chat and the store answer, the text of every store call
    and of every dry-run line is non-empty and is its own [strip()]:
    nothing blank and nothing with whitespace around it is stored. *)
Theorem stored_texts_are_clean (connector : string) (path : Path)
    (cfg : IngestConfig) (w : World) t w' r :
  ingest_file svc parse connector path cfg w = (t, w', r) ->
  Forall clean_text t.
Proof.
  intros H. apply ingest_file_inv in H.
  destruct H as [(_ & -> & _)|(loader & rc & w1 & _ & _ & H)]; [constructor|].
  destruct H as [(e & _ & -> & _)|(t2 & r2 & _ & Hl & -> & _)].
  - repeat constructor.
  - constructor; [exact I|]. exact (loop_texts _ _ _ _ _ _ _ _ Hl).
Qed.

End Texts.

Lemma stored_texts_are_clean_witness :
  Forall clean_text (fst (fst week_enriched_run)).
Proof.
  assert (Hrun : ingest_file answering_services PyDatetime.fromisoformat "calendar"
                   week_file (with_enrich plain_config) tt
                 = (fst (fst week_enriched_run), tt, Return (5, 3)))
    by (vm_compute; reflexivity).
  exact (stored_texts_are_clean answering_services PyDatetime.fromisoformat
           "calendar" week_file (with_enrich plain_config) tt _ tt _ Hrun).
Defined.

(** * Record ids *)

Section RecordIds.

Variable parse : string -> res PyDatetime.datetime.

Lemma enumerate_items_lookup (body : nat -> dict -> res item) :
  forall xs idx i it,
    gen_items (enumerate_items body idx xs) !! i = Some it ->
    exists ex, xs !! i = Some (VDict ex) /\ body (idx + i)%nat ex = Return it.
Proof.
  induction xs as [|x xs IH]; intros idx i it; cbn; [discriminate|].
  destruct x as [| | | | |ex|]; cbn; try discriminate.
  destruct (body idx ex) as [it0|e] eqn:Hb; cbn; [|discriminate].
  destruct i as [|i]; cbn.
  - intros H. injection H as <-. exists ex. now rewrite Nat.add_0_r.
  - intros H. destruct (IH (S idx) i it H) as (ey & Hy & Hbody).
    exists ey. split; [exact Hy|]. now rewrite Nat.add_succ_r.
Qed.

Lemma calendar_item_record_id path idx ev it :
  calendar_item parse path idx ev = Return it ->
  record_id it
  = dict_get_or (id_key "calendar") (positional_id "calendar" idx) ev.
Proof.
  unfold calendar_item, res_bind. intros H.
  repeat match type of H with
         | context [match ?x with _ => _ end] =>
             lazymatch x with
             | context [match _ with _ => _ end] => fail
             | _ => destruct x; try discriminate H
             end
         end;
    injection H as <-; reflexivity.
Qed.

Lemma vision_item_record_id path idx ex it :
  vision_item path idx ex = Return it ->
  record_id it = dict_get_or (id_key "vision") (positional_id "vision" idx) ex.
Proof.
  unfold vision_item, res_bind. intros H.
  destruct (as_dict _); [|discriminate]. injection H as <-. reflexivity.
Qed.

Lemma audio_item_record_id path idx ex it :
  audio_item path idx ex = Return it ->
  record_id it = dict_get_or (id_key "audio") (positional_id "audio" idx) ex.
Proof.
  unfold audio_item, res_bind. intros H.
  destruct (as_dict _); [|discriminate]. injection H as <-. reflexivity.
Qed.

Lemma loader_record_id connector loader path data xs i it :
  loader_for parse connector = Return loader ->
  document path = Return (VDict data) ->
  dict_lookup (array_key connector) data = Some (VList xs) ->
  gen_items (loader path) !! i = Some it ->
  exists ex,
    xs !! i = Some (VDict ex)
    /\ record_id it
       = dict_get_or (id_key connector) (positional_id connector i) ex.
Proof.
  intros H Hdoc Hxs.
  destruct (loader_for_cases parse _ _ H) as [[-> ->]|[[-> ->]|[-> ->]]];
    unfold load_calendar_file, load_vision_file, load_audio_file;
    rewrite Hdoc; cbn [res_bind as_dict];
    cbn [array_key String.eqb Ascii.eqb Bool.eqb] in Hxs;
    unfold dict_get_or at 1; rewrite Hxs; cbn [for_each]; intros Hi;
    destruct (enumerate_items_lookup _ _ _ _ _ Hi) as (ex & Hex & Hbody);
    exists ex; (split; [exact Hex|]); cbn [Nat.add] in Hbody.
  - now apply calendar_item_record_id with (path := path).
  - now apply vision_item_record_id with (path := path).
  - now apply audio_item_record_id with (path := path).
Qed.

Lemma append_same_prefix (p a b : string) : p ++ a = p ++ b -> a = b.
Proof.
  induction p as [|c p IH]; [now rewrite !append_empty|].
  rewrite !append_cons. intros H. injection H as H. now apply IH.
Qed.

Lemma positional_id_inj connector (i j : nat) :
  positional_id connector i = positional_id connector j -> i = j.
Proof.
  unfold positional_id. intros H. injection H as H.
  apply append_same_prefix in H. now apply (inj pretty) in H.
Qed.

(** X20.  The record id of the item made from the element at position
    [i] of the array is the value the element holds under [event_id] (for
    the calendar) or [filename] (for vision and audio) -- whatever that
    value is, [null] included -- and, for an element without that key, the
    connector's prefix followed by [i].  So two items made from elements
    without the key never share a record id. *)
Theorem record_ids_follow_positions (connector : string)
    (loader : Path -> gen item) (path : Path) (data : dict) (xs : list value) :
  loader_for parse connector = Return loader ->
  document path = Return (VDict data) ->
  dict_lookup (array_key connector) data = Some (VList xs) ->
  (forall i it,
     gen_items (loader path) !! i = Some it ->
     exists ex,
       xs !! i = Some (VDict ex)
       /\ record_id it
          = match dict_lookup (id_key connector) ex with
            | Some v => v
            | None => positional_id connector i
            end)
  /\ (forall i j it jt x y,
        gen_items (loader path) !! i = Some it ->
        gen_items (loader path) !! j = Some jt ->
        xs !! i = Some x -> xs !! j = Some y ->
        has_no_id connector x -> has_no_id connector y ->
        i <> j -> record_id it <> record_id jt).
Proof.
  intros H Hdoc Hxs. split.
  - intros i it Hi.
    exact (loader_record_id _ _ _ _ _ _ _ H Hdoc Hxs Hi).
  - intros i j it jt x y Hi Hj Hx Hy Hnx Hny Hij Heq.
    destruct (loader_record_id _ _ _ _ _ _ _ H Hdoc Hxs Hi) as (ex & Hex & Hit).
    destruct (loader_record_id _ _ _ _ _ _ _ H Hdoc Hxs Hj) as (ey & Hey & Hjt).
    rewrite Hx in Hex. injection Hex as ->.
    rewrite Hy in Hey. injection Hey as ->.
    unfold dict_get_or in Hit, Hjt.
    rewrite (Hnx ex eq_refl) in Hit. rewrite (Hny ey eq_refl) in Hjt.
    rewrite Hit, Hjt in Heq. now apply positional_id_inj in Heq.
Qed.

End RecordIds.

Lemma record_ids_follow_positions_witness :
  exists it jt,
    gen_items (load_vision_file scans_file) !! 0%nat = Some it
    /\ gen_items (load_vision_file scans_file) !! 1%nat = Some jt
    /\ record_id it <> record_id jt
    /\ record_id jt = VStr "vision-1".
Proof.
  assert (Hno : forall words, has_no_id "vision" (scan words)).
  { intros words ex Hex. injection Hex as <-. reflexivity. }
  eexists. eexists.
  split; [reflexivity|]. split; [reflexivity|]. split.
  - exact (proj2 (record_ids_follow_positions PyDatetime.fromisoformat "vision"
                    load_vision_file scans_file _ _ eq_refl eq_refl eq_refl)
             0%nat 1%nat _ _ _ _ eq_refl eq_refl eq_refl eq_refl
             (Hno "Invoice") (Hno "Receipt") ltac:(discriminate)).
  - vm_compute. reflexivity.
Defined.

(** * The cache and the counter over whole runs *)

Section Deliveries.

Context {World : Type}.
Variable svc : Services World.
Variable parse : string -> res PyDatetime.datetime.

Ltac record_cases H :=
  repeat
    (cbv beta iota zeta delta
       [ingest_record bind ret lift emit try_exceptM call_get_memories
        call_chat call_add_memory grok_enrich subscript fst snd app] in H;
     lazymatch type of H with
     | (_, _, _) = (_, _, _) => fail
     | _ =>
         match type of H with
         | context [match ?x with _ => _ end] =>
             lazymatch x with
             | context [match _ with _ => _ end] => fail
             | _ => destruct x eqn:?
             end
         end
     end);
  try discriminate H;
  injection H as ? ? ?; subst.

(** The first thing an iteration without a cache does is the fetch, for
    the user id of its record. *)
Lemma step_fetches_first connector cfg record metadata st w t w' r :
  memories_cache st = None ->
  ingest_record svc connector cfg (record, metadata) st w = (t, w', r) ->
  exists t',
    t = EvGetMemories (resolved_user_id cfg metadata)
          (fst (get_memories svc (resolved_user_id cfg metadata) w)) :: t'.
Proof.
  intros Hc H. unfold resolved_user_id. record_cases H.
  all: try congruence.
  all: cbn [fst]; eexists; reflexivity.
Qed.

Lemma loop_fetches_first connector cfg items st w t w' r first rest :
  memories_cache st = None ->
  gen_items items = first :: rest ->
  ingest_loop svc connector cfg items st w = (t, w', r) ->
  exists after,
    t = EvGetMemories (resolved_user_id cfg (snd first))
          (fst (get_memories svc (resolved_user_id cfg (snd first)) w)) :: after
    /\ List.filter is_fetch after = [].
Proof.
  intros Hc Hitems H.
  destruct (loop_first_fetch svc _ _ _ _ _ _ _ _ H Hc)
    as [->|(uid & r0 & after & -> & Hf & _)].
  - destruct items as [|[record metadata] items|e]; try discriminate Hitems.
    cbn [ingest_loop] in H. unfold bind in H.
    destruct (ingest_record svc connector cfg (record, metadata) st w)
      as [[t1 w1] r1] eqn:Hs.
    destruct (step_fetches_first _ _ _ _ _ _ _ _ _ Hc Hs) as [t1' ->].
    destruct r1 as [st1|e];
      [destruct (ingest_loop svc connector cfg items st1 w1) as [[t2 w2] r2]|];
      discriminate H.
  - exists after. split; [|exact Hf].
    destruct items as [|[record metadata] items|e]; try discriminate Hitems.
    cbn [gen_items] in Hitems. injection Hitems as <- _.
    cbn [ingest_loop] in H. unfold bind in H.
    destruct (ingest_record svc connector cfg (record, metadata) st w)
      as [[t1 w1] r1] eqn:Hs.
    destruct (step_fetches_first _ _ _ _ _ _ _ _ _ Hc Hs) as [t1' ->].
    cbn [snd].
    destruct r1 as [st1|e];
      [destruct (ingest_loop svc connector cfg items st1 w1) as [[t2 w2] r2]|];
      injection H as <- <- <- _ _; reflexivity.
Qed.

(** What an iteration that returns leaves in the counter log and among the
    deliveries *)
Lemma step_counted_entry connector cfg record metadata st w t w' st' :
  ingest_record svc connector cfg (record, metadata) st w = (t, w', Return st') ->
  exists text,
    (if enrich cfg
     then exists content, answers t = [content] /\ text = answer_text content
     else answers t = [] /\ text = _record_to_plain_text record)
    /\ if truthy (VStr text)
       then (exists count,
               counted t = [(text, counted_metadata cfg metadata count)])
            /\ delivered_texts t = [text]
       else counted t = [] /\ delivered_texts t = [].
Proof.
  intros H. unfold counted_metadata, resolved_user_id, answer_text.
  record_cases H.
  all: repeat match goal with
         | Hb : negb _ = true |- _ => apply negb_true_iff in Hb
         | Hb : negb _ = false |- _ => apply negb_false_iff in Hb
         end.
  all: repeat match goal with
         | Hc : enrich _ = _ |- _ => rewrite Hc; clear Hc
         end.
  all: eexists; (split;
         [first [ split; reflexivity
                | eexists; split; reflexivity ]|]).
  all: match goal with
       | Hb : truthy _ = _ |- _ => rewrite Hb
       end.
  all: first [ split; reflexivity
             | split; [eexists; reflexivity|reflexivity] ].
Qed.

Lemma delivered_texts_app (t1 t2 : list event) :
  delivered_texts (t1 ++ t2) = (delivered_texts t1 ++ delivered_texts t2)%list.
Proof. unfold delivered_texts. apply omap_app. Qed.

Lemma answers_app (t1 t2 : list event) :
  answers (t1 ++ t2) = (answers t1 ++ answers t2)%list.
Proof. unfold answers. apply omap_app. Qed.

(** A loop that returns: the counter log and the deliveries follow the
    records that were not skipped, one for one. *)
Lemma loop_counted_records connector cfg items : forall st w t w' st',
  ingest_loop svc connector cfg items st w = (t, w', Return st') ->
  Forall2 (counted_for cfg)
    (List.filter not_skipped (derived_texts cfg (gen_items items) t))
    (counted t)
  /\ delivered_texts t = map fst (counted t).
Proof.
  induction items as [|[record metadata] rest IH|e]; intros st w t w' st' H;
    cbn [ingest_loop] in H; unfold ret, lift in H.
  - injection H as <- _ _. unfold derived_texts. cbn.
    destruct (enrich cfg); split; constructor.
  - unfold bind in H.
    destruct (ingest_record svc connector cfg (record, metadata) st w)
      as [[t1 w1] [st1|e]] eqn:Hs; [|discriminate].
    destruct (ingest_loop svc connector cfg rest st1 w1) as [[t2 w2] r2] eqn:Hl.
    injection H as <- _ ->.
    destruct (step_counted_entry _ _ _ _ _ _ _ _ _ Hs) as (text & Htext & Hout).
    destruct (IH _ _ _ _ _ Hl) as [Hrest Hdel].
    assert (Hderived :
      derived_texts cfg (gen_items (GYield (record, metadata) rest)) (t1 ++ t2)
      = ((record, metadata), text) :: derived_texts cfg (gen_items rest) t2).
    { unfold derived_texts. cbn [gen_items]. destruct (enrich cfg).
      - destruct Htext as (content & Hans & ->).
        rewrite answers_app, Hans. reflexivity.
      - destruct Htext as [_ ->]. reflexivity. }
    rewrite Hderived, counted_app, delivered_texts_app, Hdel.
    cbn [List.filter]. unfold not_skipped at 1. cbn [snd].
    destruct (truthy (VStr text)).
    + destruct Hout as [[count ->] ->]. cbn [app map fst]. split; [|reflexivity].
      constructor; [|exact Hrest]. split; [reflexivity|].
      exists count. reflexivity.
    + destruct Hout as [-> ->]. cbn [app]. split; [exact Hrest|reflexivity].
  - discriminate.
Qed.

(** Whatever the end of an iteration over an item that names its source,
    each entry of the counter log is followed by the delivery of its text. *)
Lemma step_counted_delivered connector cfg record metadata st w t w' r :
  is_Some (dict_lookup "source" metadata) ->
  ingest_record svc connector cfg (record, metadata) st w = (t, w', r) ->
  map fst (counted t) = delivered_texts t.
Proof.
  intros [src Hsrc] H. record_cases H.
  all: repeat match goal with
         | Hl : dict_lookup "source" (dict_set _ _ _) = _ |- _ =>
             rewrite !dict_lookup_set_other in Hl by discriminate
         end.
  all: try congruence.
  all: reflexivity.
Qed.

Lemma loop_counted_delivered connector cfg items : forall st w t w' r,
  Forall (fun it => is_Some (dict_lookup "source" (snd it))) (gen_items items) ->
  ingest_loop svc connector cfg items st w = (t, w', r) ->
  map fst (counted t) = delivered_texts t.
Proof.
  induction items as [|[record metadata] rest IH|e]; intros st w t w' r Hsrc H;
    cbn [ingest_loop] in H; unfold ret, lift in H.
  - now injection H as <- _ _.
  - unfold bind in H. cbn [gen_items] in Hsrc.
    pose proof (List.Forall_inv Hsrc) as Hit.
    pose proof (List.Forall_inv_tail Hsrc) as Hrest. cbn [snd] in Hit.
    destruct (ingest_record svc connector cfg (record, metadata) st w)
      as [[t1 w1] r1] eqn:Hs.
    pose proof (step_counted_delivered _ _ _ _ _ _ _ _ _ Hit Hs) as H1.
    destruct r1 as [st1|e].
    + destruct (ingest_loop svc connector cfg rest st1 w1) as [[t2 w2] r2] eqn:Hl.
      injection H as <- _ _.
      rewrite counted_app, map_app, delivered_texts_app, H1.
      now rewrite (IH _ _ _ _ _ Hrest Hl).
    + now injection H as <- _ _.
  - now injection H as <- _ _.
Qed.

(** ** Whole runs *)

Lemma run_fetch_shape connector path cfg w t w' r :
  ingest_file svc parse connector path cfg w = (t, w', r) ->
  (t = [] \/ exists rc, t = [EvClient (timeout cfg) rc])
  \/ exists loader uid r0 after,
       loader_for parse connector = Return loader
       /\ t = EvClient (timeout cfg) (Return tt) :: EvGetMemories uid r0 :: after
       /\ List.filter is_fetch after = []
       /\ Forall (chat_uses connector
                    (map fst (gen_items (_iter_limited (loader path) (limit cfg))))
                    match r0 with Return l => l | Raise _ => [] end) after.
Proof.
  intros H. apply ingest_file_inv in H.
  destruct H as [(_ & -> & _)|(loader & rc & w1 & Hload & Hc & H)];
    [left; now left|].
  destruct H as [(e & _ & -> & _)|(t2 & r2 & -> & Hl & -> & Hr)];
    [left; right; eauto|].
  destruct (loop_first_fetch svc _ _ _ _ _ _ _ _ Hl eq_refl)
    as [->|(uid & r0 & after & -> & Hf & Hu)].
  - left. right. eauto.
  - right. exists loader, uid, r0, after. auto.
Qed.

Lemma run_swallowing connector path cfg w t w' r :
  ingest_file svc parse connector path cfg w = (t, w', r) ->
  ingest_file (swallowing svc) parse connector path cfg w
  = (map swallowed t, w', r).
Proof.
  intros H. unfold ingest_file, bind, lift, call_new_client, ret in *.
  cbn [swallowing new_client].
  destruct (loader_for parse connector) as [loader|e]; [|now injection H as <- <- <-].
  destruct (new_client svc (timeout cfg) w) as [[[]|e] w1];
    [|now injection H as <- <- <-].
  destruct (ingest_loop svc connector cfg _ initial_locals w1)
    as [[t2 w2] r2] eqn:Hl.
  rewrite (loop_swallowing svc _ _ _ _ _ _ _ _ Hl).
  destruct r2; injection H as <- <- <-; cbn; now rewrite ?app_nil_r.
Qed.

(** The loop of a run whose client was built *)
Lemma run_loop connector loader path cfg w w1 t w' r :
  loader_for parse connector = Return loader ->
  new_client svc (timeout cfg) w = (Return tt, w1) ->
  ingest_file svc parse connector path cfg w = (t, w', r) ->
  exists t2 r2,
    ingest_loop svc connector cfg (_iter_limited (loader path) (limit cfg))
      initial_locals w1 = (t2, w', r2)
    /\ t = EvClient (timeout cfg) (Return tt) :: t2.
Proof.
  intros Hload Hclient H. apply ingest_file_inv in H.
  destruct H as [(Hk & _ & _)|(loader' & rc & w1' & Hload' & Hc & H)];
    [rewrite Hload in Hk; discriminate|].
  rewrite Hload in Hload'. injection Hload' as <-.
  rewrite Hclient in Hc. injection Hc as <- <-.
  destruct H as [(e & He & _)|(t2 & r2 & _ & Hl & -> & _)]; [discriminate|].
  eauto.
Qed.

Lemma run_fetches_on_first connector loader path cfg w w1 t w' r first rest :
  loader_for parse connector = Return loader ->
  new_client svc (timeout cfg) w = (Return tt, w1) ->
  gen_items (_iter_limited (loader path) (limit cfg)) = first :: rest ->
  ingest_file svc parse connector path cfg w = (t, w', r) ->
  let uid := resolved_user_id cfg (snd first) in
  exists after,
    t = EvClient (timeout cfg) (Return tt)
        :: EvGetMemories uid (fst (get_memories svc uid w1)) :: after
    /\ List.filter is_fetch after = []
    /\ fetched_memories t = cached (fst (get_memories svc uid w1)).
Proof.
  intros Hload Hclient Hitems H. cbv zeta.
  destruct (run_loop _ _ _ _ _ _ _ _ _ Hload Hclient H) as (t2 & r2 & Hl & ->).
  destruct (loop_fetches_first connector cfg _ initial_locals _ _ _ _ _ _
              eq_refl Hitems Hl)
    as (after & -> & Hf).
  exists after. split; [reflexivity|]. split; [exact Hf|].
  cbn [fetched_memories]. now destruct (fst _).
Qed.

Lemma run_without_records connector loader path cfg w t w' r :
  loader_for parse connector = Return loader ->
  gen_items (_iter_limited (loader path) (limit cfg)) = [] ->
  ingest_file svc parse connector path cfg w = (t, w', r) ->
  List.filter is_fetch t = [].
Proof.
  intros Hload Hitems H. apply ingest_file_inv in H.
  destruct H as [(_ & -> & _)|(loader' & rc & w1 & Hload' & _ & H)];
    [reflexivity|].
  rewrite Hload in Hload'. injection Hload' as <-.
  destruct H as [(e & _ & -> & _)|(t2 & r2 & _ & Hl & -> & _)]; [reflexivity|].
  destruct (_iter_limited (loader path) (limit cfg)) as [|it items|e];
    try discriminate Hitems;
    cbn [ingest_loop] in Hl; unfold ret, lift in Hl;
    injection Hl as <- _ _; reflexivity.
Qed.

Lemma run_processes_all connector loader path cfg w t w' p s :
  loader_for parse connector = Return loader ->
  ingest_file svc parse connector path cfg w = (t, w', Return (p, s)) ->
  let records := gen_items (_iter_limited (loader path) (limit cfg)) in
  p = Z.of_nat (length records)
  /\ Forall2 (counted_for cfg)
       (List.filter not_skipped (derived_texts cfg records t)) (counted t)
  /\ delivered_texts t
     = map snd (List.filter not_skipped (derived_texts cfg records t))
  /\ (enrich cfg = true ->
      Forall2 (request_for connector cfg (fetched_memories t)) records (chats t)).
Proof.
  intros Hload H. cbv zeta.
  destruct (ingest_file_counts svc parse _ _ _ _ _ _ _ _ H)
    as (loader' & Hload' & Hp & _).
  rewrite Hload in Hload'. injection Hload' as <-.
  destruct (returning_run svc parse _ _ _ _ _ _ _ _ _ Hload H)
    as (w1 & t2 & st & Hl & ->).
  destruct (loop_counted_records _ _ _ _ _ _ _ _ Hl) as [Hc Hd].
  assert (Hsame : derived_texts cfg
                    (gen_items (_iter_limited (loader path) (limit cfg)))
                    (EvClient (timeout cfg) (Return tt) :: t2)
                  = derived_texts cfg
                      (gen_items (_iter_limited (loader path) (limit cfg))) t2)
    by reflexivity.
  rewrite Hsame.
  change (counted (EvClient (timeout cfg) (Return tt) :: t2)) with (counted t2).
  change (delivered_texts (EvClient (timeout cfg) (Return tt) :: t2))
    with (delivered_texts t2).
  change (chats (EvClient (timeout cfg) (Return tt) :: t2)) with (chats t2).
  change (fetched_memories (EvClient (timeout cfg) (Return tt) :: t2))
    with (fetched_memories t2).
  split; [exact Hp|]. split; [exact Hc|]. split.
  - rewrite Hd. clear -Hc. induction Hc as [|p c ps cs [Hpc _] _ IH]; [reflexivity|].
    cbn [map]. now rewrite Hpc, IH.
  - intros Henrich.
    exact (proj1 (loop_enriched svc connector cfg _ initial_locals _ _ _ _
                    Henrich eq_refl Hl)).
Qed.

(** C7. In a run of [ingest_file] the memory list is requested at most
    once: not at all when the limited loader yields no record, and
    otherwise exactly once, as the first thing the loop does on the first
    record and for the user id of that record, before any record is
    enriched, counted or stored.  Every enrichment request of the run
    carries the memories selected from the list that request returned, or
    from the empty list if it raised.  A request that raises does not end
    the run: the run ends as the run in which the request returns the empty
    list, call for call; and a run that returns, whether the request raised
    or not, went through every record, delivered the text of every record
    that was not skipped and, with enrichment, sent for every record the
    request built on the cached list. *)
Theorem memories_fetched_once (connector : string) (path : Path)
    (cfg : IngestConfig) (w : World) t w' r :
  ingest_file svc parse connector path cfg w = (t, w', r) ->
  (length (List.filter is_fetch t) <= 1)%nat
  /\ ((t = [] \/ exists rc, t = [EvClient (timeout cfg) rc])
      \/ exists loader uid r0 after,
           loader_for parse connector = Return loader
           /\ t = EvClient (timeout cfg) (Return tt)
                  :: EvGetMemories uid r0 :: after
           /\ List.filter is_fetch after = []
           /\ Forall (chat_uses connector
                        (map fst (gen_items
                           (_iter_limited (loader path) (limit cfg))))
                        match r0 with Return l => l | Raise _ => [] end)
                after)
  /\ ingest_file (swallowing svc) parse connector path cfg w
     = (map swallowed t, w', r)
  /\ (forall loader,
        loader_for parse connector = Return loader ->
        gen_items (_iter_limited (loader path) (limit cfg)) = [] ->
        List.filter is_fetch t = [])
  /\ (forall loader w1 first rest,
        loader_for parse connector = Return loader ->
        new_client svc (timeout cfg) w = (Return tt, w1) ->
        gen_items (_iter_limited (loader path) (limit cfg)) = first :: rest ->
        let uid := resolved_user_id cfg (snd first) in
        exists after,
          t = EvClient (timeout cfg) (Return tt)
              :: EvGetMemories uid (fst (get_memories svc uid w1)) :: after
          /\ List.filter is_fetch after = []
          /\ fetched_memories t = cached (fst (get_memories svc uid w1)))
  /\ (forall loader p s,
        loader_for parse connector = Return loader ->
        r = Return (p, s) ->
        let records := gen_items (_iter_limited (loader path) (limit cfg)) in
        p = Z.of_nat (length records)
        /\ delivered_texts t
           = map snd (List.filter not_skipped (derived_texts cfg records t))
        /\ (enrich cfg = true ->
            Forall2 (request_for connector cfg (fetched_memories t))
              records (chats t))).
Proof.
  intros H.
  pose proof (run_fetch_shape _ _ _ _ _ _ _ H) as Hshape.
  split; [|split; [exact Hshape|split; [now apply run_swallowing|]]].
  - destruct Hshape as [[->|[rc ->]]|(loader & uid & r0 & after & _ & -> & Hf & _)];
      cbn; try lia. rewrite Hf. cbn. lia.
  - split; [|split].
    + intros loader Hload Hitems.
      exact (run_without_records _ _ _ _ _ _ _ _ Hload Hitems H).
    + intros loader w1 first rest Hload Hclient Hitems.
      exact (run_fetches_on_first _ _ _ _ _ _ _ _ _ _ _ Hload Hclient Hitems H).
    + intros loader p s Hload ->. cbv zeta.
      destruct (run_processes_all _ _ _ _ _ _ _ _ _ Hload H)
        as (Hp & _ & Hd & Hreq).
      auto.
Qed.

Lemma run_counted_delivered connector path cfg w t w' r :
  ingest_file svc parse connector path cfg w = (t, w', r) ->
  map fst (counted t) = delivered_texts t.
Proof.
  intros H. apply ingest_file_inv in H.
  destruct H as [(_ & -> & _)|(loader & rc & w1 & Hload & _ & H)];
    [reflexivity|].
  destruct H as [(e & _ & -> & _)|(t2 & r2 & _ & Hl & -> & _)]; [reflexivity|].
  change (map fst (counted t2) = delivered_texts t2).
  apply (loop_counted_delivered _ _ _ _ _ _ _ _) with (2 := Hl).
  apply limited_items_Forall.
  eapply List.Forall_impl; [|exact (loader_stamps parse _ _ path Hload)].
  intros it (_ & Hsrc & _). rewrite Hsrc. eauto.
Qed.

Lemma run_counts connector path cfg w t w' r n text md :
  ingest_file svc parse connector path cfg w = (t, w', r) ->
  counted t !! n = Some (text, md) ->
  dict_lookup "occurrence_count" md
  = Some (VInt (Z.of_nat (count_occ string_dec
       (map fst (firstn (S n) (counted t))) text))).
Proof.
  intros H Hn.
  assert (Hfrom : counted_from [] (counted t)).
  { apply ingest_file_inv in H.
    destruct H as [(_ & -> & _)|(loader & rc & w1 & _ & _ & H)]; [exact I|].
    destruct H as [(e & _ & -> & _)|(t2 & r2 & _ & Hl & -> & _)]; [exact I|].
    cbn [counted]. apply (loop_counted svc _ _ _ _ _ _ _ _ _ Hl).
    intros other. cbn. now rewrite lookup_empty. }
  exact (counted_from_nth _ [] n text md Hfrom Hn).
Qed.

Lemma lookup_in_prefix {A} (l : list A) (n : nat) (x : A) :
  l !! n = Some x -> In x (firstn (S n) l).
Proof.
  revert n. induction l as [|a l IH]; intros [|n] Hn; try discriminate;
    cbn in Hn.
  - injection Hn as ->. now left.
  - right. now apply IH.
Qed.

Lemma counted_for_texts cfg (ps : list (item * string))
    (cs : list (string * dict)) :
  Forall2 (counted_for cfg) ps cs -> map fst cs = map snd ps.
Proof.
  induction 1 as [|p c ps cs [Hpc _] _ IH]; [reflexivity|].
  cbn [map]. now rewrite Hpc, IH.
Qed.

(** C9. Within one run of [ingest_file] the counter log has one entry per
    delivery -- store call or dry-run line -- with the delivered text, in
    order.  The metadata of the [n]th entry holds as [occurrence_count]
    the number of entries up to and including it whose text is exactly its
    own; the count is at least 1 and depends on this run alone, whatever
    was ingested before.  In a run that returns the entries are those of
    the records that were not skipped: the [n]th such record, with the
    text derived for it, has the [n]th entry, which is its own metadata
    object with [user_id] set and with [occurrence_count] set to the
    number of records not skipped so far, itself included, whose text is
    exactly that text. *)
Theorem occurrence_count_per_file (connector : string) (path : Path)
    (cfg : IngestConfig) (w : World) t w' r :
  ingest_file svc parse connector path cfg w = (t, w', r) ->
  map fst (counted t) = delivered_texts t
  /\ (forall (n : nat) (text : string) (md : dict),
        counted t !! n = Some (text, md) ->
        let so_far := map fst (firstn (S n) (counted t)) in
        dict_lookup "occurrence_count" md
        = Some (VInt (Z.of_nat (count_occ string_dec so_far text)))
        /\ 1 <= Z.of_nat (count_occ string_dec so_far text))
  /\ (forall loader p s,
        loader_for parse connector = Return loader ->
        r = Return (p, s) ->
        let kept :=
          List.filter not_skipped
            (derived_texts cfg
               (gen_items (_iter_limited (loader path) (limit cfg))) t) in
        length (counted t) = length kept
        /\ forall (n : nat) (it : item) (text : string),
             kept !! n = Some (it, text) ->
             counted t !! n
             = Some (text,
                     counted_metadata cfg (snd it)
                       (Z.of_nat (count_occ string_dec
                          (map snd (firstn (S n) kept)) text)))).
Proof.
  intros H. split; [exact (run_counted_delivered _ _ _ _ _ _ _ H)|]. split.
  - intros n text md Hn. cbv zeta.
    split; [exact (run_counts _ _ _ _ _ _ _ _ _ _ H Hn)|].
    pose proof (lookup_in_prefix _ _ _ Hn) as Hin.
    apply (in_map fst) in Hin. cbn [fst] in Hin.
    apply (count_occ_In string_dec) in Hin. lia.
  - intros loader p s Hload ->. cbv zeta.
    destruct (run_processes_all _ _ _ _ _ _ _ _ _ Hload H) as (_ & Hc & _).
    split; [symmetry; exact (Forall2_length _ _ _ Hc)|].
    intros n it text Hn.
    destruct (Forall2_lookup_l _ _ _ _ _ Hc Hn) as ([text' md] & Hm & Htext & count & Hmd).
    cbn [fst snd] in Htext, Hmd. subst text' md.
    pose proof (run_counts _ _ _ _ _ _ _ _ _ _ H Hm) as Hcount.
    unfold counted_metadata in Hcount at 1. rewrite dict_lookup_set in Hcount.
    injection Hcount as ->.
    rewrite Hm. do 4 f_equal.
    rewrite <- !firstn_map. now rewrite (counted_for_texts _ _ _ Hc).
Qed.

End Deliveries.

Lemma memories_fetched_once_witness :
  (exists after,
     week_enriched_trace
     = EvClient 60 (Return tt)
       :: EvGetMemories (VStr "demo_user") (Raise ServiceError) :: after
     /\ List.filter is_fetch after = [])
  /\ Forall2 (request_for "calendar" (with_enrich plain_config) [])
       (gen_items (load_calendar_file PyDatetime.fromisoformat week_file))
       (chats week_enriched_trace)
  /\ delivered_texts week_enriched_trace
     = repeat "Dentist visit on 1 March." 5.
Proof.
  assert (Hrun : ingest_file quiet_services PyDatetime.fromisoformat "calendar"
                   week_file (with_enrich plain_config) tt
                 = (week_enriched_trace, tt, Return (5, 5)))
    by (vm_compute; reflexivity).
  pose proof (memories_fetched_once quiet_services PyDatetime.fromisoformat
                "calendar" week_file (with_enrich plain_config) tt
                week_enriched_trace tt (Return (5, 5)) Hrun)
    as (_ & _ & _ & _ & Hfirst & Hall).
  destruct (Hfirst (load_calendar_file PyDatetime.fromisoformat) tt _ _
              eq_refl eq_refl eq_refl) as (after & Ht & Hf & _).
  destruct (Hall (load_calendar_file PyDatetime.fromisoformat) 5 5
              eq_refl eq_refl) as (_ & Hd & Hreq).
  split; [exists after; split; [exact Ht|exact Hf]|].
  split; [exact (Hreq eq_refl)|exact Hd].
Defined.

Lemma occurrence_count_per_file_witness :
  map fst (counted week_dry_trace) = delivered_texts week_dry_trace
  /\ dict_lookup "occurrence_count" week_third_metadata
     = Some (VInt (Z.of_nat (count_occ string_dec
          (map fst (firstn 3 (counted week_trace))) "Dentist")))
  /\ counted week_trace !! 4%nat
     = Some ("Gym",
             counted_metadata plain_config
               [("user_id", VStr "week"); ("source", VStr "week.json");
                ("record_id", VStr "event-4"); ("timestamp", VNone);
                ("start_utc", VNone); ("end_utc", VNone)] 2).
Proof.
  assert (Hrun : ingest_file quiet_services PyDatetime.fromisoformat "calendar"
                   week_file plain_config tt = (week_trace, tt, Return (5, 5)))
    by (vm_compute; reflexivity).
  assert (Hdry : ingest_file quiet_services PyDatetime.fromisoformat "calendar"
                   week_file (with_dry_run plain_config) tt
                 = (week_dry_trace, tt, Return (5, 0)))
    by (vm_compute; reflexivity).
  split; [|split].
  - exact (proj1 (occurrence_count_per_file quiet_services
                    PyDatetime.fromisoformat "calendar" week_file
                    (with_dry_run plain_config) tt week_dry_trace tt _ Hdry)).
  - exact (proj1 (proj1 (proj2 (occurrence_count_per_file quiet_services
             PyDatetime.fromisoformat "calendar" week_file plain_config tt
             week_trace tt _ Hrun)) 2%nat "Dentist" week_third_metadata eq_refl)).
  - exact (proj2 (proj2 (proj2 (occurrence_count_per_file quiet_services
             PyDatetime.fromisoformat "calendar" week_file plain_config tt
             week_trace tt _ Hrun))
             (load_calendar_file PyDatetime.fromisoformat) 5 5 eq_refl eq_refl)
             4%nat _ "Gym" eq_refl).
Defined.

(** * The cases of [_to_utc] *)

Lemma astimezone_utc_years (dt utc : PyDatetime.datetime) :
  PyDatetime.astimezone_utc dt = Return utc ->
  1 <= PyDatetime.year utc <= 9999.
Proof.
  unfold PyDatetime.astimezone_utc.
  destruct (PyDatetime.civil_from_days _) as [[y m] d].
  destruct (Z.ltb_spec y 1) as [Hlow|Hlow]; [discriminate|].
  destruct (Z.ltb_spec 9999 y) as [Hhigh|Hhigh]; [discriminate|].
  cbn [orb]. intros Hutc. injection Hutc as <-. cbn. lia.
Qed.

(** X18.  Whatever [datetime.fromisoformat] is, [_to_utc] returns its
    argument as it is in each of four cases: a value that is no string, a
    string that does not parse, a time without offset, a time whose move
    to UTC raises (it leaves the years 1..9999).  In the one case left, a
    string that parses to a time with an offset whose move to UTC
    returns, the result is the ISO form of the moved time, which has
    offset 0, a year in 1..9999 and a text ending in [+00:00]. *)
Theorem to_utc_unchanged_or_utc (parse : string -> res PyDatetime.datetime) :
  (forall v, (forall s, v <> VStr s) -> _to_utc parse v = Return v)
  /\ (forall s e, parse s = Raise e ->
        _to_utc parse (VStr s) = Return (VStr s))
  /\ (forall s dt, parse s = Return dt -> PyDatetime.tzinfo dt = None ->
        _to_utc parse (VStr s) = Return (VStr s))
  /\ (forall s dt off e,
        parse s = Return dt -> PyDatetime.tzinfo dt = Some off ->
        PyDatetime.astimezone_utc dt = Raise e ->
        _to_utc parse (VStr s) = Return (VStr s))
  /\ (forall s dt off utc,
        parse s = Return dt -> PyDatetime.tzinfo dt = Some off ->
        PyDatetime.astimezone_utc dt = Return utc ->
        _to_utc parse (VStr s) = Return (VStr (PyDatetime.isoformat utc))
        /\ PyDatetime.tzinfo utc = Some 0
        /\ 1 <= PyDatetime.year utc <= 9999
        /\ exists pre, PyDatetime.isoformat utc = pre ++ "+00:00").
Proof.
  unfold _to_utc, try_except, res_bind.
  split; [|split; [|split; [|split]]].
  - intros v Hv. destruct v as [| | |s| | |]; try reflexivity.
    now destruct (Hv s).
  - intros s e ->. reflexivity.
  - intros s dt -> ->. reflexivity.
  - intros s dt off e -> -> ->. reflexivity.
  - intros s dt off utc -> -> Hutc. rewrite Hutc.
    split; [reflexivity|].
    split; [exact (astimezone_utc_zone _ _ Hutc)|].
    split; [exact (astimezone_utc_years _ _ Hutc)|].
    exact (isoformat_utc_suffix utc (astimezone_utc_zone _ _ Hutc)).
Qed.

Lemma to_utc_unchanged_or_utc_witness :
  _to_utc PyDatetime.fromisoformat (VStr "2024-06-30T23:15:00-03:00")
  = Return (VStr "2024-07-01T02:15:00+00:00")
  /\ _to_utc PyDatetime.fromisoformat (VStr "2024-06-30T23:15:00")
     = Return (VStr "2024-06-30T23:15:00").
Proof.
  split.
  - edestruct (proj2 (proj2 (proj2 (proj2
        (to_utc_unchanged_or_utc PyDatetime.fromisoformat))))
        "2024-06-30T23:15:00-03:00") as [H _];
      [vm_compute; reflexivity|vm_compute; reflexivity
      |vm_compute; reflexivity|exact H].
  - eapply (proj1 (proj2 (proj2
        (to_utc_unchanged_or_utc PyDatetime.fromisoformat))));
      vm_compute; reflexivity.
Defined.
